(** * Resolution pipeline of the YouTube streaming API (main.py)

    A shallow embedding of the parts of [main.py] that select a media
    format and drive the audio fallback chain, together with the result
    cache and the rate limiter they call.

    Conventions.
    - A Python dict read with [d.get(k)] / [d.get(k, default)] / [d[k]]
      is a record whose entries are [field]s: the key may be absent, hold
      [None], or hold a value.  The three lookups are [get], [get_default]
      and, for the one key read with brackets, [getitem_url].
    - A Python value that may be [None] is an [option]; [None] is Python's.
    - Numbers (bitrates, sizes, heights) are integers ([Z]); timestamps
      are integer ticks.
    - Code that raises is a computation in the monad [M], which threads the
      process state and carries the raised exception. *)

From Stdlib Require Import Ascii String.
From stdpp Require Import base numbers list strings gmap.

Local Open Scope string_scope.
Local Open Scope Z_scope.
Local Open Scope list_scope.

(** ** Python dictionaries as records of optional entries *)

Inductive field (A : Type) : Type :=
| Absent
| Null
| Val (a : A).
Arguments Absent {A}.
Arguments Null {A}.
Arguments Val {A} a.

(** [d.get(k)]: absent keys and [None] values both read as [None]. *)
Definition get {A} (f : field A) : option A :=
  match f with
  | Val a => Some a
  | _ => None
  end.

(** [d.get(k, default)]: only an absent key yields the default. *)
Definition get_default {A} (f : field A) (d : A) : option A :=
  match f with
  | Absent => Some d
  | Null => None
  | Val a => Some a
  end.

(** Truthiness of a number that may be [None], and the [a or b] idiom. *)
Definition truthy (v : option Z) : bool :=
  match v with
  | Some n => negb (n =? 0)
  | None => false
  end.

Definition py_or (a b : option Z) : option Z :=
  if truthy a then a else b.

(** [a or 0]: the result is always a number. *)
Definition or_zero (a : option Z) : Z :=
  match py_or a (Some 0) with
  | Some n => n
  | None => 0
  end.

(** ** Candidate formats and metadata documents (yt-dlp [info] dicts) *)

Record Format := {
  fmt_url : field string;
  acodec : field string;
  vcodec : field string;
  abr : field Z;
  tbr : field Z;
  asr : field Z;
  filesize : field Z;
  ext : field string;
  protocol : field string;
  format_note : field string;
  height : field Z;
  width : field Z;
  fps : field Z
}.

Record Info := {
  title : field string;
  duration : field Z;
  formats : field (list Format);
  thumbnail : field string;
  channel : field string;
  view_count : field Z;
  like_count : field Z;
  upload_date : field string
}.

(** [fmt.get(k) != 'none'] and [fmt.get(k) == 'none'] on a codec entry. *)
Definition not_none_codec (c : field string) : bool :=
  negb (bool_decide (get c = Some "none")).

Definition is_none_codec (c : field string) : bool :=
  bool_decide (get c = Some "none").

(** ** Sorting

    [list.sort(key=..., reverse=True)] is stable: the result is in
    descending key order and elements with equal keys keep their input
    order.  That result is unique, and the insertion sort below computes
    it. *)

Definition Key : Type := Z * Z * Z.

(** Python tuple comparison [a < b]. *)
Definition key_ltb (a b : Key) : bool :=
  let '(a1, a2, a3) := a in
  let '(b1, b2, b3) := b in
  (a1 <? b1) || ((a1 =? b1) && ((a2 <? b2) || ((a2 =? b2) && (a3 <? b3)))).

Definition key_leb (a b : Key) : bool := negb (key_ltb b a).

Section Sort.
Context {A : Type} (key : A → Key).

Fixpoint insert_desc (x : A) (l : list A) : list A :=
  match l with
  | [] => [x]
  | y :: l' =>
      if key_ltb (key x) (key y) then y :: insert_desc x l'
      else x :: y :: l'
  end.

Fixpoint sort_desc (l : list A) : list A :=
  match l with
  | [] => []
  | x :: l' => insert_desc x (sort_desc l')
  end.

(** Descending: no element is followed by one with a larger key. *)
Definition descending (l : list A) : Prop :=
  ∀ i j x y, (i < j)%nat → l !! i = Some x → l !! j = Some y →
             key_ltb (key x) (key y) = false.
End Sort.

(** ** Format selection of [_try_audio_method] (lines 241-264) *)

(** The loop body's test for appending [fmt] to [suitable_formats]. *)
Definition suitable (method_name : string) (fmt : Format) : bool :=
  if bool_decide (method_name = "mixed_format_method")
     && not_none_codec (acodec fmt)
  then true
  else not_none_codec (acodec fmt)
       && (is_none_codec (vcodec fmt)
           || negb (bool_decide (method_name = "mixed_format_method"))).

Definition suitable_formats (method_name : string) (fs : list Format)
  : list Format :=
  List.filter (suitable method_name) fs.

(** The sort key: [(abr or tbr or 0, asr or 0, filesize or 0)]. *)
Definition audio_key (x : Format) : Key :=
  (or_zero (py_or (get_default (abr x) 0) (get_default (tbr x) 0)),
   or_zero (get_default (asr x) 0),
   or_zero (get_default (filesize x) 0)).

(** [suitable_formats.sort(...); best_format = suitable_formats[0]];
    [None] when [suitable_formats] is empty. *)
Definition best_audio_format (method_name : string) (fs : list Format)
  : option Format :=
  head (sort_desc audio_key (suitable_formats method_name fs)).

(** The ranking key as the specification words it: the bitrate, the total
    bitrate when the bitrate is absent, then the sample rate, then the
    file size, a missing number counting as zero. *)
Definition spec_audio_key (x : Format) : Key :=
  (match get (abr x) with
   | Some bitrate => bitrate
   | None => default 0 (get (tbr x))
   end,
   default 0 (get (asr x)),
   default 0 (get (filesize x))).

(** ** Video format selection of [get_stream_info] (lines 332-344) *)

Definition video_formats (fs : list Format) : list Format :=
  List.filter (λ f, not_none_codec (vcodec f)) fs.

Definition video_key (x : Format) : Key :=
  (or_zero (get_default (height x) 0),
   or_zero (get_default (width x) 0),
   or_zero (get_default (fps x) 0)).

Definition best_video_format (fs : list Format) : option Format :=
  head (sort_desc video_key (video_formats fs)).

(** ** Result dictionaries *)

(** The ['format'] entry of an audio result (lines 273-282). *)
Record AudioFormatInfo := {
  af_ext : option string;
  af_abr : option Z;
  af_asr : option Z;
  af_vcodec : option string;
  af_acodec : option string;
  af_filesize : option Z;
  af_protocol : option string;
  af_format_note : option string
}.

(** The ['format'] entry of a video result (lines 348-355). *)
Record VideoFormatInfo := {
  vf_ext : option string;
  vf_height : option Z;
  vf_width : option Z;
  vf_fps : option Z;
  vf_filesize : option Z;
  vf_format_note : option string
}.

Record AudioResult := {
  ar_video_id : option string;
  ar_title : option string;
  ar_duration : option Z;
  ar_stream_url : option string;
  ar_format : AudioFormatInfo;
  ar_method_used : string
}.

Record VideoResult := {
  vr_video_id : option string;
  vr_title : option string;
  vr_duration : option Z;
  vr_thumbnail : option string;
  vr_channel : option string;
  vr_view_count : option Z;
  vr_like_count : option Z;
  vr_upload_date : option string;
  vr_stream_url : option string;
  vr_format : VideoFormatInfo
}.

(** A result dict: ['status'] is ['success'] (with ['type'] ['audio'] or
    ['video']) or ['error'].  An error dict carries ['message'] and, when
    built by [get_stream_info], ['video_id']. *)
Inductive Result :=
| AudioSuccess (r : AudioResult)
| VideoSuccess (r : VideoResult)
| Error (message : string) (video_id : option string).

(** [result['status']] *)
Definition status (r : Result) : string :=
  match r with
  | AudioSuccess _ | VideoSuccess _ => "success"
  | Error _ _ => "error"
  end.

Definition is_success (r : Result) : bool :=
  bool_decide (status r = "success").

(** [result.get('message', '')] *)
Definition message_of (r : Result) : string :=
  match r with
  | Error m _ => m
  | _ => ""
  end.

(** [result['stream_url']] of a success dict. *)
Definition stream_url_of (r : Result) : option string :=
  match r with
  | AudioSuccess a => ar_stream_url a
  | VideoSuccess v => vr_stream_url v
  | Error _ _ => None
  end.

(** [result.get('method_used', 'unknown')] *)
Definition method_used_of (r : Result) : string :=
  match r with
  | AudioSuccess a => ar_method_used a
  | _ => "unknown"
  end.

(** ** Options bundles handed to [yt_dlp.YoutubeDL]

    The entries that vary between call sites; the constant ones ([quiet],
    [no_warnings], [extract_flat], [ignoreerrors]) are left out. *)

Record Postprocessor := {
  pp_key : string;
  pp_preferredcodec : string;
  pp_preferredquality : string
}.

Record YdlOpts := {
  opt_socket_timeout : Z;
  opt_retries : option Z;
  opt_cookiefile : option string;
  opt_proxy : option string;
  opt_format : option string;
  opt_postprocessors : option (list Postprocessor);
  opt_force_generic_extractor : bool;
  opt_geo_bypass_country : option string
}.

Definition set_cookiefile (c : string) (o : YdlOpts) : YdlOpts :=
  {| opt_socket_timeout := opt_socket_timeout o; opt_retries := opt_retries o;
     opt_cookiefile := Some c; opt_proxy := opt_proxy o;
     opt_format := opt_format o; opt_postprocessors := opt_postprocessors o;
     opt_force_generic_extractor := opt_force_generic_extractor o;
     opt_geo_bypass_country := opt_geo_bypass_country o |}.

Definition set_proxy (p : string) (o : YdlOpts) : YdlOpts :=
  {| opt_socket_timeout := opt_socket_timeout o; opt_retries := opt_retries o;
     opt_cookiefile := opt_cookiefile o; opt_proxy := Some p;
     opt_format := opt_format o; opt_postprocessors := opt_postprocessors o;
     opt_force_generic_extractor := opt_force_generic_extractor o;
     opt_geo_bypass_country := opt_geo_bypass_country o |}.

Definition set_format (f : string) (o : YdlOpts) : YdlOpts :=
  {| opt_socket_timeout := opt_socket_timeout o; opt_retries := opt_retries o;
     opt_cookiefile := opt_cookiefile o; opt_proxy := opt_proxy o;
     opt_format := Some f; opt_postprocessors := opt_postprocessors o;
     opt_force_generic_extractor := opt_force_generic_extractor o;
     opt_geo_bypass_country := opt_geo_bypass_country o |}.

Definition set_postprocessors (p : list Postprocessor) (o : YdlOpts)
  : YdlOpts :=
  {| opt_socket_timeout := opt_socket_timeout o; opt_retries := opt_retries o;
     opt_cookiefile := opt_cookiefile o; opt_proxy := opt_proxy o;
     opt_format := opt_format o; opt_postprocessors := Some p;
     opt_force_generic_extractor := opt_force_generic_extractor o;
     opt_geo_bypass_country := opt_geo_bypass_country o |}.

Definition set_force_generic_extractor (b : bool) (o : YdlOpts) : YdlOpts :=
  {| opt_socket_timeout := opt_socket_timeout o; opt_retries := opt_retries o;
     opt_cookiefile := opt_cookiefile o; opt_proxy := opt_proxy o;
     opt_format := opt_format o; opt_postprocessors := opt_postprocessors o;
     opt_force_generic_extractor := b;
     opt_geo_bypass_country := opt_geo_bypass_country o |}.

Definition set_geo_bypass_country (c : string) (o : YdlOpts) : YdlOpts :=
  {| opt_socket_timeout := opt_socket_timeout o; opt_retries := opt_retries o;
     opt_cookiefile := opt_cookiefile o; opt_proxy := opt_proxy o;
     opt_format := opt_format o; opt_postprocessors := opt_postprocessors o;
     opt_force_generic_extractor := opt_force_generic_extractor o;
     opt_geo_bypass_country := Some c |}.

(** ** Configuration (config.py) *)

Record Config := {
  RATE_LIMIT_WINDOW : Z;
  MAX_REQUESTS_PER_MINUTE : nat;
  COOKIES_FILE : option string;
  CACHE_TTL : Z;
  MAX_CACHE_SIZE : nat;
  PROXY : option string
}.

(** [YTDLP_DEFAULT_OPTS] restricted to the entries of [YdlOpts]. *)
Definition YTDLP_DEFAULT_OPTS : YdlOpts :=
  {| opt_socket_timeout := 60; opt_retries := Some 10;
     opt_cookiefile := None; opt_proxy := None; opt_format := None;
     opt_postprocessors := None; opt_force_generic_extractor := false;
     opt_geo_bypass_country := None |}.

(** Truthiness of a string that may be [None]. *)
Definition truthy_str (s : option string) : bool :=
  match s with
  | Some s => negb (bool_decide (s = ""))
  | None => false
  end.

(** [str(x)] inside an f-string, for a string that may be [None]. *)
Definition str_of (s : option string) : string := default "None" s.

(** ** The result cache ([utils.cache])

    The values are resolution results; the payloads that [/info] and
    [/search] keep under keys that begin with ["info:"] and ["search:"]
    are not part of the model. *)

Module ResultCache.

Record Entry := {
  key : string;
  value : Result;
  created_at : Z;
  ttl : Z
}.

Record t := {
  entries : list Entry;
  hits : nat;
  misses : nat
}.

Definition empty : t := {| entries := []; hits := 0; misses := 0 |}.

Definition lookup (k : string) (es : list Entry) : option Entry :=
  List.find (λ e, bool_decide (key e = k)) es.

Definition remove (k : string) (es : list Entry) : list Entry :=
  List.filter (λ e, negb (bool_decide (key e = k))) es.

(** Modelled from the spec: [utils.cache.get], whose source is not part
    of the repository files at hand (section 4.2).  A lookup misses when
    the key is absent or when [now - created_at > ttl]; an expired entry
    is evicted by the lookup that finds it; the hit and miss counters
    are incremented. *)
Definition get (now : Z) (k : string) (c : t) : option Result * t :=
  match lookup k (entries c) with
  | None =>
      (None, {| entries := entries c; hits := hits c;
                misses := S (misses c) |})
  | Some e =>
      if ttl e <? now - created_at e
      then (None, {| entries := remove k (entries c); hits := hits c;
                     misses := S (misses c) |})
      else (Some (value e), {| entries := entries c; hits := S (hits c);
                               misses := misses c |})
  end.

(** Modelled from the spec: [utils.cache.set] (section 4.2).  The entry
    is inserted or overwritten; when inserting would exceed [max_entries]
    the earliest inserted entry is evicted first. *)
Definition set (max_entries : nat) (now ttl_ : Z) (k : string)
    (v : Result) (c : t) : t :=
  let es := remove k (entries c) in
  let es := if (max_entries <=? length es)%nat then tail es else es in
  {| entries := es ++ [{| key := k; value := v; created_at := now;
                          ttl := ttl_ |}];
     hits := hits c; misses := misses c |}.

(** Modelled from the spec: [clear()]; [main.py] line 878 empties the
    underlying dict directly. *)
Definition clear (c : t) : t :=
  {| entries := []; hits := hits c; misses := misses c |}.

(** Every cached value is a success result. *)
Definition only_success (c : t) : Prop :=
  Forall (λ e, status (value e) = "success") (entries c).

End ResultCache.

(** ** The rate limiter ([utils.rate_limiter]) *)

Module RateLimiter.

(** One window per client key: the request instants still remembered. *)
Abbreviation t := (gmap string (list Z)).

Definition window_of (k : string) (m : t) : list Z :=
  default [] (m !! k).

(** Timestamps older than [now - window] are dropped. *)
Definition prune (window now : Z) (ts : list Z) : list Z :=
  List.filter (λ ts_i, now - window <=? ts_i) ts.

(** Modelled from the spec: [utils.rate_limiter.check_limit], whose
    source is not part of the repository files at hand (section 4.1).
    On each call: drop all timestamps older than [now - window]; if the
    remaining count is at least [max_requests], reject without
    recording; else append [now] and accept. *)
Definition check_limit (window : Z) (max_requests : nat) (now : Z)
    (k : string) (m : t) : bool * t :=
  let ts := prune window now (window_of k m) in
  if (max_requests <=? length ts)%nat
  then (false, <[k := ts]> m)
  else (true, <[k := ts ++ [now]]> m).

(** A run of checks for one client at the given instants: the verdicts
    in order and the final windows. *)
Fixpoint check_all (window : Z) (max_requests : nat) (k : string)
    (instants : list Z) (m : t) : list bool * t :=
  match instants with
  | [] => ([], m)
  | now :: rest =>
      let '(b, m1) := check_limit window max_requests now k m in
      let '(bs, m2) := check_all window max_requests k rest m1 in
      (b :: bs, m2)
  end.

End RateLimiter.

(** ** The environment of the server

    Everything [main.py] reaches outside itself: the external resolver
    ([yt_dlp.YoutubeDL(opts).extract_info(url, download=False)], which
    raises with a message ([inl]), returns a falsy value, [None] or an
    empty dict ([inr None]), or returns a metadata document), the file
    system ([os.path.exists]), the clock ([time.time]), and the helpers
    of [utils.youtube_utils]. *)

Inductive Response :=
| RedirectResponse (url : option string) (status_code : Z)
    (headers : list (string * string))
| JSONResponse (status_code : Z) (content : list (string * string)).

Record Env := {
  World : Type;
  extract_info : string → YdlOpts → World → (string + option Info) * World;
  path_exists : string → World → bool;
  time : World → Z;
  extract_video_id : string → option string;
  is_valid_youtube_url : string → bool;
  (** Lines 499-514 of [stream_audio]: the redirect and its headers.  The
      header dict calls [youtube_utils.clean_title] and refers to the name
      [hashlib]; it yields a response or raises with a message. *)
  audio_response : Result → string + Response
}.

(** What the process does that an observer can see, in order. *)
Inductive Event :=
| EvTrying (method_name : string) (video_id : option string)
| EvExtract (url : string) (opts : YdlOpts)
| EvCacheGet (cache_key : string)
| EvCacheSet (cache_key : string) (value : Result).

Record State (E : Env) := {
  world : World E;
  trace : list Event;
  cache : ResultCache.t;
  windows : RateLimiter.t
}.
Arguments world {E} s.
Arguments trace {E} s.
Arguments cache {E} s.
Arguments windows {E} s.

(** ** Computations: state passing with exceptions *)

Inductive Exn :=
| PyExc (msg : string)
| HTTPException (status_code : Z) (detail : string).

(** [str(e)] *)
Definition str_exn (e : Exn) : string :=
  match e with
  | PyExc msg => msg
  | HTTPException code detail => detail
  end.

Inductive Res (A : Type) :=
| Ok (a : A)
| Raise (e : Exn).
Arguments Ok {A} a.
Arguments Raise {A} e.

Definition M (E : Env) (A : Type) : Type := State E → Res A * State E.

Section Monad.
Context {E : Env}.

Definition ret {A} (a : A) : M E A := λ s, (Ok a, s).

Definition bind {A B} (m : M E A) (k : A → M E B) : M E B :=
  λ s, match m s with
       | (Ok a, s') => k a s'
       | (Raise e, s') => (Raise e, s')
       end.

Definition raise {A} (e : Exn) : M E A := λ s, (Raise e, s).

(** [try: m  except Exception as e: h e] *)
Definition try_except {A} (m : M E A) (h : Exn → M E A) : M E A :=
  λ s, match m s with
       | (Ok a, s') => (Ok a, s')
       | (Raise e, s') => h e s'
       end.

Definition emit (ev : Event) : M E unit :=
  λ s, (Ok (), {| world := world s; trace := trace s ++ [ev];
                  cache := cache s; windows := windows s |}).

Definition read_world {A} (f : World E → A) : M E A :=
  λ s, (Ok (f (world s)), s).
End Monad.

Notation "x <- c1 ;; c2" := (bind c1 (λ x, c2))
  (at level 100, c1 at next level, right associativity).
Notation "c1 ;;; c2" := (bind c1 (λ _, c2))
  (at level 100, right associativity).

(** [**kwargs] of [_try_audio_method]; a keyword not passed reads as
    falsy. *)
Record Kwargs := {
  kw_use_cookies : bool;
  kw_accept_video : bool;
  kw_extract_dash : bool;
  kw_force_generic : bool
}.

Definition no_kwargs : Kwargs :=
  {| kw_use_cookies := false; kw_accept_video := false;
     kw_extract_dash := false; kw_force_generic := false |}.

(** [s.lower()] on ASCII letters and ["needle" in hay].  [lower] folds
    the letters A-Z and keeps every other character; Python folds by the
    Unicode tables (the Kelvin sign U+212A becomes [k]), so the two agree
    on text in ASCII, [is_ascii] below, and a statement that depends on
    what [lower] returns is made about such text. *)
Definition lower_ascii (c : ascii) : ascii :=
  let n := nat_of_ascii c in
  if (65 <=? n)%nat && (n <=? 90)%nat then ascii_of_nat (n + 32) else c.

Fixpoint lower (s : string) : string :=
  match s with
  | EmptyString => EmptyString
  | String c s' => String (lower_ascii c) (lower s')
  end.

Fixpoint contains (needle hay : string) : bool :=
  String.prefix needle hay
  || match hay with
     | EmptyString => false
     | String _ hay' => contains needle hay'
     end.

(** Text in ASCII: every character is below 128. *)
Definition is_ascii (s : string) : bool :=
  forallb (λ c, (nat_of_ascii c <? 128)%nat) (list_ascii_of_string s).

(** ** The program *)

Section Program.
Context (config : Config) (E : Env).

(** [config.COOKIES_FILE and os.path.exists(config.COOKIES_FILE)]: the
    path when the test is truthy. *)
Definition cookies_file_found (w : World E) : option string :=
  match COOKIES_FILE config with
  | Some p =>
      if truthy_str (Some p) && path_exists E p w then Some p else None
  | None => None
  end.

(** [ydl.extract_info(url, download=False)] under [ydl_opts]. *)
Definition call_extract_info (url : string) (ydl_opts : YdlOpts)
  : M E (option Info) :=
  emit (EvExtract url ydl_opts) ;;;
  λ s, match extract_info E url ydl_opts (world s) with
       | (inl msg, w) =>
           (Raise (PyExc msg),
            {| world := w; trace := trace s; cache := cache s;
               windows := windows s |})
       | (inr info, w) =>
           (Ok info,
            {| world := w; trace := trace s; cache := cache s;
               windows := windows s |})
       end.

(** [await cache.get(key)] and [await cache.set(key, value)]. *)
Definition cache_get (k : string) : M E (option Result) :=
  emit (EvCacheGet k) ;;;
  λ s, let '(r, c) := ResultCache.get (time E (world s)) k (cache s) in
       (Ok r, {| world := world s; trace := trace s; cache := c;
                 windows := windows s |}).

Definition cache_set (k : string) (v : Result) : M E unit :=
  emit (EvCacheSet k v) ;;;
  λ s, (Ok (),
        {| world := world s; trace := trace s;
           cache := ResultCache.set (MAX_CACHE_SIZE config)
                      (time E (world s)) (CACHE_TTL config) k v (cache s);
           windows := windows s |}).

(** [await rate_limiter.check_limit(client_ip)] *)
Definition check_limit (client_ip : string) : M E bool :=
  λ s, let '(b, m) :=
         RateLimiter.check_limit (RATE_LIMIT_WINDOW config)
           (MAX_REQUESTS_PER_MINUTE config) (time E (world s)) client_ip
           (windows s) in
       (Ok b, {| world := world s; trace := trace s; cache := cache s;
                 windows := m |}).

(** [rate_limit_middleware] (lines 79-105); the timing header and the
    access log are left out. *)
Definition rate_limit_middleware (client : option string)
    (call_next : M E Response) : M E Response :=
  let client_ip := default "unknown" client in
  allowed <- check_limit client_ip ;;
  if negb allowed
  then ret (JSONResponse 429
              [("error", "Rate limit exceeded");
               ("message", "Please wait before making another request")])
  else call_next.

(** [for fmt in formats]: iterating [None] raises [TypeError]. *)
Definition iterate {A} (v : option (list A)) : M E (list A) :=
  match v with
  | Some l => ret l
  | None => raise (PyExc "'NoneType' object is not iterable")
  end.

(** [d['url']]: an absent key raises [KeyError('url')]. *)
Definition getitem_url (f : Format) : M E (option string) :=
  match fmt_url f with
  | Absent => raise (PyExc "'url'")
  | Null => ret None
  | Val u => ret (Some u)
  end.

(** [l[0]] *)
Definition first_item {A} (l : list A) : M E A :=
  match l with
  | x :: _ => ret x
  | [] => raise (PyExc "list index out of range")
  end.

(** The options bundle of [_try_audio_method] (lines 199-231). *)
Definition audio_ydl_opts (method_name : string) (kwargs : Kwargs)
    (w : World E) : YdlOpts :=
  let ydl_opts :=
    {| opt_socket_timeout := 30; opt_retries := None;
       opt_cookiefile := None; opt_proxy := None; opt_format := None;
       opt_postprocessors := None; opt_force_generic_extractor := false;
       opt_geo_bypass_country := None |} in
  let ydl_opts :=
    match (if kw_use_cookies kwargs then cookies_file_found w else None)
    with
    | Some p => set_cookiefile p ydl_opts
    | None => ydl_opts
    end in
  let ydl_opts :=
    if bool_decide (method_name = "cookies_method")
    then set_format "bestaudio/best" ydl_opts
    else if bool_decide (method_name = "mixed_format_method")
    then set_postprocessors
           [{| pp_key := "FFmpegExtractAudio"; pp_preferredcodec := "mp3";
               pp_preferredquality := "192" |}]
           (set_format "best[acodec!=none]" ydl_opts)
    else if bool_decide (method_name = "dash_method")
    then set_format "bestaudio[protocol=dash]/bestaudio" ydl_opts
    else if bool_decide (method_name = "generic_method")
    then set_format "best" (set_force_generic_extractor true ydl_opts)
    else ydl_opts in
  if truthy_str (PROXY config)
  then set_proxy (str_of (PROXY config)) ydl_opts
  else ydl_opts.

(** The ['format'] entry of the returned dict (lines 273-282). *)
Definition audio_format_info (best_format : Format) : AudioFormatInfo :=
  {| af_ext := get_default (ext best_format) "m4a";
     af_abr := get_default (abr best_format) 128;
     af_asr := get_default (asr best_format) 44100;
     af_vcodec := get_default (vcodec best_format) "none";
     af_acodec := get_default (acodec best_format) "none";
     af_filesize := get (filesize best_format);
     af_protocol := get_default (protocol best_format) "";
     af_format_note := get_default (format_note best_format) "" |}.

(** [_try_audio_method] (lines 193-288). *)
Definition _try_audio_method (url : string) (video_id : option string)
    (method_name : string) (kwargs : Kwargs) : M E Result :=
  try_except
    (emit (EvTrying method_name video_id) ;;;
     ydl_opts <- read_world (audio_ydl_opts method_name kwargs) ;;
     info <- call_extract_info url ydl_opts ;;
     match info with
     | None => ret (Error "No video info found" None)
     | Some info =>
         fs <- iterate (get_default (formats info) []) ;;
         match suitable_formats method_name fs with
         | [] =>
             ret (Error ("No suitable formats in " +:+ method_name) None)
         | (_ :: _) as suitable_fs =>
             best_format <- first_item (sort_desc audio_key suitable_fs) ;;
             stream_url <- getitem_url best_format ;;
             ret (AudioSuccess
                    {| ar_video_id := video_id;
                       ar_title := get_default (title info) "Unknown Title";
                       ar_duration := get_default (duration info) 0;
                       ar_stream_url := stream_url;
                       ar_format := audio_format_info best_format;
                       ar_method_used := method_name |})
         end
     end)
    (λ e, ret (Error (method_name +:+ ": " +:+ str_exn e) None)).

(** Methods 2 to 4 of [get_audio_stream] (lines 172-191). *)
Definition audio_fallbacks (url : string) (video_id : option string)
  : M E Result :=
  result <- _try_audio_method url video_id "mixed_format_method"
              {| kw_use_cookies := false; kw_accept_video := true;
                 kw_extract_dash := false; kw_force_generic := false |} ;;
  if is_success result then ret result else
  result <- _try_audio_method url video_id "dash_method"
              {| kw_use_cookies := false; kw_accept_video := false;
                 kw_extract_dash := true; kw_force_generic := false |} ;;
  if is_success result then ret result else
  _try_audio_method url video_id "generic_method"
    {| kw_use_cookies := false; kw_accept_video := false;
       kw_extract_dash := false; kw_force_generic := true |}.

(** [get_audio_stream] (lines 158-191). *)
Definition get_audio_stream (url : string) (use_cookies : bool)
  : M E Result :=
  let video_id := extract_video_id E url in
  found <- read_world cookies_file_found ;;
  if use_cookies && bool_decide (is_Some found)
  then
    result <- _try_audio_method url video_id "cookies_method"
                {| kw_use_cookies := true; kw_accept_video := false;
                   kw_extract_dash := false; kw_force_generic := false |} ;;
    if is_success result then ret result
    else audio_fallbacks url video_id
  else audio_fallbacks url video_id.

(** [get_ydl_options] (lines 109-156); [extractor_args] is not part of
    [YdlOpts]. *)
Definition get_ydl_options (video_type quality : string) (w : World E)
  : YdlOpts :=
  let ydl_opts := YTDLP_DEFAULT_OPTS in
  let ydl_opts :=
    match cookies_file_found w with
    | Some p => set_cookiefile p ydl_opts
    | None => ydl_opts
    end in
  let ydl_opts :=
    if truthy_str (PROXY config)
    then set_proxy (str_of (PROXY config)) ydl_opts
    else ydl_opts in
  let ydl_opts := set_geo_bypass_country "IN" ydl_opts in
  if bool_decide (video_type = "audio")
  then set_format "best[acodec!=none]" (set_postprocessors [] ydl_opts)
  else if bool_decide (video_type = "video")
  then
    if bool_decide (quality = "low")
    then set_format "best[height<=360]" ydl_opts
    else if bool_decide (quality = "medium")
    then set_format "best[height<=480]" ydl_opts
    else if bool_decide (quality = "high")
    then set_format "best[height<=720]" ydl_opts
    else set_format "best[height<=1080]/best" ydl_opts
  else ydl_opts.

(** The ['format'] entry of a video result (lines 348-355). *)
Definition video_format_info (best_video : Format) : VideoFormatInfo :=
  {| vf_ext := get_default (ext best_video) "mp4";
     vf_height := get (height best_video);
     vf_width := get (width best_video);
     vf_fps := get (fps best_video);
     vf_filesize := get (filesize best_video);
     vf_format_note := get_default (format_note best_video) "" |}.

(** The [else] branch of [get_stream_info] (lines 311-358). *)
Definition video_stream_info (url : string) (video_id : option string)
    (video_type quality : string) : M E Result :=
  ydl_opts <- read_world (get_ydl_options video_type quality) ;;
  info <- call_extract_info url ydl_opts ;;
  match info with
  | None => raise (PyExc "Could not extract video info")
  | Some info =>
      fs <- iterate (get_default (formats info) []) ;;
      match video_formats fs with
      | [] => raise (PyExc "No suitable video format found")
      | (_ :: _) as video_fs =>
          best_video <- first_item (sort_desc video_key video_fs) ;;
          stream_url <- getitem_url best_video ;;
          ret (VideoSuccess
                 {| vr_video_id := video_id;
                    vr_title := get_default (title info) "Unknown Title";
                    vr_duration := get_default (duration info) 0;
                    vr_thumbnail := get_default (thumbnail info) "";
                    vr_channel :=
                      get_default (channel info) "Unknown Channel";
                    vr_view_count := get_default (view_count info) 0;
                    vr_like_count := get_default (like_count info) 0;
                    vr_upload_date := get_default (upload_date info) "";
                    vr_stream_url := stream_url;
                    vr_format := video_format_info best_video |})
      end
  end.

(** [get_stream_info] (lines 290-372). *)
Definition get_stream_info (url video_type quality : string)
  : M E Result :=
  try_except
    (let video_id := extract_video_id E url in
     if negb (truthy_str video_id)
     then raise (PyExc "Invalid YouTube URL")
     else
       let cache_key :=
         str_of video_id +:+ ":" +:+ video_type +:+ ":" +:+ quality in
       cached_data <- cache_get cache_key ;;
       match cached_data with
       | Some cached => ret cached
       | None =>
           result <- (if bool_decide (video_type = "audio")
                      then get_audio_stream url true
                      else video_stream_info url video_id video_type
                             quality) ;;
           (if is_success result then cache_set cache_key result
            else ret ()) ;;;
           ret result
       end)
    (λ e,
       let video_id := extract_video_id E url in
       ret (Error (str_exn e)
              (Some (if truthy_str video_id then str_of video_id
                     else "unknown")))).

(** Lines 466-478 of [stream_audio]: the cached result when there is
    one and it is a success, a fresh resolution otherwise. *)
Definition cached_or_fresh_audio (url : string) (force_refresh : bool)
  : M E Result :=
  let video_id := extract_video_id E url in
  if negb force_refresh
  then
    let cache_key := "audio:" +:+ str_of video_id in
    cached_result <- cache_get cache_key ;;
    match cached_result with
    | Some cached =>
        if is_success cached then ret cached
        else get_audio_stream url true
    | None => get_audio_stream url true
    end
  else get_audio_stream url true.

(** Lines 480-491 of [stream_audio]: one retry without cookies when
    the failure message mentions them. *)
Definition retry_without_cookies (url : string) (result : Result)
  : M E Result :=
  if negb (is_success result)
  then
    result <-
      (if contains "cookies" (lower (message_of result))
       then get_audio_stream url false
       else ret result) ;;
    if negb (is_success result)
    then raise (HTTPException 500
                  ("Audio extraction failed: "
                   +:+ message_of result
                   +:+ ". Video may be age-restricted or "
                   +:+ "region-locked. Try adding cookies.txt "
                   +:+ "file."))
    else ret result
  else ret result.

(** [stream_audio] (lines 453-527). *)
Definition stream_audio (url : string) (force_refresh : bool)
  : M E Response :=
  if negb (is_valid_youtube_url E url)
  then raise (HTTPException 400 "Invalid YouTube URL")
  else
    try_except
      (let video_id := extract_video_id E url in
       result <- cached_or_fresh_audio url force_refresh ;;
       result <- retry_without_cookies url result ;;
       response <-
         match audio_response E result with
         | inl msg => raise (PyExc msg)
         | inr response => ret response
         end ;;
       (if is_success result
        then cache_set ("audio:" +:+ str_of video_id) result
        else ret ()) ;;;
       ret response)
      (λ e,
         match e with
         | HTTPException _ _ => raise e
         | PyExc msg =>
             raise (HTTPException 500 ("Audio streaming error: " +:+ msg))
         end).

(** *** The method table

    The specification (section 4.4) names the four methods
    cookie-authenticated, mixed-format, segmented-stream-audio and
    generic-fallback; [main.py] calls them ["cookies_method"],
    ["mixed_format_method"], ["dash_method"] and ["generic_method"], in
    that order. *)

Definition cookies_kwargs : Kwargs :=
  {| kw_use_cookies := true; kw_accept_video := false;
     kw_extract_dash := false; kw_force_generic := false |}.
Definition mixed_kwargs : Kwargs :=
  {| kw_use_cookies := false; kw_accept_video := true;
     kw_extract_dash := false; kw_force_generic := false |}.
Definition dash_kwargs : Kwargs :=
  {| kw_use_cookies := false; kw_accept_video := false;
     kw_extract_dash := true; kw_force_generic := false |}.
Definition generic_kwargs : Kwargs :=
  {| kw_use_cookies := false; kw_accept_video := false;
     kw_extract_dash := false; kw_force_generic := true |}.

Definition declared_methods (with_cookies : bool)
  : list (string * Kwargs) :=
  (if with_cookies then [("cookies_method", cookies_kwargs)] else [])
  ++ [("mixed_format_method", mixed_kwargs);
      ("dash_method", dash_kwargs);
      ("generic_method", generic_kwargs)].

(** The resolver as the specification words it: an ordered list of
    methods iterated with early exit; the last method's result is
    returned when none succeeds. *)
Fixpoint try_in_order (url : string) (video_id : option string)
    (m : string * Kwargs) (rest : list (string * Kwargs)) : M E Result :=
  result <- _try_audio_method url video_id m.1 m.2 ;;
  if is_success result then ret result
  else match rest with
       | [] => ret result
       | m' :: rest' => try_in_order url video_id m' rest'
       end.

End Program.

(** ** Observations on traces *)

(** The methods attempted, in order. *)
Definition attempts (tr : list Event) : list string :=
  omap (λ ev, match ev with EvTrying m _ => Some m | _ => None end) tr.

(** The options bundles handed to the external resolver, in order. *)
Definition extractions (tr : list Event) : list YdlOpts :=
  omap (λ ev, match ev with EvExtract _ o => Some o | _ => None end) tr.

(** The values written to the cache, in order. *)
Definition cache_writes (tr : list Event) : list Result :=
  omap (λ ev, match ev with EvCacheSet _ v => Some v | _ => None end) tr.


(** A computation is cache-safe when it only appends to the trace, every
    value it writes to the cache is a success, and it keeps a cache that
    holds only successes in that condition. *)
Definition cache_safe {E : Env} {A : Type} (m : M E A) : Prop :=
  ∀ s, ∃ o s' new,
    m s = (o, s')
    ∧ trace s' = trace s ++ new
    ∧ Forall (λ v, status v = "success") (cache_writes new)
    ∧ (ResultCache.only_success (cache s)
       → ResultCache.only_success (cache s')).

(** The keys looked up in the cache, in order. *)
Definition cache_reads (tr : list Event) : list string :=
  omap (λ ev, match ev with EvCacheGet k => Some k | _ => None end) tr.

(** Every event that a computation appends to the trace satisfies [P]. *)
Definition emits {E : Env} {A : Type} (P : Event → Prop) (m : M E A)
  : Prop :=
  ∀ s, ∃ new, trace (m s).2 = trace s ++ new ∧ Forall P new.

(** Every exception that a computation raises satisfies [Q]. *)
Definition throws {E : Env} {A : Type} (Q : Exn → Prop) (m : M E A)
  : Prop :=
  ∀ s e, (m s).1 = Raise e → Q e.

(** Kinds of exceptions: none at all, an [HTTPException] with one of the
    given status codes, an ordinary Python exception. *)
Definition never : Exn → Prop := λ _, False.

Definition http_error (codes : list Z) : Exn → Prop :=
  λ e, ∃ code detail, e = HTTPException code detail ∧ code ∈ codes.

Definition python_error : Exn → Prop := λ e, ∃ msg, e = PyExc msg.

(** The number of occurrences of a character in a string. *)
Fixpoint count_char (c : ascii) (s : string) : nat :=
  match s with
  | EmptyString => 0
  | String c' s' => (if bool_decide (c' = c) then 1 else 0) + count_char c s'
  end.

(** [config.PROXY] when it is truthy. *)
Definition expected_proxy (config : Config) : option string :=
  if truthy_str (PROXY config) then PROXY config else None.

(** An event other than a cache write. *)
Definition no_cache_write (ev : Event) : Prop :=
  match ev with
  | EvCacheSet _ _ => False
  | _ => True
  end.

(** A computation calls the external resolver at most [n] times. *)
Definition calls_at_most {E : Env} {A : Type} (n : nat) (m : M E A)
  : Prop :=
  ∀ s, ∃ new,
    trace (m s).2 = trace s ++ new ∧ (length (extractions new) ≤ n)%nat.

(** ** Further endpoints *)

(** [get_content_type] (lines 530-542). *)
Definition content_types : gmap string string :=
  list_to_map
    [("mp3", "audio/mpeg"); ("m4a", "audio/mp4"); ("webm", "audio/webm");
     ("ogg", "audio/ogg"); ("opus", "audio/ogg"); ("flac", "audio/flac");
     ("wav", "audio/wav"); ("aac", "audio/aac")].

Definition get_content_type (ext : string) : string :=
  default "audio/mpeg" (content_types !! lower ext).

(** [result.get('message', d)], [result.get('title', '')] and
    [result.get('video_id', '')]. *)
Definition message_or (d : string) (r : Result) : string :=
  match r with
  | Error m _ => m
  | _ => d
  end.

Definition title_of (r : Result) : option string :=
  match r with
  | AudioSuccess a => ar_title a
  | VideoSuccess v => vr_title v
  | Error _ _ => Some ""
  end.

Definition video_id_of (r : Result) : option string :=
  match r with
  | AudioSuccess a => ar_video_id a
  | VideoSuccess v => vr_video_id v
  | Error _ vid => Some (default "" vid)
  end.

(** [stream_url[:100] + "..." if len(stream_url) > 100 else stream_url];
    a string is the sequence of its characters. *)
Definition shorten_url (stream_url : string) : string :=
  if (100 <? String.length stream_url)%nat
  then String.substring 0 100 stream_url +:+ "..."
  else stream_url.

Section Endpoints.
Context (config : Config) (E : Env).

(** [youtube_utils.clean_title], of [utils]: a title or an exception
    text.  [headers_update] is [response.headers.update(...)] of the web
    framework, which may refuse a value. *)
Context (clean_title : option string → string + string).
Context (headers_update :
           Response → list (string * option string) → string + Response).

(** A call that yields a value or raises with a message. *)
Definition call {A} (v : string + A) : M E A :=
  match v with
  | inl msg => raise (PyExc msg)
  | inr a => ret a
  end.

(** [len(stream_url)] raises on [None]. *)
Definition stream_url_header (stream_url : option string) : M E string :=
  match stream_url with
  | Some u => ret (shorten_url u)
  | None => raise (PyExc "object of type 'NoneType' has no len()")
  end.

(** [stream_video] (lines 401-451). *)
Definition stream_video (url quality : string) : M E Response :=
  if negb (is_valid_youtube_url E url)
  then raise (HTTPException 400 "Invalid YouTube URL")
  else if negb (bool_decide (quality ∈ ["low"; "medium"; "high"; "best"]))
  then raise (HTTPException 400 "Invalid quality parameter")
  else
    try_except
      (result <- get_stream_info config E url "video" quality ;;
       if negb (is_success result)
       then raise (HTTPException 500 (message_or "Stream error" result))
       else
         let stream_url := stream_url_of result in
         let response := RedirectResponse stream_url 302 [] in
         video_title <- call (clean_title (title_of result)) ;;
         url_header <- stream_url_header stream_url ;;
         call (headers_update response
                 [("Accept-Ranges", Some "bytes");
                  ("Content-Type", Some "video/mp4");
                  ("Cache-Control", Some "public, max-age=7200");
                  ("Access-Control-Allow-Origin", Some "*");
                  ("Access-Control-Expose-Headers",
                   Some "Content-Length,Content-Range");
                  ("X-Video-Title", Some video_title);
                  ("X-Video-Id", video_id_of result);
                  ("X-Stream-Url", Some url_header)]))
      (λ e,
         match e with
         | HTTPException _ _ => raise e
         | PyExc msg =>
             raise (HTTPException 500 ("Streaming error: " +:+ msg))
         end).

End Endpoints.

(** ** Sample inputs *)

Module Samples.

(** An audio-only candidate with the given bitrate and sample rate. *)
Definition audio_candidate (u : string) (bitrate rate : Z) : Format :=
  {| fmt_url := Val u; acodec := Val "mp4a.40.2"; vcodec := Val "none";
     abr := Val bitrate; tbr := Absent; asr := Val rate;
     filesize := Absent; ext := Val "m4a"; protocol := Val "https";
     format_note := Absent; height := Absent; width := Absent;
     fps := Absent |}.

Definition c128 : Format := audio_candidate "https://cdn/a128" 128 44100.
Definition c192 : Format := audio_candidate "https://cdn/a192" 192 48000.

(** A combined audio+video candidate. *)
Definition combined : Format :=
  {| fmt_url := Val "https://cdn/v18"; acodec := Val "mp4a.40.2";
     vcodec := Val "avc1.42001E"; abr := Absent; tbr := Val 500;
     asr := Val 44100; filesize := Absent; ext := Val "mp4";
     protocol := Val "https"; format_note := Val "360p";
     height := Val 360; width := Val 640; fps := Val 30 |}.

(** A candidate whose [abr] entry is present and zero. *)
Definition zero_abr : Format :=
  {| fmt_url := Val "https://cdn/z"; acodec := Val "opus";
     vcodec := Val "none"; abr := Val 0; tbr := Val 500; asr := Absent;
     filesize := Absent; ext := Absent; protocol := Absent;
     format_note := Absent; height := Absent; width := Absent;
     fps := Absent |}.

(** A candidate that carries only a codec and a url. *)
Definition bare : Format :=
  {| fmt_url := Val "https://cdn/b"; acodec := Val "opus";
     vcodec := Val "none"; abr := Absent; tbr := Absent; asr := Absent;
     filesize := Absent; ext := Absent; protocol := Absent;
     format_note := Absent; height := Absent; width := Absent;
     fps := Absent |}.

Definition video_candidate (u : string) (h w : Z) : Format :=
  {| fmt_url := Val u; acodec := Val "none"; vcodec := Val "avc1.640028";
     abr := Absent; tbr := Absent; asr := Absent; filesize := Absent;
     ext := Val "mp4"; protocol := Val "https"; format_note := Absent;
     height := Val h; width := Val w; fps := Val 30 |}.

Definition v360 : Format := video_candidate "https://cdn/v360" 360 640.
Definition v1080 : Format := video_candidate "https://cdn/v1080" 1080 1920.

Definition info_with (fs : list Format) : Info :=
  {| title := Val "Sample"; duration := Val 212; formats := Val fs;
     thumbnail := Absent; channel := Absent; view_count := Absent;
     like_count := Absent; upload_date := Absent |}.

(** A resolver that answers by the format hint of the options bundle;
    the world counts the calls and serves as the clock. *)
Definition env_of (answer : option string → string + option Info) : Env :=
  {| World := nat;
     extract_info := λ _ o w, (answer (opt_format o), S w);
     path_exists := λ p _, bool_decide (p = "cookies.txt");
     time := λ w, Z.of_nat w;
     extract_video_id := λ u, Some u;
     is_valid_youtube_url := λ _, true;
     audio_response := λ _, inl "name 'hashlib' is not defined" |}.

(** Scenario A: no candidates for the cookie method, two candidates for
    the mixed-format method. *)
Definition scenario_A : Env :=
  env_of (λ hint,
    if bool_decide (hint = Some "bestaudio/best")
    then inr (Some (info_with []))
    else if bool_decide (hint = Some "best[acodec!=none]")
    then inr (Some (info_with [c128; c192]))
    else inl "unavailable").

(** Scenario C: the resolver fails for every method. *)
Definition scenario_C : Env :=
  env_of (λ hint, inl ("Sign in to confirm your age: "
                       +:+ default "" hint)).

(** The same two candidates for every method, listed in the other
    order. *)
Definition scenario_swapped : Env :=
  env_of (λ _, inr (Some (info_with [c192; c128]))).

(** The two candidates for every method, whatever the options. *)
Definition scenario_always : Env :=
  env_of (λ _, inr (Some (info_with [c128; c192]))).

Definition scenario_bare : Env :=
  env_of (λ _, inr (Some (info_with [bare]))).

Definition scenario_video : Env :=
  env_of (λ _, inr (Some (info_with [v360; v1080]))).

Definition with_cookies : Config :=
  {| RATE_LIMIT_WINDOW := 5; MAX_REQUESTS_PER_MINUTE := 15;
     COOKIES_FILE := Some "cookies.txt"; CACHE_TTL := 7200;
     MAX_CACHE_SIZE := 1000; PROXY := None |}.

Definition without_cookies : Config :=
  {| RATE_LIMIT_WINDOW := 5; MAX_REQUESTS_PER_MINUTE := 15;
     COOKIES_FILE := None; CACHE_TTL := 7200; MAX_CACHE_SIZE := 1000;
     PROXY := None |}.

Definition start (E : Env) (w : World E) : State E :=
  {| world := w; trace := []; cache := ResultCache.empty; windows := ∅ |}.

(** A success as the mixed-format method builds it from [c192], and a
    state whose cache holds it under both kinds of key. *)
Definition cached_audio : Result :=
  AudioSuccess
    {| ar_video_id := Some "abc123"; ar_title := Some "Sample";
       ar_duration := Some 212; ar_stream_url := Some "https://cdn/a192";
       ar_format :=
         {| af_ext := Some "m4a"; af_abr := Some 192; af_asr := Some 48000;
            af_vcodec := Some "none"; af_acodec := Some "mp4a.40.2";
            af_filesize := None; af_protocol := Some "https";
            af_format_note := Some "" |};
       ar_method_used := "mixed_format_method" |}.

Definition warm (E : Env) (w : World E) : State E :=
  {| world := w; trace := [];
     cache :=
       {| ResultCache.entries :=
            [{| ResultCache.key := "abc123:audio:best";
                ResultCache.value := cached_audio;
                ResultCache.created_at := 0; ResultCache.ttl := 7200 |};
             {| ResultCache.key := "audio:abc123";
                ResultCache.value := cached_audio;
                ResultCache.created_at := 0; ResultCache.ttl := 7200 |}];
          ResultCache.hits := 0; ResultCache.misses := 2 |};
     windows := ∅ |}.

(** The best-ranked candidate without a ['url'] entry, ahead of one that
    has it. *)
Definition no_url_320 : Format :=
  {| fmt_url := Absent; acodec := Val "opus"; vcodec := Val "none";
     abr := Val 320; tbr := Absent; asr := Val 48000; filesize := Absent;
     ext := Val "webm"; protocol := Val "https"; format_note := Absent;
     height := Absent; width := Absent; fps := Absent |}.

Definition scenario_no_url : Env :=
  env_of (λ _, inr (Some (info_with [c128; no_url_320]))).

(** Only video-only candidates. *)
Definition scenario_video_only : Env :=
  env_of (λ _, inr (Some (info_with [v360; v1080]))).

(** A configuration with a proxy. *)
Definition with_proxy : Config :=
  {| RATE_LIMIT_WINDOW := 5; MAX_REQUESTS_PER_MINUTE := 15;
     COOKIES_FILE := Some "cookies.txt"; CACHE_TTL := 7200;
     MAX_CACHE_SIZE := 1000; PROXY := Some "http://proxy:3128" |}.

(** An environment that accepts no url. *)
Definition scenario_invalid : Env :=
  {| World := nat;
     extract_info := λ _ _ w, (inl "unreachable", S w);
     path_exists := λ _ _, false;
     time := λ w, Z.of_nat w;
     extract_video_id := λ _, None;
     is_valid_youtube_url := λ _, false;
     audio_response := λ _, inl "name 'hashlib' is not defined" |}.

(** A resolver that always asks for cookies. *)
Definition scenario_needs_cookies : Env :=
  env_of (λ _, inl "Sign in to confirm your age. Use --cookies").

(** The same, the word in capitals. *)
Definition scenario_needs_cookies_caps : Env :=
  env_of (λ _, inl "Sign in to confirm your age. Use --COOKIES").

(** The cookie method's best candidate has no ['url'] entry; the
    mixed-format method gets the two usual candidates. *)
Definition scenario_url_less_first : Env :=
  env_of (λ hint,
    if bool_decide (hint = Some "bestaudio/best")
    then inr (Some (info_with [c128; no_url_320]))
    else if bool_decide (hint = Some "best[acodec!=none]")
    then inr (Some (info_with [c128; c192]))
    else inl "unavailable").

End Samples.

(** * Properties *)

(** ** The key order *)

Lemma key_ltb_lt (a b : Key) :
  key_ltb a b = true ↔
  a.1.1 < b.1.1
  ∨ (a.1.1 = b.1.1 ∧ (a.1.2 < b.1.2 ∨ (a.1.2 = b.1.2 ∧ a.2 < b.2))).
Proof.
  destruct a as [[a1 a2] a3], b as [[b1 b2] b3]; simpl.
  rewrite orb_true_iff, andb_true_iff, orb_true_iff, andb_true_iff.
  rewrite !Z.ltb_lt, !Z.eqb_eq. tauto.
Qed.

Lemma key_ltb_irrefl (a : Key) : key_ltb a a = false.
Proof.
  apply not_true_is_false. rewrite key_ltb_lt. lia.
Qed.

Lemma key_ltb_trans (a b c : Key) :
  key_ltb a b = true → key_ltb b c = true → key_ltb a c = true.
Proof. rewrite !key_ltb_lt. lia. Qed.

Lemma key_leb_trans (a b c : Key) :
  key_ltb b a = false → key_ltb c b = false → key_ltb c a = false.
Proof.
  intros Hab Hbc. apply not_true_is_false.
  apply not_true_iff_false in Hab, Hbc.
  rewrite key_ltb_lt in *. lia.
Qed.

Lemma key_ltb_leb_trans (a b c : Key) :
  key_ltb a b = true → key_ltb c b = false → key_ltb a c = true.
Proof.
  intros Hab Hbc. apply not_true_iff_false in Hbc.
  rewrite key_ltb_lt in *. lia.
Qed.

Lemma key_ltb_asym (a b : Key) :
  key_ltb a b = true → key_ltb b a = false.
Proof.
  intros H. apply not_true_is_false. rewrite key_ltb_lt in *. lia.
Qed.

(** ** The stable descending sort *)

Section SortFacts.
Context {A : Type} (key : A → Key).

Lemma insert_desc_perm (x : A) (l : list A) :
  insert_desc key x l ≡ₚ x :: l.
Proof.
  induction l as [|y l IH]; simpl; [done|].
  destruct (key_ltb (key x) (key y)); [|done].
  rewrite IH. apply Permutation_swap.
Qed.

Lemma sort_desc_perm (l : list A) : sort_desc key l ≡ₚ l.
Proof.
  induction l as [|x l IH]; simpl; [done|].
  by rewrite insert_desc_perm, IH.
Qed.

Lemma sort_desc_nil (l : list A) : sort_desc key l = [] → l = [].
Proof.
  intros H. apply Permutation_nil_r. rewrite <- H.
  symmetry. apply sort_desc_perm.
Qed.

Lemma descending_cons (x : A) (l : list A) :
  descending key (x :: l) ↔
  Forall (λ y, key_ltb (key x) (key y) = false) l ∧ descending key l.
Proof.
  split.
  - intros H. split.
    + apply Forall_lookup. intros j y Hy.
      apply (H 0%nat (S j) x y); [lia|done|done].
    + intros i j a b Hij Ha Hb.
      apply (H (S i) (S j) a b); [lia|done|done].
  - intros [Hx Hl] i j a b Hij Ha Hb.
    destruct j as [|j]; [lia|]. simpl in Hb.
    destruct i as [|i]; simpl in Ha.
    + inversion Ha; subst. rewrite Forall_lookup in Hx. by eapply Hx.
    + apply (Hl i j a b); [lia|done|done].
Qed.

Lemma insert_desc_descending (x : A) (l : list A) :
  descending key l → descending key (insert_desc key x l).
Proof.
  induction l as [|y l IH]; simpl; intros Hl.
  - apply descending_cons. split; [constructor|].
    intros i j a b _ Ha. by destruct i.
  - destruct (key_ltb (key x) (key y)) eqn:Hxy.
    + apply descending_cons in Hl as [Hy Hl].
      apply descending_cons. split; [|by apply IH].
      rewrite insert_desc_perm. constructor; [|done].
      by apply key_ltb_asym.
    + apply descending_cons. split; [|done].
      apply descending_cons in Hl as [Hy Hl].
      constructor; [done|].
      eapply Forall_impl; [exact Hy|]. simpl. intros z Hz.
      by apply (key_leb_trans _ (key y)).
Qed.

Lemma sort_desc_descending (l : list A) :
  descending key (sort_desc key l).
Proof.
  induction l as [|x l IH]; simpl.
  - intros i j a b _ Ha. by destruct i.
  - by apply insert_desc_descending.
Qed.

(** The head of the sorted list is the first element of the input whose
    key is maximal: everything before it is strictly smaller, nothing
    after it is larger. *)
Lemma sort_desc_head (l : list A) (b : A) :
  head (sort_desc key l) = Some b →
  ∃ l1 l2, l = l1 ++ b :: l2
           ∧ Forall (λ x, key_ltb (key x) (key b) = true) l1
           ∧ Forall (λ x, key_ltb (key b) (key x) = false) l2.
Proof.
  revert b. induction l as [|x l IH]; simpl; intros b Hb; [done|].
  destruct (sort_desc key l) as [|y r] eqn:Hs; simpl in Hb.
  - inversion Hb; subst. apply sort_desc_nil in Hs. subst.
    exists [], []. repeat split; constructor.
  - destruct (IH y eq_refl) as (l1 & l2 & -> & H1 & H2).
    destruct (key_ltb (key x) (key y)) eqn:Hxy; simpl in Hb;
      inversion Hb; subst.
    + exists (x :: l1), l2. repeat split; [by constructor|done].
    + exists [], (l1 ++ y :: l2). repeat split; [constructor|].
      apply Forall_app. split; [|constructor; [done|]].
      * eapply Forall_impl; [exact H1|]. simpl. intros z Hz.
        apply (key_leb_trans _ (key y)); [by apply key_ltb_asym|done].
      * eapply Forall_impl; [exact H2|]. simpl. intros z Hz.
        by apply (key_leb_trans _ (key y)).
Qed.

Lemma sort_desc_head_max (l : list A) (b : A) :
  head (sort_desc key l) = Some b →
  b ∈ l ∧ ∀ x, x ∈ l → key_ltb (key b) (key x) = false.
Proof.
  intros (l1 & l2 & -> & H1 & H2)%sort_desc_head. split.
  - apply elem_of_app. right. by left.
  - intros x [Hx|Hx]%elem_of_app.
    + rewrite Forall_forall in H1. by apply key_ltb_asym, H1.
    + apply elem_of_cons in Hx as [->|Hx]; [apply key_ltb_irrefl|].
      rewrite Forall_forall in H2. by apply H2.
Qed.

Lemma sort_desc_head_is_Some (l : list A) :
  l ≠ [] → is_Some (head (sort_desc key l)).
Proof.
  intros Hl. destruct (sort_desc key l) eqn:Hs; [|by eexists].
  by apply sort_desc_nil in Hs.
Qed.
End SortFacts.

(** ** One method attempt *)

Section Attempt.
Context (config : Config) (E : Env).

Local Abbreviation try_method := (_try_audio_method config E).

(** What a method returns, as a function of what the resolver said. *)
Lemma try_audio_result url vid m kw (s : State E) :
  (try_method url vid m kw s).1 =
  Ok (match (extract_info E url (audio_ydl_opts config E m kw (world s))
               (world s)).1 with
      | inl msg => Error (m +:+ ": " +:+ msg) None
      | inr None => Error "No video info found" None
      | inr (Some info) =>
          match get_default (formats info) [] with
          | None =>
              Error (m +:+ ": " +:+ "'NoneType' object is not iterable")
                None
          | Some fs =>
              match best_audio_format m fs with
              | None => Error ("No suitable formats in " +:+ m) None
              | Some best =>
                  match fmt_url best with
                  | Absent => Error (m +:+ ": " +:+ "'url'") None
                  | u =>
                      AudioSuccess
                        {| ar_video_id := vid;
                           ar_title :=
                             get_default (title info) "Unknown Title";
                           ar_duration := get_default (duration info) 0;
                           ar_stream_url := get u;
                           ar_format := audio_format_info best;
                           ar_method_used := m |}
                  end
              end
          end
      end).
Proof.
  unfold _try_audio_method, try_except, bind, emit, read_world,
    call_extract_info, bind, emit, ret. simpl.
  destruct (extract_info E url _ (world s)) as [[msg|[info|]] w];
    simpl; [done| |done].
  destruct (formats info) as [| |fs]; simpl; [|done|].
  - done.
  - unfold best_audio_format.
    destruct (suitable_formats m fs) as [|f fs'] eqn:Hsuit; simpl; [done|].
    destruct (insert_desc audio_key f (sort_desc audio_key fs'))
      as [|b r] eqn:Hsort.
    + exfalso. by apply (sort_desc_nil audio_key (f :: fs')) in Hsort.
    + simpl. unfold getitem_url, raise, ret.
      by destruct (fmt_url b).
Qed.

(** An attempt never raises; it logs itself, calls the resolver once and
    touches neither the cache nor the rate windows. *)
Lemma try_audio_run url vid m kw (s : State E) :
  ∃ r s',
    try_method url vid m kw s = (Ok r, s')
    ∧ trace s' = trace s
                 ++ [EvTrying m vid;
                     EvExtract url
                       (audio_ydl_opts config E m kw (world s))]
    ∧ world s' = (extract_info E url
                    (audio_ydl_opts config E m kw (world s)) (world s)).2
    ∧ cache s' = cache s
    ∧ windows s' = windows s.
Proof.
  unfold _try_audio_method, try_except, bind, emit, read_world,
    call_extract_info, bind, emit, ret. simpl.
  rewrite <- (assoc_L (++)). simpl.
  destruct (extract_info E url _ (world s)) as [[msg|[info|]] w];
    simpl; [by eauto 10| |by eauto 10].
  destruct (formats info) as [| |fs]; simpl; [|by eauto 10|].
  - eauto 10.
  - destruct (suitable_formats m fs) as [|f fs']; simpl; [by eauto 10|].
    destruct (insert_desc audio_key f (sort_desc audio_key fs'))
      as [|b r]; simpl; [by eauto 10|].
    unfold getitem_url, raise, ret.
    destruct (fmt_url b); simpl; eauto 10.
Qed.

(** A successful attempt reports its own method name. *)
Lemma try_audio_method_used url vid m kw (s : State E) r s' :
  try_method url vid m kw s = (Ok r, s') →
  is_success r = true →
  method_used_of r = m.
Proof.
  intros Hrun Hok.
  pose proof (try_audio_result url vid m kw s) as Hres.
  rewrite Hrun in Hres. simpl in Hres. injection Hres as Hr.
  subst r. clear Hrun.
  destruct ((extract_info E url _ (world s)).1) as [msg|[info|]];
    [done| |done].
  destruct (get_default (formats info) []) as [fs|]; [|done].
  destruct (best_audio_format m fs) as [b|]; [|done].
  by destruct (fmt_url b).
Qed.

(** A failed attempt returns an error dict without a ['video_id']. *)
Lemma try_audio_failure url vid m kw (s : State E) r s' :
  try_method url vid m kw s = (Ok r, s') →
  is_success r = false →
  ∃ msg, r = Error msg None.
Proof.
  intros Hrun Hfail.
  pose proof (try_audio_result url vid m kw s) as Hres.
  rewrite Hrun in Hres. simpl in Hres. injection Hres as Hr.
  subst r. clear Hrun.
  destruct ((extract_info E url _ (world s)).1) as [msg|[info|]];
    [by eauto| |by eauto].
  destruct (get_default (formats info) []) as [fs|]; [|by eauto].
  destruct (best_audio_format m fs) as [b|]; [|by eauto].
  destruct (fmt_url b); by eauto.
Qed.

(** When the resolver raises, the attempt fails with the method name
    and the exception text. *)
Lemma try_audio_raises url vid m kw (s : State E) msg w :
  extract_info E url (audio_ydl_opts config E m kw (world s)) (world s)
    = (inl msg, w) →
  ∃ s', try_method url vid m kw s
        = (Ok (Error (m +:+ ": " +:+ msg) None), s')
        ∧ world s' = w.
Proof.
  intros Hprobe.
  destruct (try_audio_run url vid m kw s)
    as (r & s' & Hrun & _ & Hw & _).
  pose proof (try_audio_result url vid m kw s) as Hres.
  rewrite Hrun, Hprobe in Hres. simpl in Hres. injection Hres as ->.
  rewrite Hprobe in Hw. eauto.
Qed.
End Attempt.

(** ** The audio fallback chain *)

Section Fallback.
Context (config : Config) (E : Env).

Local Abbreviation try_method := (_try_audio_method config E).

Lemma attempts_app (t1 t2 : list Event) :
  attempts (t1 ++ t2) = attempts t1 ++ attempts t2.
Proof. apply omap_app. Qed.

Lemma extractions_app (t1 t2 : list Event) :
  extractions (t1 ++ t2) = extractions t1 ++ extractions t2.
Proof. apply omap_app. Qed.

Lemma cache_writes_app (t1 t2 : list Event) :
  cache_writes (t1 ++ t2) = cache_writes t1 ++ cache_writes t2.
Proof. apply omap_app. Qed.

(** The ordered iteration never raises.  It attempts a non-empty prefix
    of its method list, in order; it stops before the end of the list
    only on a success; what it returns is what the last attempted method
    returned; it leaves the cache and the rate windows alone. *)
Lemma try_in_order_run url vid m rest (s : State E) :
  ∃ r s' n s_last,
    try_in_order config E url vid m rest s = (Ok r, s')
    ∧ (n ≤ length rest)%nat
    ∧ attempts (trace s')
      = attempts (trace s) ++ take (S n) (m.1 :: (rest.*1))
    ∧ (is_success r = false → n = length rest)
    ∧ (∃ mk, (m :: rest) !! n = Some mk
             ∧ try_method url vid mk.1 mk.2 s_last = (Ok r, s'))
    ∧ cache s' = cache s
    ∧ windows s' = windows s
    ∧ cache_writes (trace s') = cache_writes (trace s).
Proof.
  revert m s. induction rest as [|m' rest IH]; intros m s; simpl.
  - unfold bind.
    destruct (try_audio_run config E url vid m.1 m.2 s)
      as (r & s' & Hrun & Htr & _ & Hc & Hw).
    rewrite Hrun. exists r, s', 0%nat, s.
    assert (Hres : (if is_success r then ret r else ret r) s'
                   = (Ok r, s')) by by destruct (is_success r).
    rewrite Hres. rewrite Htr, attempts_app, cache_writes_app. simpl.
    rewrite (right_id_L [] (++)). eauto 10.
  - unfold bind.
    destruct (try_audio_run config E url vid m.1 m.2 s)
      as (r & s1 & Hrun & Htr & _ & Hc & Hw).
    rewrite Hrun. destruct (is_success r) eqn:Hok.
    + exists r, s1, 0%nat, s.
      rewrite Htr, attempts_app, cache_writes_app. simpl.
      rewrite (right_id_L [] (++)).
      split_and!; try done; [lia|congruence|eauto].
    + destruct (IH m' s1)
        as (r' & s' & n & s_last & Hrun' & Hn & Hatt & Hfail & Hlast
            & Hc' & Hw' & Hcw').
      exists r', s', (S n), s_last.
      rewrite Hrun', Hatt, Htr, attempts_app, Hc', Hw', Hcw', Htr,
        cache_writes_app. simpl.
      rewrite (right_id_L [] (++)), <- (assoc_L (++)). simpl.
      split_and!; try done; [lia|].
      intros Hr. by rewrite (Hfail Hr).
Qed.

(** [get_audio_stream] is the ordered iteration over the declared
    methods, the first of them left out when cookies are not in use. *)
Lemma get_audio_stream_in_order url use_cookies (s : State E) :
  get_audio_stream config E url use_cookies s =
  if use_cookies && bool_decide (is_Some (cookies_file_found config E
                                           (world s)))
  then try_in_order config E url (extract_video_id E url)
         ("cookies_method", cookies_kwargs)
         [("mixed_format_method", mixed_kwargs);
          ("dash_method", dash_kwargs);
          ("generic_method", generic_kwargs)] s
  else try_in_order config E url (extract_video_id E url)
         ("mixed_format_method", mixed_kwargs)
         [("dash_method", dash_kwargs);
          ("generic_method", generic_kwargs)] s.
Proof.
  unfold get_audio_stream, bind, read_world. simpl.
  destruct (use_cookies && _).
  - unfold audio_fallbacks, bind. simpl.
    destruct (try_method url _ "cookies_method" _ s) as [[r1|e1] s1];
      [|done].
    destruct (is_success r1); [done|].
    destruct (try_method url _ "mixed_format_method" _ s1)
      as [[r2|e2] s2]; [|done].
    destruct (is_success r2); [done|].
    destruct (try_method url _ "dash_method" _ s2) as [[r3|e3] s3];
      [|done].
    destruct (is_success r3); [done|].
    destruct (try_method url _ "generic_method" _ s3) as [[r4|e4] s4];
      [|done].
    by destruct (is_success r4).
  - unfold audio_fallbacks, bind. simpl.
    destruct (try_method url _ "mixed_format_method" _ s)
      as [[r2|e2] s2]; [|done].
    destruct (is_success r2); [done|].
    destruct (try_method url _ "dash_method" _ s2) as [[r3|e3] s3];
      [|done].
    destruct (is_success r3); [done|].
    destruct (try_method url _ "generic_method" _ s3) as [[r4|e4] s4];
      [|done].
    by destruct (is_success r4).
Qed.
End Fallback.

Section FallbackTrace.
Context (config : Config) (E : Env).

(** The first two events of an ordered iteration are the first method's
    announcement and its call to the resolver. *)
Lemma try_in_order_trace url vid m rest (s : State E) r s' :
  try_in_order config E url vid m rest s = (Ok r, s') →
  ∃ more,
    trace s' = trace s
               ++ EvTrying m.1 vid
                  :: EvExtract url
                       (audio_ydl_opts config E m.1 m.2 (world s))
                  :: more.
Proof.
  revert m s. induction rest as [|m' rest IH]; intros m s; simpl;
    unfold bind;
    destruct (try_audio_run config E url vid m.1 m.2 s)
      as (r1 & s1 & Hrun & Htr & _); rewrite Hrun.
  - assert (Hres : (if is_success r1 then ret r1 else ret r1) s1
                   = (Ok r1, s1)) by by destruct (is_success r1).
    rewrite Hres. intros [= <- <-]. exists []. by rewrite Htr.
  - destruct (is_success r1).
    + intros [= <- <-]. exists []. by rewrite Htr.
    + intros [more Hmore]%IH. rewrite Hmore, Htr, <- (assoc_L (++)).
      simpl. eauto.
Qed.
End FallbackTrace.

(** * The claims *)

(** One step of a computation whose first action's outcome is known. *)
Ltac run_bind H := unfold bind at 1; rewrite H; cbv beta iota.

Section Claims.
Context (config : Config) (E : Env).

Local Abbreviation try_method := (_try_audio_method config E).
Local Abbreviation resolve_audio := (get_audio_stream config E).

(** C1.  An audio resolution attempts the methods in the declared order
    (cookie-authenticated ["cookies_method"], mixed-format
    ["mixed_format_method"], segmented-stream-audio ["dash_method"],
    generic-fallback ["generic_method"]) and stops at the first attempt
    that returns a success, whether or not the candidates of an earlier
    method yielded a selection: [get_audio_stream] is the early-exit
    iteration over the declared list, exiting on the status of the
    result; it always returns; the methods it attempted are a
    non-empty prefix of that list, all of it when the result is a
    failure, and ending with the reported method when it is a success.
    In particular, when method 1 fails and method 2 succeeds, the result
    is method 2's, it reports ["mixed_format_method"], and methods 3 and
    4 are not attempted. *)
Theorem resolve_audio_in_declared_order url use_cookies (s : State E) :
  let vid := extract_video_id E url in
  let with_cookies :=
    use_cookies
    && bool_decide (is_Some (cookies_file_found config E (world s))) in
  let declared := declared_methods with_cookies in
  (∃ m rest,
      declared = m :: rest
      ∧ resolve_audio url use_cookies s
        = try_in_order config E url vid m rest s)
  ∧ (∃ r s' n,
        resolve_audio url use_cookies s = (Ok r, s')
        ∧ (n < length declared)%nat
        ∧ attempts (trace s')
          = attempts (trace s) ++ take (S n) (declared.*1)
        ∧ (is_success r = false → S n = length declared)
        ∧ (is_success r = true
           → declared.*1 !! n = Some (method_used_of r)))
  ∧ (∀ r1 s1 r2 s2,
        with_cookies = true →
        try_method url vid "cookies_method" cookies_kwargs s
          = (Ok r1, s1) →
        is_success r1 = false →
        try_method url vid "mixed_format_method" mixed_kwargs s1
          = (Ok r2, s2) →
        is_success r2 = true →
        resolve_audio url use_cookies s = (Ok r2, s2)
        ∧ method_used_of r2 = "mixed_format_method"
        ∧ attempts (trace s2)
          = attempts (trace s)
            ++ ["cookies_method"; "mixed_format_method"]).
Proof.
  intros vid with_cookies declared.
  assert (Heq : ∃ m rest,
             declared = m :: rest
             ∧ resolve_audio url use_cookies s
               = try_in_order config E url vid m rest s).
  { subst declared. rewrite get_audio_stream_in_order.
    fold with_cookies. destruct with_cookies; simpl; eauto. }
  split; [exact Heq|]. split.
  - destruct Heq as (m & rest & Hd & ->).
    destruct (try_in_order_run config E url vid m rest s)
      as (r & s' & n & s_last & Hrun & Hn & Hatt & Hfail & Hlast & _).
    exists r, s', n. rewrite Hd. simpl length.
    split_and!; [done|lia|done|by intros ->%Hfail|].
    intros Hok. destruct Hlast as (mk & Hmk & Hlast).
    rewrite (try_audio_method_used _ _ _ _ _ _ _ _ _ Hlast Hok).
    change ((m :: rest).*1) with (fst <$> (m :: rest)).
    by rewrite list_lookup_fmap, Hmk.
  - intros r1 s1 r2 s2 Hwc H1 Hf1 H2 Hok2.
    rewrite get_audio_stream_in_order. fold with_cookies. rewrite Hwc.
    subst vid. cbn [try_in_order fst snd].
    run_bind H1. rewrite Hf1. run_bind H2. rewrite Hok2.
    split_and!; [done|by eapply try_audio_method_used|].
    destruct (try_audio_run config E url (extract_video_id E url)
                "cookies_method" cookies_kwargs s)
      as (? & ? & Hr1 & Ht1 & _).
    destruct (try_audio_run config E url (extract_video_id E url)
                "mixed_format_method" mixed_kwargs s1)
      as (? & ? & Hr2 & Ht2 & _).
    rewrite H1 in Hr1. rewrite H2 in Hr2.
    injection Hr1 as <- <-. injection Hr2 as <- <-.
    rewrite Ht2, Ht1, !attempts_app. simpl.
    by rewrite <- (assoc_L (++)).
Qed.

(** C6.  When every method of an audio resolution fails, the result is
    a failure ([status] ["error"]) and it is the dict that the last
    method, generic-fallback ["generic_method"], returned: its message
    is that method's failure text.  Stated three ways: whenever
    [get_audio_stream] returns a failure, the failure is the generic
    method's; when the four attempts fail in turn, the result is the
    fourth attempt's; and when the resolver raises on each of the four
    calls, the message is ["generic_method: "] followed by the fourth
    exception's text. *)
Theorem all_methods_fail_reports_last url use_cookies (s : State E) :
  let vid := extract_video_id E url in
  let with_cookies :=
    use_cookies
    && bool_decide (is_Some (cookies_file_found config E (world s))) in
  let opts := audio_ydl_opts config E in
  (∃ r s',
      resolve_audio url use_cookies s = (Ok r, s')
      ∧ (is_success r = false →
         status r = "error"
         ∧ (∃ s_last,
               try_method url vid "generic_method" generic_kwargs s_last
               = (Ok r, s'))
         ∧ last (attempts (trace s')) = Some "generic_method"))
  ∧ (∀ r1 s1 r2 s2 r3 s3 r4 s4,
        with_cookies = true →
        try_method url vid "cookies_method" cookies_kwargs s
          = (Ok r1, s1) →
        is_success r1 = false →
        try_method url vid "mixed_format_method" mixed_kwargs s1
          = (Ok r2, s2) →
        is_success r2 = false →
        try_method url vid "dash_method" dash_kwargs s2 = (Ok r3, s3) →
        is_success r3 = false →
        try_method url vid "generic_method" generic_kwargs s3
          = (Ok r4, s4) →
        is_success r4 = false →
        resolve_audio url use_cookies s = (Ok r4, s4)
        ∧ status r4 = "error"
        ∧ ∃ msg, r4 = Error msg None)
  ∧ (∀ msg1 w1 msg2 w2 msg3 w3 msg4 w4,
        with_cookies = true →
        extract_info E url
          (opts "cookies_method" cookies_kwargs (world s)) (world s)
          = (inl msg1, w1) →
        extract_info E url (opts "mixed_format_method" mixed_kwargs w1) w1
          = (inl msg2, w2) →
        extract_info E url (opts "dash_method" dash_kwargs w2) w2
          = (inl msg3, w3) →
        extract_info E url (opts "generic_method" generic_kwargs w3) w3
          = (inl msg4, w4) →
        (resolve_audio url use_cookies s).1
        = Ok (Error ("generic_method: " +:+ msg4) None)).
Proof.
  intros vid with_cookies opts.
  assert (Hchain : ∀ r1 s1 r2 s2 r3 s3 r4 s4,
    with_cookies = true →
    try_method url vid "cookies_method" cookies_kwargs s = (Ok r1, s1) →
    is_success r1 = false →
    try_method url vid "mixed_format_method" mixed_kwargs s1
      = (Ok r2, s2) →
    is_success r2 = false →
    try_method url vid "dash_method" dash_kwargs s2 = (Ok r3, s3) →
    is_success r3 = false →
    try_method url vid "generic_method" generic_kwargs s3
      = (Ok r4, s4) →
    is_success r4 = false →
    resolve_audio url use_cookies s = (Ok r4, s4)
    ∧ status r4 = "error"
    ∧ ∃ msg, r4 = Error msg None).
  { intros r1 s1 r2 s2 r3 s3 r4 s4 Hwc H1 Hf1 H2 Hf2 H3 Hf3 H4 Hf4.
    rewrite get_audio_stream_in_order. fold with_cookies. rewrite Hwc.
    subst vid. cbn [try_in_order fst snd].
    run_bind H1. rewrite Hf1. run_bind H2. rewrite Hf2.
    run_bind H3. rewrite Hf3. run_bind H4. rewrite Hf4.
    split_and!; [done| |by eapply try_audio_failure].
    by destruct r4. }
  split_and!; [|exact Hchain|].
  - rewrite get_audio_stream_in_order. fold with_cookies.
    destruct with_cookies;
      [destruct (try_in_order_run config E url vid
                   ("cookies_method", cookies_kwargs)
                   [("mixed_format_method", mixed_kwargs);
                    ("dash_method", dash_kwargs);
                    ("generic_method", generic_kwargs)] s)
         as (r & s' & n & s_last & Hrun & _ & Hatt & Hfail & Hlast & _)
      |destruct (try_in_order_run config E url vid
                   ("mixed_format_method", mixed_kwargs)
                   [("dash_method", dash_kwargs);
                    ("generic_method", generic_kwargs)] s)
         as (r & s' & n & s_last & Hrun & _ & Hatt & Hfail & Hlast & _)];
      exists r, s'; (split; [exact Hrun|]); intros Hf;
      specialize (Hfail Hf); subst n;
      destruct Hlast as (mk & [= <-] & Hlast);
      (split_and!; [by destruct r|by eauto|]);
      rewrite Hatt; simpl; by rewrite last_app.
  - intros msg1 w1 msg2 w2 msg3 w3 msg4 w4 Hwc Hp1 Hp2 Hp3 Hp4.
    destruct (try_audio_raises config E url vid _ _ s _ _ Hp1)
      as (s1 & H1 & <-).
    destruct (try_audio_raises config E url vid _ _ s1 _ _ Hp2)
      as (s2 & H2 & <-).
    destruct (try_audio_raises config E url vid _ _ s2 _ _ Hp3)
      as (s3 & H3 & <-).
    destruct (try_audio_raises config E url vid _ _ s3 _ _ Hp4)
      as (s4 & H4 & <-).
    destruct (Hchain _ _ _ _ _ _ _ _ Hwc H1 eq_refl H2 eq_refl H3 eq_refl
                H4 eq_refl) as (-> & _). done.
Qed.

(** C10.  When the caller passes [use_cookies=False], or no cookies
    file is configured, or the configured file does not exist, the
    cookie-authenticated method is skipped: it is neither announced nor
    run, the resolution is exactly the three remaining methods, and the
    first call to the external resolver is the mixed-format method's,
    made without a cookie file. *)
Theorem cookie_method_skipped url use_cookies (s : State E) :
  use_cookies = false
  ∨ COOKIES_FILE config = None
  ∨ cookies_file_found config E (world s) = None →
  let vid := extract_video_id E url in
  let first_opts :=
    audio_ydl_opts config E "mixed_format_method" mixed_kwargs (world s) in
  ∃ r s' n more,
    resolve_audio url use_cookies s = (Ok r, s')
    ∧ resolve_audio url use_cookies s = audio_fallbacks config E url vid s
    ∧ trace s' = trace s
                 ++ EvTrying "mixed_format_method" vid
                    :: EvExtract url first_opts :: more
    ∧ opt_cookiefile first_opts = None
    ∧ opt_format first_opts = Some "best[acodec!=none]"
    ∧ attempts (trace s')
      = attempts (trace s)
        ++ take (S n) ["mixed_format_method"; "dash_method";
                       "generic_method"].
Proof.
  intros Hskip vid first_opts.
  assert (Hcond : use_cookies
                  && bool_decide (is_Some (cookies_file_found config E
                                             (world s))) = false).
  { destruct Hskip as [->|[Hnone|Hnone]]; [done| |].
    - unfold cookies_file_found. rewrite Hnone.
      by rewrite andb_false_r.
    - rewrite Hnone. by rewrite andb_false_r. }
  assert (Hfb : resolve_audio url use_cookies s
                = audio_fallbacks config E url vid s).
  { unfold get_audio_stream, bind, read_world. cbv beta iota.
    cbn [world]. by rewrite Hcond. }
  pose proof (get_audio_stream_in_order config E url use_cookies s)
    as Hord.
  rewrite Hcond in Hord.
  destruct (try_in_order_run config E url vid
              ("mixed_format_method", mixed_kwargs)
              [("dash_method", dash_kwargs);
               ("generic_method", generic_kwargs)] s)
    as (r & s' & n & _ & Hrun & _ & Hatt & _).
  destruct (try_in_order_trace _ _ _ _ _ _ _ _ _ Hrun) as [more Hmore].
  exists r, s', n, more.
  split_and!; [by rewrite Hord|exact Hfb|exact Hmore| | |exact Hatt].
  all: subst first_opts; unfold audio_ydl_opts; simpl.
  all: by destruct (truthy_str (PROXY config)).
Qed.

End Claims.

(** Scenario A of the specification: the cookie method finds no
    candidates, the mixed-format method finds two. *)
Lemma resolve_audio_in_declared_order_witness :
  ∃ r s2,
    get_audio_stream Samples.with_cookies Samples.scenario_A "abc123" true
      (Samples.start Samples.scenario_A 0%nat) = (Ok r, s2)
    ∧ method_used_of r = "mixed_format_method"
    ∧ attempts (trace s2) = ["cookies_method"; "mixed_format_method"].
Proof.
  destruct (resolve_audio_in_declared_order Samples.with_cookies
              Samples.scenario_A "abc123" true
              (Samples.start Samples.scenario_A 0%nat)) as (_ & _ & H).
  eexists _, _. eapply H; reflexivity.
Defined.

(** Against the reading of C1 by which the resolution stops at the first
    method whose candidate set yields a selection: the cookie method's
    candidates yield one, the candidate with bitrate 320, which has no
    ['url'] entry; the attempt fails with ["cookies_method: 'url'"] and
    the mixed-format method is attempted, whose result is returned.  The
    method it reports is the string ["mixed_format_method"], not
    ["mixed-format"]. *)
Lemma first_selection_does_not_stop_counterexample :
  let E := Samples.scenario_url_less_first in
  let s := Samples.start E 0%nat in
  ∃ info fs r s',
    (extract_info E "abc123"
       (audio_ydl_opts Samples.with_cookies E "cookies_method"
          cookies_kwargs (world s)) (world s)).1 = inr (Some info)
    ∧ get_default (formats info) [] = Some fs
    ∧ best_audio_format "cookies_method" fs = Some Samples.no_url_320
    ∧ (_try_audio_method Samples.with_cookies E "abc123" (Some "abc123")
         "cookies_method" cookies_kwargs s).1
      = Ok (Error "cookies_method: 'url'" None)
    ∧ get_audio_stream Samples.with_cookies E "abc123" true s = (Ok r, s')
    ∧ attempts (trace s') = ["cookies_method"; "mixed_format_method"]
    ∧ is_success r = true
    ∧ method_used_of r = "mixed_format_method"
    ∧ method_used_of r ≠ "mixed-format".
Proof.
  intros E s. eexists _, _, _, _.
  split_and!; [reflexivity..|discriminate].
Qed.

(** Scenario C of the specification: the resolver fails for all four
    methods. *)
Lemma all_methods_fail_reports_last_witness :
  (get_audio_stream Samples.with_cookies Samples.scenario_C "abc123" true
     (Samples.start Samples.scenario_C 0%nat)).1
  = Ok (Error "generic_method: Sign in to confirm your age: best" None).
Proof.
  destruct (all_methods_fail_reports_last Samples.with_cookies
              Samples.scenario_C "abc123" true
              (Samples.start Samples.scenario_C 0%nat)) as (_ & _ & H).
  eapply H; reflexivity.
Defined.

Lemma cookie_method_skipped_witness :
  ∃ r s',
    get_audio_stream Samples.without_cookies Samples.scenario_A "abc123"
      true (Samples.start Samples.scenario_A 0%nat) = (Ok r, s')
    ∧ head (attempts (trace s')) = Some "mixed_format_method".
Proof.
  destruct (cookie_method_skipped Samples.without_cookies Samples.scenario_A
              "abc123" true (Samples.start Samples.scenario_A 0%nat)
              (or_intror (or_introl eq_refl)))
    as (r & s' & n & more & Hrun & _ & Htr & _).
  exists r, s'. split; [exact Hrun|]. rewrite Htr. reflexivity.
Defined.

(** ** Eligibility and ranking *)

Lemma suitable_acodec (m : string) (f : Format) :
  suitable m f = not_none_codec (acodec f).
Proof.
  unfold suitable.
  destruct (bool_decide (m = "mixed_format_method")),
    (not_none_codec (acodec f)); simpl; try done.
  by rewrite orb_true_r.
Qed.

Lemma suitable_true (m : string) (f : Format) :
  suitable m f = true ↔ get (acodec f) ≠ Some "none".
Proof.
  rewrite suitable_acodec. unfold not_none_codec.
  rewrite negb_true_iff, bool_decide_eq_false. done.
Qed.

Lemma or_zero_Some (n : Z) : or_zero (Some n) = n.
Proof.
  unfold or_zero, py_or, truthy.
  destruct (Z.eqb_spec n 0) as [->|]; done.
Qed.

Lemma audio_key_explicit (x : Format) :
  audio_key x =
  (match get (abr x) with
   | Some bitrate =>
       if bitrate =? 0 then default 0 (get (tbr x)) else bitrate
   | None => default 0 (get (tbr x))
   end,
   default 0 (get (asr x)),
   default 0 (get (filesize x))).
Proof.
  unfold audio_key.
  assert (Hd : ∀ f : field Z, or_zero (get_default f 0) = default 0 (get f)).
  { intros [| |n]; simpl; [done|done|apply or_zero_Some]. }
  rewrite !Hd. f_equal. f_equal.
  assert (Ht : ∀ f : field Z,
             or_zero (py_or None (get_default f 0)) = default 0 (get f)
             ∧ or_zero (py_or (Some 0) (get_default f 0))
               = default 0 (get f)).
  { intros f. unfold py_or. simpl. by rewrite Hd. }
  destruct (abr x) as [| |n]; simpl; try apply Ht.
  unfold py_or. simpl. destruct (Z.eqb_spec n 0) as [->|Hn]; simpl.
  - apply Hd.
  - apply or_zero_Some.
Qed.



(** C4 as stated fails: with the key of the specification's wording, a
    candidate whose bitrate is present and zero ranks by that zero, but
    the code ranks it by its total bitrate and selects it. *)
Lemma fallback_only_when_absent_counterexample :
  ¬ (∀ m fs best,
       best_audio_format m fs = Some best →
       ∀ x, x ∈ suitable_formats m fs →
            key_ltb (spec_audio_key best) (spec_audio_key x) = false).
Proof.
  intros H.
  specialize (H "mixed_format_method" [Samples.zero_abr; Samples.c128]
                Samples.zero_abr eq_refl Samples.c128).
  assert (Hin : Samples.c128
                ∈ suitable_formats "mixed_format_method"
                    [Samples.zero_abr; Samples.c128]).
  { apply elem_of_cons. right. apply elem_of_cons. by left. }
  specialize (H Hin). discriminate H.
Qed.

Section Selection.
Context (config : Config) (E : Env).

Local Abbreviation try_method := (_try_audio_method config E).

Lemma best_audio_format_first_max m fs best :
  best_audio_format m fs = Some best →
  ∃ before after,
    suitable_formats m fs = before ++ best :: after
    ∧ Forall (λ x, key_ltb (audio_key x) (audio_key best) = true) before
    ∧ Forall (λ x, key_ltb (audio_key best) (audio_key x) = false) after.
Proof. apply sort_desc_head. Qed.

(** In either order, the 192 kbit/s candidate outranks the 128 one. *)
Lemma best_of_128_192 m c1 c2 fs :
  fs = [c1; c2] ∨ fs = [c2; c1] →
  abr c1 = Val 128 → asr c1 = Val 44100 →
  abr c2 = Val 192 → asr c2 = Val 48000 →
  get (acodec c1) ≠ Some "none" → get (acodec c2) ≠ Some "none" →
  best_audio_format m fs = Some c2.
Proof.
  intros Hfs Ha1 Hr1 Ha2 Hr2 Hc1 Hc2.
  apply (suitable_true m) in Hc1, Hc2.
  assert (Hlt : key_ltb (audio_key c1) (audio_key c2) = true).
  { apply key_ltb_lt. rewrite !audio_key_explicit, Ha1, Ha2. simpl. lia. }
  unfold best_audio_format, suitable_formats.
  destruct Hfs as [-> | ->]; cbn [List.filter]; rewrite Hc1, Hc2;
    cbn [sort_desc insert_desc].
  - by rewrite Hlt.
  - by rewrite (key_ltb_asym _ _ Hlt).
Qed.

(** C4, as the code has it.  For every audio method whose eligible
    candidate set is non-empty, a candidate is selected and it is the
    maximum, and the first such in candidate order, under the
    descending lexicographic order of (bitrate, falling back to the total
    bitrate when the bitrate is absent, null or zero; then sample rate;
    then file size), a missing number counting as zero.  In particular,
    given exactly the two eligible candidates (abr=128, asr=44100) and
    (abr=192, asr=48000), in either order, the abr=192 candidate is
    selected and, its url being present, the result is a success built
    from it. *)
Theorem audio_selection_is_maximum :
  (∀ m fs,
      suitable_formats m fs ≠ [] →
      ∃ best before after,
        best_audio_format m fs = Some best
        ∧ suitable_formats m fs = before ++ best :: after
        ∧ Forall (λ x, key_ltb (audio_key x) (audio_key best) = true)
            before
        ∧ Forall (λ x, key_ltb (audio_key best) (audio_key x) = false)
            after)
  ∧ (∀ x,
        audio_key x =
        (match get (abr x) with
         | Some bitrate =>
             if bitrate =? 0 then default 0 (get (tbr x)) else bitrate
         | None => default 0 (get (tbr x))
         end,
         default 0 (get (asr x)),
         default 0 (get (filesize x))))
  ∧ (∀ url vid m kw (s : State E) info c1 c2 fs u,
        (extract_info E url (audio_ydl_opts config E m kw (world s))
           (world s)).1 = inr (Some info) →
        formats info = Val fs →
        fs = [c1; c2] ∨ fs = [c2; c1] →
        abr c1 = Val 128 → asr c1 = Val 44100 →
        abr c2 = Val 192 → asr c2 = Val 48000 →
        get (acodec c1) ≠ Some "none" → get (acodec c2) ≠ Some "none" →
        fmt_url c2 = Val u →
        ∃ a,
          (try_method url vid m kw s).1 = Ok (AudioSuccess a)
          ∧ status (AudioSuccess a) = "success"
          ∧ ar_stream_url a = Some u
          ∧ ar_format a = audio_format_info c2
          ∧ af_abr (ar_format a) = Some 192
          ∧ ar_method_used a = m).
Proof.
  split_and!.
  - intros m fs Hne.
    destruct (sort_desc_head_is_Some audio_key _ Hne) as [best Hbest].
    exists best.
    destruct (best_audio_format_first_max m fs best Hbest)
      as (before & after & ? & ? & ?).
    by exists before, after.
  - apply audio_key_explicit.
  - intros url vid m kw s info c1 c2 fs u Hprobe Hfs Hord Ha1 Hr1 Ha2 Hr2
      Hc1 Hc2 Hu.
    rewrite try_audio_result, Hprobe, Hfs. simpl.
    rewrite (best_of_128_192 m c1 c2 fs Hord Ha1 Hr1 Ha2 Hr2 Hc1 Hc2), Hu.
    eexists. split_and!; try done. simpl. by rewrite Ha2.
Qed.

(** C5, as the code has it.  In a successful result the stream url and
    the file size are the chosen candidate's (an absent file size is
    null), and so are the bitrate and the sample rate whenever the
    candidate has the entry (a null stays null); an absent bitrate is
    reported as 128 and an absent sample rate as 44100, the defaults of
    lines 275-276.  The zero used for ranking is not what is reported. *)
Theorem reported_format_fields url vid m kw (s : State E) r :
  (try_method url vid m kw s).1 = Ok r →
  is_success r = true →
  ∃ a info fs best,
    r = AudioSuccess a
    ∧ (extract_info E url (audio_ydl_opts config E m kw (world s))
         (world s)).1 = inr (Some info)
    ∧ get_default (formats info) [] = Some fs
    ∧ best_audio_format m fs = Some best
    ∧ ar_stream_url a = get (fmt_url best)
    ∧ af_filesize (ar_format a) = get (filesize best)
    ∧ af_abr (ar_format a) = get_default (abr best) 128
    ∧ af_asr (ar_format a) = get_default (asr best) 44100
    ∧ (abr best ≠ Absent → af_abr (ar_format a) = get (abr best))
    ∧ (asr best ≠ Absent → af_asr (ar_format a) = get (asr best))
    ∧ (abr best = Absent → af_abr (ar_format a) = Some 128)
    ∧ (asr best = Absent → af_asr (ar_format a) = Some 44100).
Proof.
  rewrite try_audio_result. intros [= <-] Hok.
  destruct ((extract_info E url _ (world s)).1) as [msg|[info|]];
    [done| |done].
  destruct (get_default (formats info) []) as [fs|] eqn:Hfs; [|done].
  destruct (best_audio_format m fs) as [best|] eqn:Hbest; [|done].
  destruct (fmt_url best) as [| |u] eqn:Hu; [done| |];
    eexists _, info, fs, best; simpl;
    (split_and!; try done;
     [by rewrite Hu
     |intros Hne; simpl; by destruct (abr best)
     |intros Hne; simpl; by destruct (asr best)
     |intros Habs; simpl; by rewrite Habs
     |intros Habs; simpl; by rewrite Habs]).
Qed.

(** What the video branch returns, as a function of what the resolver
    said. *)
Lemma video_stream_result url vid video_type quality (s : State E) :
  (video_stream_info config E url vid video_type quality s).1 =
  match (extract_info E url
           (get_ydl_options config E video_type quality (world s))
           (world s)).1 with
  | inl msg => Raise (PyExc msg)
  | inr None => Raise (PyExc "Could not extract video info")
  | inr (Some info) =>
      match get_default (formats info) [] with
      | None => Raise (PyExc "'NoneType' object is not iterable")
      | Some fs =>
          match best_video_format fs with
          | None => Raise (PyExc "No suitable video format found")
          | Some best =>
              match fmt_url best with
              | Absent => Raise (PyExc "'url'")
              | u =>
                  Ok (VideoSuccess
                        {| vr_video_id := vid;
                           vr_title :=
                             get_default (title info) "Unknown Title";
                           vr_duration := get_default (duration info) 0;
                           vr_thumbnail := get_default (thumbnail info) "";
                           vr_channel :=
                             get_default (channel info) "Unknown Channel";
                           vr_view_count :=
                             get_default (view_count info) 0;
                           vr_like_count :=
                             get_default (like_count info) 0;
                           vr_upload_date :=
                             get_default (upload_date info) "";
                           vr_stream_url := get u;
                           vr_format := video_format_info best |})
              end
          end
      end
  end.
Proof.
  unfold video_stream_info, bind, read_world, call_extract_info, bind,
    emit, ret, raise. simpl.
  destruct (extract_info E url _ (world s)) as [[msg|[info|]] w];
    simpl; [done| |done].
  destruct (formats info) as [| |fs]; simpl; [|done|].
  - done.
  - unfold best_video_format.
    destruct (video_formats fs) as [|f fs'] eqn:Hv; simpl; [done|].
    destruct (insert_desc video_key f (sort_desc video_key fs'))
      as [|b r] eqn:Hsort.
    + exfalso. by apply (sort_desc_nil video_key (f :: fs')) in Hsort.
    + simpl. unfold getitem_url, raise, ret.
      by destruct (fmt_url b).
Qed.
End Selection.

Lemma audio_selection_is_maximum_witness :
  (∃ best before after,
      best_audio_format "dash_method" [Samples.c128; Samples.c192]
      = Some best
      ∧ suitable_formats "dash_method" [Samples.c128; Samples.c192]
        = before ++ best :: after
      ∧ Forall (λ x, key_ltb (audio_key x) (audio_key best) = true) before
      ∧ Forall (λ x, key_ltb (audio_key best) (audio_key x) = false) after)
  ∧ (∃ a,
        (_try_audio_method Samples.with_cookies Samples.scenario_swapped
           "abc123" (Some "abc123") "mixed_format_method" mixed_kwargs
           (Samples.start Samples.scenario_swapped 1%nat)).1
        = Ok (AudioSuccess a)
        ∧ status (AudioSuccess a) = "success"
        ∧ ar_stream_url a = Some "https://cdn/a192"
        ∧ ar_format a = audio_format_info Samples.c192
        ∧ af_abr (ar_format a) = Some 192
        ∧ ar_method_used a = "mixed_format_method").
Proof.
  destruct (audio_selection_is_maximum Samples.with_cookies
              Samples.scenario_swapped) as (H1 & _ & H3).
  split.
  - apply H1. discriminate.
  - eapply (H3 _ _ _ _ _ _ Samples.c128 Samples.c192);
      [reflexivity|reflexivity|by right|reflexivity|reflexivity
      |reflexivity|reflexivity|discriminate|discriminate|reflexivity].
Defined.

Lemma reported_format_fields_witness :
  ∃ a,
    (_try_audio_method Samples.with_cookies Samples.scenario_always "abc123"
       (Some "abc123") "dash_method" dash_kwargs
       (Samples.start Samples.scenario_always 0%nat)).1
    = Ok (AudioSuccess a)
    ∧ af_abr (ar_format a) = get (abr Samples.c192)
    ∧ af_asr (ar_format a) = get (asr Samples.c192)
    ∧ af_filesize (ar_format a) = None.
Proof.
  destruct (reported_format_fields Samples.with_cookies
              Samples.scenario_always "abc123" (Some "abc123") "dash_method"
              dash_kwargs (Samples.start Samples.scenario_always 0%nat)
              _ eq_refl eq_refl)
    as (a & info & fs & best & Hr & Hinfo & Hfs & Hbest & _ & Hsize & _ & _
        & Habr & Hasr & _).
  injection Hinfo as <-. injection Hfs as <-. injection Hbest as <-.
  exists a. split; [rewrite <- Hr; reflexivity|].
  split_and!; [by apply Habr|by apply Hasr|exact Hsize].
Defined.

(** C5 as stated fails: a candidate without [abr] and [asr] entries is
    reported with a bitrate of 128 and a sample rate of 44100. *)
Lemma reported_bitrate_counterexample :
  ∃ a,
    (_try_audio_method Samples.without_cookies Samples.scenario_bare
       "abc123" (Some "abc123") "mixed_format_method" mixed_kwargs
       (Samples.start Samples.scenario_bare 0%nat)).1
    = Ok (AudioSuccess a)
    ∧ af_format_note (ar_format a) = get_default (format_note Samples.bare) ""
    ∧ abr Samples.bare = Absent
    ∧ af_abr (ar_format a) = Some 128
    ∧ af_abr (ar_format a) ≠ get (abr Samples.bare)
    ∧ asr Samples.bare = Absent
    ∧ af_asr (ar_format a) = Some 44100
    ∧ af_asr (ar_format a) ≠ get (asr Samples.bare).
Proof. eexists. split; [reflexivity|]. split_and!; done. Qed.

(** C3 fails on the code.  A low-quality video request whose candidate
    set holds a 360p and a 1080p format asks the resolver for
    [best[height<=360]] and then selects the 1080p format: the selection
    of lines 332-344 sorts every video candidate by height and never
    looks at the quality tier. *)
Theorem low_quality_request_selects_1080p :
  ∃ v s',
    get_stream_info Samples.with_cookies Samples.scenario_video "abc123"
      "video" "low" (Samples.start Samples.scenario_video 0%nat)
    = (Ok (VideoSuccess v), s')
    ∧ opt_format <$> extractions (trace s') = [Some "best[height<=360]"]
    ∧ Samples.v360 ∈ video_formats [Samples.v360; Samples.v1080]
    ∧ get (height Samples.v360) = Some 360
    ∧ vf_height (vr_format v) = Some 1080
    ∧ vr_stream_url v = Some "https://cdn/v1080".
Proof.
  eexists _, _. split; [reflexivity|].
  split_and!; try done. by left.
Qed.

(** C8.  Format selection is a pure function of the candidate list and
    the method (for audio) or of the candidate list alone (for video).
    Two runs that differ in configuration, environment, url, keyword
    arguments, quality tier, clock, cache and history return the same
    result as soon as the resolver gave them the same answer; and the
    selected candidate is the first one of maximal key in candidate order,
    so ties are broken the same way every time. *)
Theorem format_selection_is_pure (config1 config2 : Config) (E1 E2 : Env)
    (url1 url2 : string) (vid : option string) (m : string)
    (kw1 kw2 : Kwargs) (type1 type2 quality1 quality2 : string)
    (s1 : State E1) (s2 : State E2) :
  ((extract_info E1 url1 (audio_ydl_opts config1 E1 m kw1 (world s1))
      (world s1)).1
   = (extract_info E2 url2 (audio_ydl_opts config2 E2 m kw2 (world s2))
        (world s2)).1 →
   (_try_audio_method config1 E1 url1 vid m kw1 s1).1
   = (_try_audio_method config2 E2 url2 vid m kw2 s2).1)
  ∧ ((extract_info E1 url1
        (get_ydl_options config1 E1 type1 quality1 (world s1)) (world s1)).1
     = (extract_info E2 url2
          (get_ydl_options config2 E2 type2 quality2 (world s2))
          (world s2)).1 →
     (video_stream_info config1 E1 url1 vid type1 quality1 s1).1
     = (video_stream_info config2 E2 url2 vid type2 quality2 s2).1)
  ∧ (∀ fs best,
        best_audio_format m fs = Some best →
        ∃ before after,
          suitable_formats m fs = before ++ best :: after
          ∧ Forall (λ x, key_ltb (audio_key x) (audio_key best) = true)
              before
          ∧ Forall (λ x, key_ltb (audio_key best) (audio_key x) = false)
              after)
  ∧ (∀ fs best,
        best_video_format fs = Some best →
        ∃ before after,
          video_formats fs = before ++ best :: after
          ∧ Forall (λ x, key_ltb (video_key x) (video_key best) = true)
              before
          ∧ Forall (λ x, key_ltb (video_key best) (video_key x) = false)
              after).
Proof.
  split_and!.
  - intros Hsame. by rewrite !try_audio_result, Hsame.
  - intros Hsame. by rewrite !video_stream_result, Hsame.
  - intros fs best. apply sort_desc_head.
  - intros fs best. apply sort_desc_head.
Qed.

Lemma format_selection_is_pure_witness :
  (_try_audio_method Samples.with_cookies Samples.scenario_A "abc123"
     (Some "abc123") "mixed_format_method" mixed_kwargs
     (Samples.start Samples.scenario_A 0%nat)).1
  = (_try_audio_method Samples.without_cookies Samples.scenario_always
       "xyz789" (Some "abc123") "mixed_format_method" no_kwargs
       (Samples.start Samples.scenario_always 7%nat)).1
  ∧ (video_stream_info Samples.with_cookies Samples.scenario_video "abc123"
       (Some "abc123") "video" "low"
       (Samples.start Samples.scenario_video 0%nat)).1
    = (video_stream_info Samples.without_cookies Samples.scenario_video
         "xyz789" (Some "abc123") "video" "best"
         (Samples.start Samples.scenario_video 7%nat)).1
  ∧ (∃ before after,
        suitable_formats "mixed_format_method" [Samples.c128; Samples.c192]
        = before ++ Samples.c192 :: after)
  ∧ (∃ before after,
        video_formats [Samples.v360; Samples.v1080]
        = before ++ Samples.v1080 :: after).
Proof.
  destruct (format_selection_is_pure Samples.with_cookies
              Samples.without_cookies Samples.scenario_A
              Samples.scenario_always "abc123" "xyz789" (Some "abc123")
              "mixed_format_method" mixed_kwargs no_kwargs "video" "video"
              "low" "best" (Samples.start Samples.scenario_A 0%nat)
              (Samples.start Samples.scenario_always 7%nat))
    as (Haudio & _ & Hfirst & _).
  destruct (format_selection_is_pure Samples.with_cookies
              Samples.without_cookies Samples.scenario_video
              Samples.scenario_video "abc123" "xyz789" (Some "abc123")
              "mixed_format_method" mixed_kwargs no_kwargs "video" "video"
              "low" "best" (Samples.start Samples.scenario_video 0%nat)
              (Samples.start Samples.scenario_video 7%nat))
    as (_ & Hvideo & _ & Hvfirst).
  split_and!.
  - apply Haudio. reflexivity.
  - apply Hvideo. reflexivity.
  - destruct (Hfirst [Samples.c128; Samples.c192] Samples.c192 eq_refl)
      as (before & after & Heq & _). by exists before, after.
  - destruct (Hvfirst [Samples.v360; Samples.v1080] Samples.v1080 eq_refl)
      as (before & after & Heq & _). by exists before, after.
Defined.

(** ** The result cache *)

Lemma cache_get_only_success now k c o c' :
  ResultCache.only_success c →
  ResultCache.get now k c = (o, c') →
  ResultCache.only_success c'
  ∧ ∀ v, o = Some v → status v = "success".
Proof.
  unfold ResultCache.only_success, ResultCache.get. intros Hc.
  destruct (ResultCache.lookup k (ResultCache.entries c)) as [e|] eqn:He.
  - apply find_some in He as [Hin _].
    destruct (ResultCache.ttl e <? now - ResultCache.created_at e);
      intros [= <- <-]; simpl; split; try done.
    + apply Forall_forall. intros x Hx.
      apply list_elem_of_In, filter_In in Hx as [Hx _].
      rewrite Forall_forall in Hc. by apply Hc, list_elem_of_In.
    + intros v [= <-]. rewrite Forall_forall in Hc.
      by apply Hc, list_elem_of_In.
  - by intros [= <- <-].
Qed.

Lemma cache_set_only_success max_entries now ttl_ k v c :
  ResultCache.only_success c →
  status v = "success" →
  ResultCache.only_success (ResultCache.set max_entries now ttl_ k v c).
Proof.
  unfold ResultCache.only_success, ResultCache.set. intros Hc Hv. simpl.
  assert (Hrem : Forall (λ e, status (ResultCache.value e) = "success")
                   (ResultCache.remove k (ResultCache.entries c))).
  { apply Forall_forall. intros x Hx.
    apply list_elem_of_In, filter_In in Hx as [Hx _].
    rewrite Forall_forall in Hc. by apply Hc, list_elem_of_In. }
  apply Forall_app. split; [|by repeat constructor].
  destruct (max_entries <=? _)%nat; [|done].
  destruct (ResultCache.remove k (ResultCache.entries c)); [done|].
  simpl. by inversion Hrem.
Qed.

(** ** Cache safety of the program *)

Section CacheSafety.
Context (config : Config) (E : Env).

Lemma safe_ret {A} (a : A) : cache_safe (ret (E:=E) a).
Proof.
  intros s. exists (Ok a), s, []. rewrite (right_id_L [] (++)).
  split_and!; try done; constructor.
Qed.

Lemma safe_raise {A} (e : Exn) : cache_safe (raise (E:=E) (A:=A) e).
Proof.
  intros s. exists (Raise e), s, []. rewrite (right_id_L [] (++)).
  split_and!; try done; constructor.
Qed.

Lemma safe_bind {A B} (m : M E A) (k : A → M E B) :
  cache_safe m → (∀ a, cache_safe (k a)) → cache_safe (bind m k).
Proof.
  intros Hm Hk s. unfold bind.
  destruct (Hm s) as (o & s1 & new1 & -> & Ht1 & Hw1 & Hc1).
  destruct o as [a|e].
  - destruct (Hk a s1) as (o & s2 & new2 & -> & Ht2 & Hw2 & Hc2).
    exists o, s2, (new1 ++ new2).
    rewrite Ht2, Ht1, (assoc_L (++)), cache_writes_app, Forall_app.
    split_and!; try done. by intros ?%Hc1%Hc2.
  - by exists (Raise e), s1, new1.
Qed.

Lemma safe_try_except {A} (m : M E A) (h : Exn → M E A) :
  cache_safe m → (∀ e, cache_safe (h e)) → cache_safe (try_except m h).
Proof.
  intros Hm Hh s. unfold try_except.
  destruct (Hm s) as (o & s1 & new1 & -> & Ht1 & Hw1 & Hc1).
  destruct o as [a|e].
  - by exists (Ok a), s1, new1.
  - destruct (Hh e s1) as (o & s2 & new2 & -> & Ht2 & Hw2 & Hc2).
    exists o, s2, (new1 ++ new2).
    rewrite Ht2, Ht1, (assoc_L (++)), cache_writes_app, Forall_app.
    split_and!; try done. by intros ?%Hc1%Hc2.
Qed.

Lemma safe_read_world {A} (f : World E → A) : cache_safe (read_world f).
Proof.
  intros s. exists (Ok (f (world s))), s, [].
  rewrite (right_id_L [] (++)). split_and!; try done; constructor.
Qed.

Lemma safe_call_extract_info url opts :
  cache_safe (call_extract_info E url opts).
Proof.
  intros s. unfold call_extract_info, bind, emit. simpl.
  destruct (extract_info E url opts (world s)) as [[msg|info] w];
    eexists _, _, [EvExtract url opts];
    (split_and!; [reflexivity|done|constructor|done]).
Qed.

Lemma safe_cache_get k : cache_safe (cache_get E k).
Proof.
  intros s. unfold cache_get, bind, emit. simpl.
  destruct (ResultCache.get (time E (world s)) k (cache s))
    as [o c] eqn:Hget.
  eexists _, _, [EvCacheGet k].
  split_and!; [reflexivity|done|constructor|]. simpl.
  intros Hc. by destruct (cache_get_only_success _ _ _ _ _ Hc Hget).
Qed.

Lemma safe_cache_set k v :
  status v = "success" → cache_safe (cache_set config E k v).
Proof.
  intros Hv s. unfold cache_set, bind, emit. simpl.
  eexists _, _, [EvCacheSet k v].
  split_and!; [reflexivity|done|by repeat constructor|]. simpl.
  intros Hc. by apply cache_set_only_success.
Qed.

(** [if result['status'] == 'success': await cache.set(key, result)] *)
Lemma safe_store_if_success k r :
  cache_safe (if is_success r then cache_set config E k r else ret ()).
Proof.
  destruct (is_success r) eqn:Hr; [|apply safe_ret].
  apply safe_cache_set. unfold is_success in Hr.
  by apply bool_decide_eq_true in Hr.
Qed.

Lemma safe_try_audio_method url vid m kw :
  cache_safe (_try_audio_method config E url vid m kw).
Proof.
  intros s.
  destruct (try_audio_run config E url vid m kw s)
    as (r & s' & Hrun & Htr & _ & Hc & _).
  exists (Ok r), s', [EvTrying m vid;
                      EvExtract url
                        (audio_ydl_opts config E m kw (world s))].
  split_and!; [done|done|constructor|by rewrite Hc].
Qed.

Lemma safe_audio_fallbacks url vid :
  cache_safe (audio_fallbacks config E url vid).
Proof.
  unfold audio_fallbacks.
  apply safe_bind; [apply safe_try_audio_method|]. intros r2.
  destruct (is_success r2); [apply safe_ret|].
  apply safe_bind; [apply safe_try_audio_method|]. intros r3.
  destruct (is_success r3); [apply safe_ret|].
  apply safe_try_audio_method.
Qed.

Lemma safe_get_audio_stream url use_cookies :
  cache_safe (get_audio_stream config E url use_cookies).
Proof.
  unfold get_audio_stream.
  apply safe_bind; [apply safe_read_world|]. intros found.
  destruct (use_cookies && _); [|apply safe_audio_fallbacks].
  apply safe_bind; [apply safe_try_audio_method|]. intros r1.
  destruct (is_success r1); [apply safe_ret|apply safe_audio_fallbacks].
Qed.

Lemma safe_video_stream_info url vid video_type quality :
  cache_safe (video_stream_info config E url vid video_type quality).
Proof.
  unfold video_stream_info.
  apply safe_bind; [apply safe_read_world|]. intros opts.
  apply safe_bind; [apply safe_call_extract_info|]. intros [info|];
    [|apply safe_raise].
  apply safe_bind.
  { unfold iterate. destruct (get_default _ _);
      [apply safe_ret|apply safe_raise]. }
  intros fs. destruct (video_formats fs) as [|f fs']; [apply safe_raise|].
  apply safe_bind.
  { unfold first_item. destruct (sort_desc _ _);
      [apply safe_raise|apply safe_ret]. }
  intros best. apply safe_bind; [|intros; apply safe_ret].
  unfold getitem_url. destruct (fmt_url best);
    [apply safe_raise|apply safe_ret|apply safe_ret].
Qed.

Lemma safe_get_stream_info url video_type quality :
  cache_safe (get_stream_info config E url video_type quality).
Proof.
  unfold get_stream_info.
  apply safe_try_except; [|intros; apply safe_ret].
  destruct (negb _); [apply safe_raise|].
  apply safe_bind; [apply safe_cache_get|]. intros [cached|];
    [apply safe_ret|].
  apply safe_bind.
  { destruct (bool_decide _);
      [apply safe_get_audio_stream|apply safe_video_stream_info]. }
  intros result.
  apply safe_bind; [apply safe_store_if_success|].
  intros; apply safe_ret.
Qed.

Lemma safe_cached_or_fresh_audio url force_refresh :
  cache_safe (cached_or_fresh_audio config E url force_refresh).
Proof.
  unfold cached_or_fresh_audio.
  destruct (negb force_refresh); [|apply safe_get_audio_stream].
  apply safe_bind; [apply safe_cache_get|]. intros [cached|];
    [|apply safe_get_audio_stream].
  destruct (is_success cached);
    [apply safe_ret|apply safe_get_audio_stream].
Qed.

Lemma safe_retry_without_cookies url result :
  cache_safe (retry_without_cookies config E url result).
Proof.
  unfold retry_without_cookies.
  destruct (negb (is_success result)); [|apply safe_ret].
  apply safe_bind.
  - destruct (contains _ _);
      [apply safe_get_audio_stream|apply safe_ret].
  - intros retried. destruct (negb (is_success retried));
      [apply safe_raise|apply safe_ret].
Qed.

Lemma safe_stream_audio url force_refresh :
  cache_safe (stream_audio config E url force_refresh).
Proof.
  unfold stream_audio.
  destruct (negb _); [apply safe_raise|].
  apply safe_try_except; [|intros []; apply safe_raise].
  apply safe_bind; [apply safe_cached_or_fresh_audio|]. intros result.
  apply safe_bind; [apply safe_retry_without_cookies|]. intros final.
  apply safe_bind.
  { destruct (audio_response E final);
      [apply safe_raise|apply safe_ret]. }
  intros response.
  apply safe_bind; [apply safe_store_if_success|].
  intros; apply safe_ret.
Qed.
End CacheSafety.

Section CacheClaims.
Context (config : Config) (E : Env).

Lemma get_stream_info_returns url video_type quality (s : State E) :
  ∃ r, (get_stream_info config E url video_type quality s).1 = Ok r.
Proof.
  unfold get_stream_info, try_except.
  match goal with |- context [match ?body s with _ => _ end] =>
    destruct (body s) as [[r|e] s1] end; simpl; eauto.
Qed.

(** C7.  Only successes are cached.  Every value that [get_stream_info]
    or [stream_audio] writes to the cache has status ["success"], so a
    cache that holds no failure (the empty cache, to begin with) never
    comes to hold one; a lookup in such a cache returns only successes,
    and that is what [get_stream_info] serves as a hit.  [stream_audio]
    moreover checks the status of what it finds: a cached failure is not
    served, the resolution runs instead. *)
Theorem only_success_is_cached url video_type quality force_refresh
    (s : State E) :
  let vid := extract_video_id E url in
  let now := time E (world s) in
  (∃ r s' new,
      get_stream_info config E url video_type quality s = (Ok r, s')
      ∧ trace s' = trace s ++ new
      ∧ Forall (λ v, status v = "success") (cache_writes new)
      ∧ (ResultCache.only_success (cache s)
         → ResultCache.only_success (cache s'))
      ∧ (∀ hit c,
            truthy_str vid = true →
            ResultCache.only_success (cache s) →
            ResultCache.get now
              (str_of vid +:+ ":" +:+ video_type +:+ ":" +:+ quality)
              (cache s) = (Some hit, c) →
            r = hit ∧ status r = "success"))
  ∧ (∃ o s' new,
        stream_audio config E url force_refresh s = (o, s')
        ∧ trace s' = trace s ++ new
        ∧ Forall (λ v, status v = "success") (cache_writes new)
        ∧ (ResultCache.only_success (cache s)
           → ResultCache.only_success (cache s')))
  ∧ (∀ hit c,
        ResultCache.get now ("audio:" +:+ str_of vid) (cache s)
          = (Some hit, c) →
        let looked_up : State E :=
          {| world := world s;
             trace := trace s ++ [EvCacheGet ("audio:" +:+ str_of vid)];
             cache := c; windows := windows s |} in
        (is_success hit = true →
         cached_or_fresh_audio config E url false s = (Ok hit, looked_up))
        ∧ (is_success hit = false →
           cached_or_fresh_audio config E url false s
           = get_audio_stream config E url true looked_up))
  ∧ (∀ k c o c',
        ResultCache.only_success c →
        ResultCache.get now k c = (o, c') →
        ResultCache.only_success c'
        ∧ ∀ v, o = Some v → status v = "success")
  ∧ ResultCache.only_success ResultCache.empty.
Proof.
  intros vid now. split_and!.
  - destruct (safe_get_stream_info config E url video_type quality s)
      as (o & s' & new & Hrun & Htr & Hw & Hc).
    destruct (get_stream_info_returns url video_type quality s)
      as [r Hr].
    rewrite Hrun in Hr. simpl in Hr. subst o.
    exists r, s', new. split_and!; try done.
    intros hit c Hvid Hinv Hget.
    destruct (cache_get_only_success _ _ _ _ _ Hinv Hget) as [_ Hhit].
    revert Hrun.
    unfold get_stream_info, try_except, bind, cache_get, bind, emit.
    fold vid. rewrite Hvid. simpl. fold now. rewrite Hget. simpl.
    intros [= <- _]. split; [done|]. by apply Hhit.
  - apply safe_stream_audio.
  - intros hit c Hget looked_up. subst looked_up.
    unfold cached_or_fresh_audio, bind, cache_get, bind, emit.
    fold vid. simpl. fold now. rewrite Hget. simpl.
    split; by intros ->.
  - intros k c o c'. apply cache_get_only_success.
  - constructor.
Qed.
End CacheClaims.

Lemma only_success_is_cached_witness :
  (∃ s',
      get_stream_info Samples.without_cookies Samples.scenario_C "abc123"
        "audio" "best" (Samples.warm Samples.scenario_C 100%nat)
      = (Ok Samples.cached_audio, s')
      ∧ ResultCache.only_success (cache s'))
  ∧ (∃ s',
        cached_or_fresh_audio Samples.without_cookies Samples.scenario_C
          "abc123" false (Samples.warm Samples.scenario_C 100%nat)
        = (Ok Samples.cached_audio, s')).
Proof.
  destruct (only_success_is_cached Samples.without_cookies
              Samples.scenario_C "abc123" "audio" "best" false
              (Samples.warm Samples.scenario_C 100%nat))
    as ((r & s' & new & Hrun & _ & _ & Hc & Hhit) & _ & Hlookup & _).
  assert (Hwarm : ResultCache.only_success
                    (cache (Samples.warm Samples.scenario_C 100%nat)))
    by (repeat constructor).
  split.
  - exists s'.
    destruct (Hhit Samples.cached_audio _ eq_refl Hwarm eq_refl) as [<- _].
    split; [exact Hrun|by apply Hc].
  - destruct (Hlookup Samples.cached_audio _ eq_refl) as [Hserved _].
    eexists. by apply Hserved.
Defined.

(** ** The rate limiter *)

Section RateLimit.
Context (window : Z) (max_requests : nat) (k : string).

Import RateLimiter.

Lemma prune_keeps_all now ts :
  Forall (λ t, now - window ≤ t) ts → prune window now ts = ts.
Proof.
  unfold prune. induction 1 as [|t ts Ht _ IH]; simpl; [done|].
  rewrite IH. by destruct (Z.leb_spec (now - window) t); [|lia].
Qed.

Lemma prune_drops_all now ts :
  Forall (λ t, t < now - window) ts → prune window now ts = [].
Proof.
  unfold prune. induction 1 as [|t ts Ht _ IH]; simpl; [done|].
  rewrite IH. by destruct (Z.leb_spec (now - window) t); [lia|].
Qed.

Lemma window_of_insert ts (m : gmap string (list Z)) :
  window_of k (<[k := ts]> m) = ts.
Proof. unfold window_of. by rewrite lookup_insert_eq. Qed.

(** While the window has room and nothing in it is stale, every check
    is accepted and recorded. *)
Lemma check_all_accepts instants (m : gmap string (list Z)) :
  (length (window_of k m) + length instants ≤ max_requests)%nat →
  (∀ t t', t ∈ window_of k m ++ instants → t' ∈ instants →
           t' - window ≤ t) →
  (check_all window max_requests k instants m).1
  = replicate (length instants) true
  ∧ window_of k (check_all window max_requests k instants m).2
    = window_of k m ++ instants
  ∧ ∀ k', k' ≠ k →
          (check_all window max_requests k instants m).2 !! k' = m !! k'.
Proof.
  revert m. induction instants as [|now rest IH]; intros m Hlen Hin.
  - simpl. by rewrite (right_id_L [] (++)).
  - simpl. unfold check_limit.
    assert (Hkeep : prune window now (window_of k m) = window_of k m).
    { apply prune_keeps_all, Forall_forall. intros t Ht.
      apply Hin; [apply elem_of_app; by left|by left]. }
    rewrite Hkeep. simpl in Hlen.
    destruct (Nat.leb_spec max_requests (length (window_of k m)));
      [lia|].
    destruct (IH (<[k := window_of k m ++ [now]]> m)) as (Hv & Hw & Ho).
    { rewrite window_of_insert, length_app. simpl. lia. }
    { rewrite window_of_insert. intros t t' Ht Ht'.
      apply Hin; [|by right].
      by rewrite <- (assoc_L (++)) in Ht. }
    destruct (check_all window max_requests k rest _) as [bs m2].
    simpl in *. rewrite Hv, Hw, window_of_insert, <- (assoc_L (++)).
    split_and!; try done.
    intros k' Hk'. rewrite (Ho k' Hk'). by rewrite lookup_insert_ne.
Qed.

(** C9.  For every client key, [max_requests] checks made within one
    window from a fresh history are all accepted and recorded; one more
    check within that window is rejected and records nothing (the
    limiter is left as it was); once the window has elapsed, a check is
    accepted again.  Other clients' windows are never touched. *)
Theorem rate_limit_window (instants : list Z) (extra later : Z)
    (m : gmap string (list Z)) :
  (0 < max_requests)%nat →
  window_of k m = [] →
  length instants = max_requests →
  (∀ t t', t ∈ instants ++ [extra] → t' ∈ instants ++ [extra] →
           t' - window ≤ t) →
  (∀ t, t ∈ instants → t < later - window) →
  let accepted := check_all window max_requests k instants m in
  let rejected := check_limit window max_requests extra k accepted.2 in
  let again := check_limit window max_requests later k rejected.2 in
  accepted.1 = replicate max_requests true
  ∧ window_of k accepted.2 = instants
  ∧ rejected.1 = false
  ∧ rejected.2 = accepted.2
  ∧ again.1 = true
  ∧ window_of k again.2 = [later]
  ∧ ∀ k', k' ≠ k → again.2 !! k' = m !! k'.
Proof.
  intros Hmax Hfresh Hlen Hnear Hfar accepted rejected again.
  destruct (check_all_accepts instants m) as (Hv & Hw & Ho).
  { rewrite Hfresh. simpl. lia. }
  { rewrite Hfresh. simpl. intros t t' Ht Ht'.
    apply Hnear; apply elem_of_app; by left. }
  fold accepted in Hv, Hw, Ho. rewrite Hfresh in Hw. simpl in Hw.
  rewrite Hlen in Hv.
  assert (Hrej : rejected = (false, accepted.2)).
  { subst rejected. unfold check_limit. rewrite Hw.
    rewrite prune_keeps_all.
    - rewrite Hlen, Nat.leb_refl. f_equal.
      apply insert_id. unfold window_of in Hw.
      destruct (accepted.2 !! k) as [ts|] eqn:Hk; simpl in Hw.
      + by rewrite Hw.
      + subst instants. simpl in Hlen. lia.
    - apply Forall_forall. intros t Ht.
      apply Hnear; apply elem_of_app; [by left|right; by left]. }
  assert (Hagain : again = (true, <[k := [later]]> accepted.2)).
  { subst again. rewrite Hrej. simpl. unfold check_limit. rewrite Hw.
    rewrite prune_drops_all; [|by apply Forall_forall].
    simpl. by destruct (Nat.leb_spec max_requests 0); [lia|]. }
  rewrite Hrej, Hagain. simpl. split_and!; try done.
  - apply window_of_insert.
  - intros k' Hk'. rewrite lookup_insert_ne; [|done]. by apply Ho.
Qed.
End RateLimit.

Lemma rate_limit_window_witness :
  let accepted :=
    RateLimiter.check_all 5 3 "10.0.0.7" [100; 101; 103] ∅ in
  let rejected := RateLimiter.check_limit 5 3 104 "10.0.0.7" accepted.2 in
  let again := RateLimiter.check_limit 5 3 110 "10.0.0.7" rejected.2 in
  accepted.1 = [true; true; true]
  ∧ rejected.1 = false
  ∧ rejected.2 = accepted.2
  ∧ again.1 = true.
Proof.
  destruct (rate_limit_window 5 3 "10.0.0.7" [100; 101; 103] 104 110 ∅)
    as (H1 & _ & H2 & H3 & H4 & _).
  - lia.
  - reflexivity.
  - reflexivity.
  - intros t t' Ht Ht'.
    repeat (apply elem_of_cons in Ht as [->|Ht]);
      repeat (apply elem_of_cons in Ht' as [->|Ht']);
      try lia; by apply elem_of_nil in Ht || by apply elem_of_nil in Ht'.
  - intros t Ht.
    repeat (apply elem_of_cons in Ht as [->|Ht]); try lia.
    by apply elem_of_nil in Ht.
  - split_and!; assumption.
Defined.

(** ** The middleware

    [rate_limit_middleware] answers 429 exactly when the limiter rejects,
    and then the request handler is not run. *)

Section Middleware.
Context (config : Config) (E : Env).

Lemma rate_limit_middleware_verdict client call_next (s : State E) :
  let verdict :=
    RateLimiter.check_limit (RATE_LIMIT_WINDOW config)
      (MAX_REQUESTS_PER_MINUTE config) (time E (world s))
      (default "unknown" client) (windows s) in
  let checked : State E :=
    {| world := world s; trace := trace s; cache := cache s;
       windows := verdict.2 |} in
  rate_limit_middleware config E client call_next s
  = if verdict.1 then call_next checked
    else (Ok (JSONResponse 429
                [("error", "Rate limit exceeded");
                 ("message", "Please wait before making another request")]),
          checked).
Proof.
  unfold rate_limit_middleware, bind, check_limit. simpl.
  destruct (RateLimiter.check_limit _ _ _ _ _) as [[|] m]; reflexivity.
Qed.
End Middleware.

(** * Further properties *)

(** ** What a computation emits and what it raises *)

Section Emits.
Context (config : Config) (E : Env).
Context (P : Event → Prop).

Lemma emits_ret {A} (a : A) : emits P (ret (E:=E) a).
Proof.
  intros s. exists []. simpl. by rewrite (right_id_L [] (++)).
Qed.

Lemma emits_raise {A} (e : Exn) : emits P (raise (E:=E) (A:=A) e).
Proof.
  intros s. exists []. simpl. by rewrite (right_id_L [] (++)).
Qed.

Lemma emits_call {A} (v : string + A) : emits P (call E v).
Proof. destruct v; [apply emits_raise|apply emits_ret]. Qed.

Lemma emits_bind {A B} (m : M E A) (k : A → M E B) :
  emits P m → (∀ a, emits P (k a)) → emits P (bind m k).
Proof.
  intros Hm Hk s. unfold bind.
  destruct (Hm s) as (new1 & Ht1 & H1).
  destruct (m s) as [[a|e] s1]; simpl in *.
  - destruct (Hk a s1) as (new2 & Ht2 & H2).
    exists (new1 ++ new2). rewrite Ht2, Ht1, (assoc_L (++)).
    split; [done|]. by apply Forall_app.
  - by exists new1.
Qed.

Lemma emits_try_except {A} (m : M E A) (h : Exn → M E A) :
  emits P m → (∀ e, emits P (h e)) → emits P (try_except m h).
Proof.
  intros Hm Hh s. unfold try_except.
  destruct (Hm s) as (new1 & Ht1 & H1).
  destruct (m s) as [[a|e] s1]; simpl in *.
  - by exists new1.
  - destruct (Hh e s1) as (new2 & Ht2 & H2).
    exists (new1 ++ new2). rewrite Ht2, Ht1, (assoc_L (++)).
    split; [done|]. by apply Forall_app.
Qed.

Lemma emits_read_world {A} (f : World E → A) : emits P (read_world f).
Proof.
  intros s. exists []. simpl. by rewrite (right_id_L [] (++)).
Qed.

Lemma emits_call_extract_info url opts :
  P (EvExtract url opts) → emits P (call_extract_info E url opts).
Proof.
  intros HP s. exists [EvExtract url opts].
  unfold call_extract_info, bind, emit. simpl.
  destruct (extract_info E url opts (world s)) as [[msg|info] w]; simpl;
    by repeat constructor.
Qed.

Lemma emits_cache_get k : P (EvCacheGet k) → emits P (cache_get E k).
Proof.
  intros HP s. exists [EvCacheGet k].
  unfold cache_get, bind, emit. simpl.
  destruct (ResultCache.get _ k (cache s)) as [o c]; simpl;
    by repeat constructor.
Qed.

Lemma emits_cache_set k v :
  P (EvCacheSet k v) → emits P (cache_set config E k v).
Proof.
  intros HP s. exists [EvCacheSet k v].
  unfold cache_set, bind, emit. simpl. by repeat constructor.
Qed.

Lemma emits_try_audio_method url vid m kw :
  P (EvTrying m vid) →
  (∀ w, P (EvExtract url (audio_ydl_opts config E m kw w))) →
  emits P (_try_audio_method config E url vid m kw).
Proof.
  intros Htry Hext s.
  destruct (try_audio_run config E url vid m kw s)
    as (r & s' & -> & Htr & _).
  eexists. split; [exact Htr|]. by repeat constructor.
Qed.

Lemma emits_bind_read_world {A B} (f : World E → A) (k : A → M E B) :
  (∀ w, emits P (k (f w))) → emits P (bind (read_world f) k).
Proof. intros Hk s. unfold bind, read_world. apply Hk. Qed.

(** The events of an audio resolution: announcements of, and resolver
    calls for, the declared methods only. *)
Lemma emits_get_audio_stream url use_cookies :
  (∀ m kw, (m, kw) ∈ declared_methods use_cookies →
           P (EvTrying m (extract_video_id E url))
           ∧ ∀ w, P (EvExtract url (audio_ydl_opts config E m kw w))) →
  emits P (get_audio_stream config E url use_cookies).
Proof.
  intros HP.
  assert (Hin : ∀ m kw,
             (m, kw) ∈ declared_methods use_cookies →
             emits P (_try_audio_method config E url
                        (extract_video_id E url) m kw)).
  { intros m kw Hm. destruct (HP m kw Hm) as [Htry Hext].
    by apply emits_try_audio_method. }
  assert (Hsub : ∀ mk, mk ∈ declared_methods false →
                       mk ∈ declared_methods use_cookies).
  { intros mk Hmk. destruct use_cookies; [by right|done]. }
  assert (Hfb : emits P (audio_fallbacks config E url
                           (extract_video_id E url))).
  { unfold audio_fallbacks.
    apply emits_bind; [apply Hin, Hsub; by left|]. intros r2.
    destruct (is_success r2); [apply emits_ret|].
    apply emits_bind; [apply Hin, Hsub; right; by left|]. intros r3.
    destruct (is_success r3); [apply emits_ret|].
    apply Hin, Hsub. right. right. by left. }
  unfold get_audio_stream.
  apply emits_bind; [apply emits_read_world|]. intros found.
  destruct use_cookies; simpl; [|exact Hfb].
  destruct (bool_decide _); [|exact Hfb].
  apply emits_bind; [apply Hin; by left|].
  intros r1. destruct (is_success r1); [apply emits_ret|exact Hfb].
Qed.

Lemma emits_video_stream_info url vid video_type quality :
  (∀ w, P (EvExtract url (get_ydl_options config E video_type quality w))) →
  emits P (video_stream_info config E url vid video_type quality).
Proof.
  intros HP. unfold video_stream_info.
  apply emits_bind_read_world. intros w.
  apply emits_bind; [by apply emits_call_extract_info|].
  intros [info|]; [|apply emits_raise].
  apply emits_bind.
  { unfold iterate. destruct (get_default _ _);
      [apply emits_ret|apply emits_raise]. }
  intros fs. destruct (video_formats fs) as [|f fs']; [apply emits_raise|].
  apply emits_bind.
  { unfold first_item. destruct (sort_desc _ _);
      [apply emits_raise|apply emits_ret]. }
  intros best. apply emits_bind; [|intros; apply emits_ret].
  unfold getitem_url. destruct (fmt_url best);
    [apply emits_raise|apply emits_ret|apply emits_ret].
Qed.

(** The events of [get_stream_info]: one cache lookup, the resolver calls
    of the branch taken, at most one cache write, all under the request's
    cache key. *)
Lemma emits_get_stream_info url video_type quality :
  let key := str_of (extract_video_id E url) +:+ ":" +:+ video_type
             +:+ ":" +:+ quality in
  P (EvCacheGet key) →
  (∀ v, status v = "success" → P (EvCacheSet key v)) →
  (video_type = "audio" →
   ∀ m kw, (m, kw) ∈ declared_methods true →
           P (EvTrying m (extract_video_id E url))
           ∧ ∀ w, P (EvExtract url (audio_ydl_opts config E m kw w))) →
  (video_type ≠ "audio" →
   ∀ w, P (EvExtract url (get_ydl_options config E video_type quality w))) →
  emits P (get_stream_info config E url video_type quality).
Proof.
  intros key Hget Hset Haudio Hvideo. unfold get_stream_info.
  apply emits_try_except; [|intros; apply emits_ret].
  destruct (negb _); [apply emits_raise|].
  apply emits_bind; [by apply emits_cache_get|]. intros [cached|];
    [apply emits_ret|].
  apply emits_bind.
  { destruct (bool_decide_reflect (video_type = "audio")) as [Hty|Hty].
    - apply emits_get_audio_stream. by apply Haudio.
    - apply emits_video_stream_info. by apply Hvideo. }
  intros result. apply emits_bind; [|intros; apply emits_ret].
  destruct (is_success result) eqn:Hok; [|apply emits_ret].
  apply emits_cache_set, Hset. unfold is_success in Hok.
  by apply bool_decide_eq_true in Hok.
Qed.

Lemma emits_cached_or_fresh_audio url force_refresh :
  (force_refresh = false →
   P (EvCacheGet ("audio:" +:+ str_of (extract_video_id E url)))) →
  (∀ m kw, (m, kw) ∈ declared_methods true →
           P (EvTrying m (extract_video_id E url))
           ∧ ∀ w, P (EvExtract url (audio_ydl_opts config E m kw w))) →
  emits P (cached_or_fresh_audio config E url force_refresh).
Proof.
  intros Hget HP. unfold cached_or_fresh_audio.
  pose proof (emits_get_audio_stream url true HP) as Hfresh.
  destruct force_refresh; simpl; [exact Hfresh|].
  apply emits_bind; [by apply emits_cache_get, Hget|].
  intros [cached|]; [|exact Hfresh].
  destruct (is_success cached); [apply emits_ret|exact Hfresh].
Qed.

Lemma emits_retry_without_cookies url result :
  (∀ m kw, (m, kw) ∈ declared_methods false →
           P (EvTrying m (extract_video_id E url))
           ∧ ∀ w, P (EvExtract url (audio_ydl_opts config E m kw w))) →
  emits P (retry_without_cookies config E url result).
Proof.
  intros HP. unfold retry_without_cookies.
  destruct (negb (is_success result)); [|apply emits_ret].
  apply emits_bind.
  - destruct (contains _ _);
      [by apply emits_get_audio_stream|apply emits_ret].
  - intros retried. destruct (negb (is_success retried));
      [apply emits_raise|apply emits_ret].
Qed.

Lemma emits_stream_audio url force_refresh :
  let key := "audio:" +:+ str_of (extract_video_id E url) in
  (force_refresh = false → P (EvCacheGet key)) →
  (∀ v, status v = "success" → P (EvCacheSet key v)) →
  (∀ m kw, (m, kw) ∈ declared_methods true →
           P (EvTrying m (extract_video_id E url))
           ∧ ∀ w, P (EvExtract url (audio_ydl_opts config E m kw w))) →
  emits P (stream_audio config E url force_refresh).
Proof.
  intros key Hget Hset HP. unfold stream_audio.
  destruct (negb _); [apply emits_raise|].
  apply emits_try_except; [|intros []; apply emits_raise].
  apply emits_bind; [by apply emits_cached_or_fresh_audio|].
  intros result.
  apply emits_bind.
  { apply emits_retry_without_cookies. intros m kw Hm.
    apply HP. by right. }
  intros final. apply emits_bind.
  { destruct (audio_response E final);
      [apply emits_raise|apply emits_ret]. }
  intros response. apply emits_bind; [|intros; apply emits_ret].
  destruct (is_success final) eqn:Hok; [|apply emits_ret].
  apply emits_cache_set, Hset. unfold is_success in Hok.
  by apply bool_decide_eq_true in Hok.
Qed.
End Emits.

Section Throws.
Context (config : Config) (E : Env).

Lemma throws_ret {A} Q (a : A) : throws Q (ret (E:=E) a).
Proof. by intros s e. Qed.

Lemma throws_raise {A} (Q : Exn → Prop) e :
  Q e → throws Q (raise (E:=E) (A:=A) e).
Proof. intros HQ s e' [= <-]. exact HQ. Qed.

Lemma throws_weaken {A} (Q Q' : Exn → Prop) (m : M E A) :
  (∀ e, Q e → Q' e) → throws Q m → throws Q' m.
Proof. intros HQ Hm s e He. by apply HQ, (Hm s). Qed.

Lemma throws_bind {A B} Q (m : M E A) (k : A → M E B) :
  throws Q m → (∀ a, throws Q (k a)) → throws Q (bind m k).
Proof.
  intros Hm Hk s e. unfold bind. specialize (Hm s).
  destruct (m s) as [[a|e1] s1]; simpl in *.
  - apply Hk.
  - intros [= <-]. by apply Hm.
Qed.

Lemma throws_try_except {A} Q Q' (m : M E A) (h : Exn → M E A) :
  throws Q' m → (∀ e, Q' e → throws Q (h e)) → throws Q (try_except m h).
Proof.
  intros Hm Hh s e. unfold try_except. specialize (Hm s).
  destruct (m s) as [[a|e1] s1]; simpl in *; [done|].
  apply Hh. by apply Hm.
Qed.

Lemma throws_call {A} (v : string + A) : throws python_error (call E v).
Proof.
  destruct v as [msg|a]; [|apply throws_ret].
  apply throws_raise. by exists msg.
Qed.

Lemma never_read_world {A} (f : World E → A) : throws never (read_world f).
Proof. by intros s e. Qed.

Lemma never_cache_get k : throws never (cache_get E k).
Proof.
  intros s e. unfold cache_get, bind, emit. simpl.
  by destruct (ResultCache.get _ k (cache s)).
Qed.

Lemma never_cache_set k v : throws never (cache_set config E k v).
Proof. by intros s e. Qed.

Lemma never_try_audio_method url vid m kw :
  throws never (_try_audio_method config E url vid m kw).
Proof.
  intros s e.
  destruct (try_audio_run config E url vid m kw s) as (r & s' & -> & _).
  done.
Qed.

Lemma never_audio_fallbacks url vid :
  throws never (audio_fallbacks config E url vid).
Proof.
  unfold audio_fallbacks.
  apply throws_bind; [apply never_try_audio_method|]. intros r2.
  destruct (is_success r2); [apply throws_ret|].
  apply throws_bind; [apply never_try_audio_method|]. intros r3.
  destruct (is_success r3); [apply throws_ret|].
  apply never_try_audio_method.
Qed.

Lemma never_get_audio_stream url use_cookies :
  throws never (get_audio_stream config E url use_cookies).
Proof.
  unfold get_audio_stream.
  apply throws_bind; [apply never_read_world|]. intros found.
  destruct (use_cookies && _); [|apply never_audio_fallbacks].
  apply throws_bind; [apply never_try_audio_method|]. intros r1.
  destruct (is_success r1); [apply throws_ret|apply never_audio_fallbacks].
Qed.

Lemma never_get_stream_info url video_type quality :
  throws never (get_stream_info config E url video_type quality).
Proof.
  intros s e He.
  destruct (get_stream_info_returns config E url video_type quality s)
    as [r Hr].
  congruence.
Qed.

Lemma never_cached_or_fresh_audio url force_refresh :
  throws never (cached_or_fresh_audio config E url force_refresh).
Proof.
  unfold cached_or_fresh_audio.
  destruct (negb force_refresh); [|apply never_get_audio_stream].
  apply throws_bind; [apply never_cache_get|]. intros [cached|];
    [|apply never_get_audio_stream].
  destruct (is_success cached);
    [apply throws_ret|apply never_get_audio_stream].
Qed.

Lemma throws_retry_without_cookies url result :
  throws (http_error [500]) (retry_without_cookies config E url result).
Proof.
  unfold retry_without_cookies.
  destruct (negb (is_success result)); [|apply throws_ret].
  apply throws_bind.
  - apply (throws_weaken never); [intros e He; destruct He|].
    destruct (contains _ _);
      [apply never_get_audio_stream|apply throws_ret].
  - intros retried. destruct (negb (is_success retried));
      [|apply throws_ret].
    apply throws_raise. eexists _, _. split; [done|by left].
Qed.
End Throws.

(** ** Selection *)

Lemma not_none_codec_true (c : field string) :
  not_none_codec c = true ↔ get c ≠ Some "none".
Proof.
  unfold not_none_codec. by rewrite negb_true_iff, bool_decide_eq_false.
Qed.

Lemma not_none_codec_false (c : field string) :
  not_none_codec c = false ↔ get c = Some "none".
Proof.
  unfold not_none_codec. by rewrite negb_false_iff, bool_decide_eq_true.
Qed.

Lemma filter_nil_iff {A} (p : A → bool) (l : list A) :
  List.filter p l = [] ↔ ∀ x, x ∈ l → p x = false.
Proof.
  induction l as [|a l IH]; simpl.
  - split; [|done]. intros _ x Hx. by apply elem_of_nil in Hx.
  - destruct (p a) eqn:Ha.
    + split; [done|]. intros H. specialize (H a). rewrite Ha in H.
      discriminate H. by left.
    + rewrite IH. split.
      * intros H x [->|Hx]%elem_of_cons; [done|by apply H].
      * intros H x Hx. apply H. by right.
Qed.

Lemma elem_of_filter_bool {A} (p : A → bool) (l : list A) (x : A) :
  x ∈ List.filter p l ↔ x ∈ l ∧ p x = true.
Proof. rewrite !list_elem_of_In. apply filter_In. Qed.

Lemma head_sort_desc_None {A} (key : A → Key) (l : list A) :
  head (sort_desc key l) = None ↔ l = [].
Proof.
  split; [|by intros ->].
  destruct (sort_desc key l) eqn:Hs; [|done].
  intros _. by apply (sort_desc_nil key).
Qed.

(** Keys are totally ordered: two keys neither of which is below the
    other are equal. *)
Lemma key_ltb_total (a b : Key) :
  key_ltb a b = false → key_ltb b a = false → a = b.
Proof.
  intros Hab Hba. apply not_true_iff_false in Hab, Hba.
  rewrite key_ltb_lt in *.
  destruct a as [[a1 a2] a3], b as [[b1 b2] b3]; simpl in *.
  repeat f_equal; lia.
Qed.

(** X1.  The video format that [get_stream_info] selects is one of the
    resolver's candidates, has a video codec other than ["none"], and no
    candidate with a video codec has a larger (height, width, fps); there
    is no selection exactly when every candidate's video codec is
    ["none"] (an empty list included). *)
Theorem video_selection_sound (fs : list Format) :
  (∀ best,
      best_video_format fs = Some best →
      best ∈ fs
      ∧ get (vcodec best) ≠ Some "none"
      ∧ ∀ x, x ∈ fs → get (vcodec x) ≠ Some "none" →
             key_ltb (video_key best) (video_key x) = false)
  ∧ (best_video_format fs = None
     ↔ ∀ x, x ∈ fs → get (vcodec x) = Some "none").
Proof.
  unfold best_video_format, video_formats. split.
  - intros best [Hin Hmax]%sort_desc_head_max.
    apply elem_of_filter_bool in Hin as [Hin Hv].
    split_and!; [done|by apply not_none_codec_true|].
    intros x Hx Hvx. apply Hmax, elem_of_filter_bool.
    split; [done|by apply not_none_codec_true].
  - rewrite head_sort_desc_None, filter_nil_iff.
    by setoid_rewrite not_none_codec_false.
Qed.

Lemma video_selection_sound_witness :
  Samples.v1080 ∈ [Samples.v360; Samples.v1080]
  ∧ get (vcodec Samples.v1080) ≠ Some "none"
  ∧ key_ltb (video_key Samples.v1080) (video_key Samples.v360) = false.
Proof.
  destruct (video_selection_sound [Samples.v360; Samples.v1080])
    as [H _].
  destruct (H Samples.v1080 eq_refl) as (Hin & Hv & Hmax).
  split_and!; [exact Hin|exact Hv|].
  apply Hmax; [by left|discriminate].
Defined.

(** X2.  The audio format that a method selects is one of the resolver's
    candidates and has an audio codec other than ["none"]; there is no
    selection exactly when every candidate's audio codec is ["none"];
    and the selection is the same for every method name. *)
Theorem audio_selection_sound (m m' : string) (fs : list Format) :
  (∀ best,
      best_audio_format m fs = Some best →
      best ∈ fs ∧ get (acodec best) ≠ Some "none")
  ∧ (best_audio_format m fs = None
     ↔ ∀ x, x ∈ fs → get (acodec x) = Some "none")
  ∧ best_audio_format m fs = best_audio_format m' fs.
Proof.
  unfold best_audio_format, suitable_formats. split_and!.
  - intros best [Hin _]%sort_desc_head_max.
    apply elem_of_filter_bool in Hin as [Hin Hs].
    split; [done|]. by apply (suitable_true m).
  - rewrite head_sort_desc_None, filter_nil_iff.
    setoid_rewrite suitable_acodec.
    by setoid_rewrite not_none_codec_false.
  - do 2 f_equal. apply filter_ext. intros x.
    by rewrite !suitable_acodec.
Qed.

Lemma audio_selection_sound_witness :
  Samples.c192 ∈ [Samples.c128; Samples.c192; Samples.v1080]
  ∧ get (acodec Samples.c192) ≠ Some "none".
Proof.
  destruct (audio_selection_sound "dash_method" "generic_method"
              [Samples.c128; Samples.c192; Samples.v1080]) as [H _].
  exact (H Samples.c192 eq_refl).
Defined.

(** X3.  When no two eligible candidates have the same ranking key, the
    audio selection does not depend on the order in which the resolver
    lists the candidates. *)
Theorem audio_selection_order_independent (m : string)
    (fs fs' : list Format) :
  fs ≡ₚ fs' →
  (∀ x y, x ∈ suitable_formats m fs → y ∈ suitable_formats m fs →
          audio_key x = audio_key y → x = y) →
  best_audio_format m fs = best_audio_format m fs'.
Proof.
  intros Hperm Hinj.
  assert (Hmem : ∀ x, x ∈ suitable_formats m fs'
                      ↔ x ∈ suitable_formats m fs).
  { intros x. unfold suitable_formats. rewrite !elem_of_filter_bool.
    by rewrite Hperm. }
  unfold best_audio_format.
  destruct (head (sort_desc audio_key (suitable_formats m fs)))
    as [b|] eqn:Hb,
    (head (sort_desc audio_key (suitable_formats m fs')))
    as [b'|] eqn:Hb'.
  - apply sort_desc_head_max in Hb as [Hin Hmax].
    apply sort_desc_head_max in Hb' as [Hin' Hmax'].
    apply Hmem in Hin'. f_equal. apply Hinj; [done|done|].
    apply key_ltb_total; [apply Hmax|apply Hmax', Hmem]; done.
  - apply sort_desc_head_max in Hb as [Hin _].
    apply head_sort_desc_None in Hb'. apply Hmem in Hin.
    rewrite Hb' in Hin. by apply elem_of_nil in Hin.
  - apply sort_desc_head_max in Hb' as [Hin _].
    apply head_sort_desc_None in Hb. apply Hmem in Hin.
    rewrite Hb in Hin. by apply elem_of_nil in Hin.
  - done.
Qed.

Lemma audio_selection_order_independent_witness :
  best_audio_format "mixed_format_method"
    [Samples.c128; Samples.combined; Samples.c192]
  = best_audio_format "mixed_format_method"
      [Samples.c192; Samples.c128; Samples.combined].
Proof.
  apply audio_selection_order_independent.
  - exact (Permutation_app_comm [Samples.c128; Samples.combined]
             [Samples.c192]).
  - intros x y Hx Hy.
    repeat (apply elem_of_cons in Hx as [->|Hx]);
      repeat (apply elem_of_cons in Hy as [->|Hy]);
      try done; try discriminate;
      by apply elem_of_nil in Hx || by apply elem_of_nil in Hy.
Defined.

Lemma video_selection_none (fs : list Format) :
  best_video_format fs = None
  ↔ ∀ x, x ∈ fs → get (vcodec x) = Some "none".
Proof.
  unfold best_video_format, video_formats.
  rewrite head_sort_desc_None, filter_nil_iff.
  by setoid_rewrite not_none_codec_false.
Qed.

(** ** Failures of one method *)

Lemma string_length_app (a b : string) :
  String.length (a +:+ b) = (String.length a + String.length b)%nat.
Proof. induction a as [|c a IH]; simpl; [done|by rewrite IH]. Qed.

Lemma best_audio_format_None (m : string) (fs : list Format) :
  best_audio_format m fs = None
  ↔ ∀ x, x ∈ fs → get (acodec x) = Some "none".
Proof.
  unfold best_audio_format, suitable_formats.
  rewrite head_sort_desc_None, filter_nil_iff.
  setoid_rewrite suitable_acodec.
  by setoid_rewrite not_none_codec_false.
Qed.

Section MethodFailures.
Context (config : Config) (E : Env).

Local Abbreviation try_method := (_try_audio_method config E).

(** X4.  Given a metadata document whose candidate list can be iterated,
    a method fails with ["No suitable formats in <method>"] exactly when
    every candidate's audio codec is ["none"] (an absent or empty list
    included). *)
Theorem no_suitable_formats_iff url vid m kw (s : State E) info fs :
  (extract_info E url (audio_ydl_opts config E m kw (world s))
     (world s)).1 = inr (Some info) →
  get_default (formats info) [] = Some fs →
  (try_method url vid m kw s).1
  = Ok (Error ("No suitable formats in " +:+ m) None)
  ↔ ∀ x, x ∈ fs → get (acodec x) = Some "none".
Proof.
  intros Hprobe Hfs. rewrite try_audio_result, Hprobe, Hfs.
  rewrite <- (best_audio_format_None m).
  destruct (best_audio_format m fs) as [b|]; [|by split].
  split; [|by intros ?].
  destruct (fmt_url b); [|by intros ?|by intros ?].
  intros [= Heq]. apply (f_equal String.length) in Heq.
  rewrite !string_length_app in Heq. simpl in Heq. lia.
Qed.

(** X5.  The stream url is read from the best-ranked candidate only.
    When that candidate has no ['url'] entry the method fails with
    ["<method>: 'url'"], whatever urls the other candidates carry; when
    the entry is null the method succeeds with a null stream url; when
    it holds a url the method succeeds with that url. *)
Theorem url_of_best_candidate_only url vid m kw (s : State E) info fs best :
  (extract_info E url (audio_ydl_opts config E m kw (world s))
     (world s)).1 = inr (Some info) →
  get_default (formats info) [] = Some fs →
  best_audio_format m fs = Some best →
  (fmt_url best = Absent →
   (try_method url vid m kw s).1 = Ok (Error (m +:+ ": 'url'") None))
  ∧ (fmt_url best ≠ Absent →
     ∃ a, (try_method url vid m kw s).1 = Ok (AudioSuccess a)
          ∧ ar_stream_url a = get (fmt_url best)
          ∧ ar_format a = audio_format_info best).
Proof.
  intros Hprobe Hfs Hbest. rewrite try_audio_result, Hprobe, Hfs, Hbest.
  split.
  - by intros ->.
  - intros Hu. destruct (fmt_url best); [done| |]; by eexists.
Qed.

(** X6.  Whatever the resolver does, a method attempt, the audio
    resolution and [get_stream_info] return a result and raise nothing.
    A failed attempt's message is ["No video info found"],
    ["No suitable formats in <method>"], or ["<method>: "] followed by
    the text of the exception that was caught. *)
Theorem resolution_never_raises url use_cookies video_type quality vid m kw
    (s : State E) :
  (∃ r s',
      try_method url vid m kw s = (Ok r, s')
      ∧ (is_success r = false →
         ∃ msg, r = Error msg None
                ∧ (msg = "No video info found"
                   ∨ msg = "No suitable formats in " +:+ m
                   ∨ ∃ text, msg = m +:+ ": " +:+ text)))
  ∧ (∃ r s', get_audio_stream config E url use_cookies s = (Ok r, s'))
  ∧ (∃ r s',
        get_stream_info config E url video_type quality s = (Ok r, s')).
Proof.
  split_and!.
  - destruct (try_audio_run config E url vid m kw s)
      as (r & s' & Hrun & _).
    exists r, s'. split; [done|].
    pose proof (try_audio_result config E url vid m kw s) as Hres.
    rewrite Hrun in Hres. simpl in Hres. injection Hres as ->.
    destruct ((extract_info E url _ (world s)).1) as [msg|[info|]];
      [by eauto 10| |by eauto 10].
    destruct (get_default (formats info) []) as [fs|]; [|by eauto 10].
    destruct (best_audio_format m fs) as [b|]; [|by eauto 10].
    destruct (fmt_url b); [by eauto 10|done|done].
  - pose proof (never_get_audio_stream config E url use_cookies s) as Hn.
    destruct (get_audio_stream config E url use_cookies s)
      as [[r|e] s']; [by eauto|]. by destruct (Hn e).
  - pose proof (never_get_stream_info config E url video_type quality s)
      as Hn.
    destruct (get_stream_info config E url video_type quality s)
      as [[r|e] s']; [by eauto|]. by destruct (Hn e).
Qed.
End MethodFailures.

Lemma no_suitable_formats_iff_witness :
  (_try_audio_method Samples.with_cookies Samples.scenario_video_only
     "abc123" (Some "abc123") "dash_method" dash_kwargs
     (Samples.start Samples.scenario_video_only 0%nat)).1
  = Ok (Error "No suitable formats in dash_method" None).
Proof.
  apply (no_suitable_formats_iff Samples.with_cookies
           Samples.scenario_video_only "abc123" (Some "abc123")
           "dash_method" dash_kwargs
           (Samples.start Samples.scenario_video_only 0%nat)
           (Samples.info_with [Samples.v360; Samples.v1080])
           [Samples.v360; Samples.v1080] eq_refl eq_refl).
  intros x Hx.
  repeat (apply elem_of_cons in Hx as [->|Hx]); try done.
  by apply elem_of_nil in Hx.
Defined.

Lemma url_of_best_candidate_only_witness :
  (_try_audio_method Samples.with_cookies Samples.scenario_no_url "abc123"
     (Some "abc123") "mixed_format_method" mixed_kwargs
     (Samples.start Samples.scenario_no_url 0%nat)).1
  = Ok (Error "mixed_format_method: 'url'" None)
  ∧ fmt_url Samples.c128 = Val "https://cdn/a128".
Proof.
  split; [|reflexivity].
  apply (url_of_best_candidate_only Samples.with_cookies
           Samples.scenario_no_url "abc123" (Some "abc123")
           "mixed_format_method" mixed_kwargs
           (Samples.start Samples.scenario_no_url 0%nat)
           (Samples.info_with [Samples.c128; Samples.no_url_320])
           [Samples.c128; Samples.no_url_320] Samples.no_url_320
           eq_refl eq_refl eq_refl).
  reflexivity.
Defined.

Lemma resolution_never_raises_witness :
  ∃ msg,
    (_try_audio_method Samples.with_cookies Samples.scenario_C "abc123"
       (Some "abc123") "dash_method" dash_kwargs
       (Samples.start Samples.scenario_C 0%nat)).1
    = Ok (Error msg None)
    ∧ (msg = "No video info found"
       ∨ msg = "No suitable formats in dash_method"
       ∨ ∃ text, msg = "dash_method: " +:+ text).
Proof.
  destruct (resolution_never_raises Samples.with_cookies Samples.scenario_C
              "abc123" true "audio" "best" (Some "abc123") "dash_method"
              dash_kwargs (Samples.start Samples.scenario_C 0%nat))
    as ((r & s' & Hrun & Hfail) & _).
  injection Hrun as <- _.
  destruct (Hfail eq_refl) as (msg & Hr & Hmsg).
  exists msg. split; [by rewrite <- Hr|exact Hmsg].
Defined.

(** ** The calls to the external resolver *)

Lemma cache_reads_app (t1 t2 : list Event) :
  cache_reads (t1 ++ t2) = cache_reads t1 ++ cache_reads t2.
Proof. apply omap_app. Qed.

Lemma Forall_extractions (Q : YdlOpts → Prop) (tr : list Event) :
  Forall (λ ev, match ev with EvExtract _ o => Q o | _ => True end) tr →
  Forall Q (extractions tr).
Proof.
  induction 1 as [|ev tr Hev _ IH]; [constructor|].
  destruct ev; simpl; try done. by constructor.
Qed.

Lemma Forall_no_cache_reads (tr : list Event) :
  Forall (λ ev, match ev with EvCacheGet _ => False | _ => True end) tr →
  cache_reads tr = [].
Proof.
  induction 1 as [|ev tr Hev _ IH]; [done|]. by destruct ev.
Qed.

Lemma Forall_no_cache_writes (tr : list Event) :
  Forall (λ ev, match ev with EvCacheSet _ _ => False | _ => True end) tr →
  cache_writes tr = [].
Proof.
  induction 1 as [|ev tr Hev _ IH]; [done|]. by destruct ev.
Qed.

Section ResolverCalls.
Context (config : Config) (E : Env).

Lemma try_in_order_counts url vid m rest (s : State E) r s' :
  try_in_order config E url vid m rest s = (Ok r, s') →
  ∃ new n,
    trace s' = trace s ++ new
    ∧ (n ≤ length rest)%nat
    ∧ attempts new = take (S n) (m.1 :: rest.*1)
    ∧ length (extractions new) = S n
    ∧ cache_reads new = []
    ∧ cache_writes new = [].
Proof.
  revert m s. induction rest as [|m' rest IH]; intros m s; simpl;
    unfold bind;
    destruct (try_audio_run config E url vid m.1 m.2 s)
      as (r1 & s1 & Hrun & Htr & _); rewrite Hrun.
  - assert (Hres : (if is_success r1 then ret r1 else ret r1) s1
                   = (Ok r1, s1)) by by destruct (is_success r1).
    rewrite Hres. intros [= <- <-]. eexists _, 0%nat.
    split; [exact Htr|]. by split_and!.
  - destruct (is_success r1).
    + intros [= <- <-]. eexists _, 0%nat.
      split; [exact Htr|]. split_and!; try done. simpl. lia.
    + intros (new & n & Hnew & Hn & Hatt & Hext & Hrd & Hwr)%IH.
      eexists _, (S n). rewrite Hnew, Htr, <- (assoc_L (++)).
      split; [done|].
      rewrite attempts_app, extractions_app, cache_reads_app,
        cache_writes_app, Hatt, Hrd, Hwr, length_app, Hext.
      split_and!; try done. simpl. lia.
Qed.

(** X7.  An audio resolution calls the external resolver exactly once for
    each method it attempts and attempts no method twice: between one and
    four calls, at most three when cookies are not asked for.  It neither
    reads nor writes the cache. *)
Theorem one_resolver_call_per_method url use_cookies (s : State E) :
  ∃ r s' new,
    get_audio_stream config E url use_cookies s = (Ok r, s')
    ∧ trace s' = trace s ++ new
    ∧ NoDup (attempts new)
    ∧ length (extractions new) = length (attempts new)
    ∧ (1 ≤ length (attempts new) ≤ 4)%nat
    ∧ (use_cookies = false → (length (attempts new) ≤ 3)%nat)
    ∧ cache_reads new = []
    ∧ cache_writes new = [].
Proof.
  assert (Hgen : ∀ m rest,
             (length rest ≤ 3)%nat →
             (use_cookies = false → (length rest ≤ 2)%nat) →
             NoDup (m.1 :: rest.*1) →
             ∃ r s' new,
               try_in_order config E url (extract_video_id E url) m rest s
               = (Ok r, s')
               ∧ trace s' = trace s ++ new
               ∧ NoDup (attempts new)
               ∧ length (extractions new) = length (attempts new)
               ∧ (1 ≤ length (attempts new) ≤ 4)%nat
               ∧ (use_cookies = false → (length (attempts new) ≤ 3)%nat)
               ∧ cache_reads new = []
               ∧ cache_writes new = []).
  { intros m rest Hlen Hlen' Hnodup.
    destruct (try_in_order_run config E url (extract_video_id E url) m
                rest s) as (r & s' & _ & _ & Hrun & _).
    destruct (try_in_order_counts url _ m rest s r s' Hrun)
      as (new & n & Htr & Hn & Hatt & Hext & Hrd & Hwr).
    exists r, s', new. rewrite Hatt, Hext, length_take.
    change (length (m.1 :: rest.*1)) with (S (length (rest.*1))).
    rewrite length_fmap.
    split_and!; try done; try lia.
    - eapply sublist_NoDup; [exact Hnodup|apply sublist_take].
    - intros Hc. specialize (Hlen' Hc). lia. }
  rewrite get_audio_stream_in_order.
  destruct use_cookies; cbn [andb];
    [destruct (bool_decide _)|];
    apply Hgen; simpl; try lia; try done; compute_done.
Qed.

(** X8.  Credentials go to the resolver with the cookie method only.  In
    an audio resolution every resolver call that carries a cookie file
    was asked for by the caller ([use_cookies]), carries the configured
    [COOKIES_FILE], and is the cookie method's call (format hint
    ["bestaudio/best"]); with [use_cookies=False] no call carries one. *)
Theorem cookies_only_with_cookie_method url use_cookies (s : State E) :
  ∃ new,
    trace (get_audio_stream config E url use_cookies s).2 = trace s ++ new
    ∧ Forall (λ o, opt_cookiefile o = None
                   ∨ (use_cookies = true
                      ∧ opt_cookiefile o = COOKIES_FILE config
                      ∧ opt_format o = Some "bestaudio/best"))
        (extractions new).
Proof.
  destruct (emits_get_audio_stream config E
              (λ ev, match ev with
                     | EvExtract _ o =>
                         opt_cookiefile o = None
                         ∨ (use_cookies = true
                            ∧ opt_cookiefile o = COOKIES_FILE config
                            ∧ opt_format o = Some "bestaudio/best")
                     | _ => True
                     end) url use_cookies) with s as (new & Htr & Hnew).
  - intros m kw Hm. split; [done|]. intros w.
    assert (Hcases : (use_cookies = true
                      ∧ (m, kw) = ("cookies_method", cookies_kwargs))
                     ∨ kw_use_cookies kw = false).
    { destruct use_cookies; simpl in Hm;
        repeat (apply elem_of_cons in Hm as [Hm|Hm]);
        try (injection Hm as -> ->); auto;
        by apply elem_of_nil in Hm. }
    destruct Hcases as [[-> [= -> ->]]|Hkw].
    + unfold audio_ydl_opts, cookies_file_found. simpl.
      destruct (COOKIES_FILE config) as [p|]; simpl.
      * destruct (negb (bool_decide (p = "")) && path_exists E p w);
          destruct (truthy_str (PROXY config)); simpl; auto.
      * destruct (truthy_str (PROXY config)); simpl; auto.
    + left. unfold audio_ydl_opts. rewrite Hkw.
      repeat case_bool_decide; destruct (truthy_str (PROXY config));
        reflexivity.
  - exists new. split; [done|]. by apply Forall_extractions.
Qed.
End ResolverCalls.

Lemma one_resolver_call_per_method_witness :
  ∃ r s' new,
    get_audio_stream Samples.with_cookies Samples.scenario_C "abc123" false
      (Samples.start Samples.scenario_C 0%nat) = (Ok r, s')
    ∧ trace s' = new
    ∧ (length (attempts new) ≤ 3)%nat.
Proof.
  destruct (one_resolver_call_per_method Samples.with_cookies
              Samples.scenario_C "abc123" false
              (Samples.start Samples.scenario_C 0%nat))
    as (r & s' & new & Hrun & Htr & _ & _ & _ & Hle & _).
  exists r, s', new. split_and!; [exact Hrun|exact Htr|by apply Hle].
Defined.

(** ** Options, keys and the cache *)

Lemma count_char_app (c : ascii) (a b : string) :
  count_char c (a +:+ b) = (count_char c a + count_char c b)%nat.
Proof. induction a as [|c' a IH]; simpl; [done|]. rewrite IH. lia. Qed.

Section Forwarding.
Context (config : Config) (E : Env).

Lemma audio_ydl_opts_proxy m kw w :
  opt_proxy (audio_ydl_opts config E m kw w) = expected_proxy config.
Proof.
  unfold audio_ydl_opts, expected_proxy.
  destruct (PROXY config) as [p|]; simpl.
  - destruct (negb (bool_decide (p = ""))); simpl; [done|].
    destruct (if kw_use_cookies kw then _ else _);
      repeat case_bool_decide; reflexivity.
  - destruct (if kw_use_cookies kw then _ else _);
      repeat case_bool_decide; reflexivity.
Qed.

Lemma get_ydl_options_proxy video_type quality w :
  opt_proxy (get_ydl_options config E video_type quality w)
  = expected_proxy config.
Proof.
  unfold get_ydl_options, expected_proxy.
  destruct (PROXY config) as [p|]; simpl.
  - destruct (negb (bool_decide (p = ""))); simpl;
      destruct (cookies_file_found config E w);
      repeat case_bool_decide; reflexivity.
  - destruct (cookies_file_found config E w);
      repeat case_bool_decide; reflexivity.
Qed.

(** X9.  Every call that [get_stream_info] or [stream_audio] makes to the
    external resolver is about the url of the request and carries the
    configured proxy when one is set, and no proxy otherwise, on every
    method and on the video branch alike. *)
Theorem proxy_and_url_forwarded url video_type quality force_refresh
    (s : State E) :
  let forwarded ev :=
    match ev with
    | EvExtract u o => u = url ∧ opt_proxy o = expected_proxy config
    | _ => True
    end in
  (∃ new,
      trace (get_stream_info config E url video_type quality s).2
      = trace s ++ new
      ∧ Forall forwarded new)
  ∧ (∃ new,
        trace (stream_audio config E url force_refresh s).2
        = trace s ++ new
        ∧ Forall forwarded new).
Proof.
  intros forwarded. split.
  - apply emits_get_stream_info; try done.
    + intros _ m kw _. split; [done|]. intros w. split; [done|].
      apply audio_ydl_opts_proxy.
    + intros _ w. split; [done|]. apply get_ydl_options_proxy.
  - apply emits_stream_audio; try done.
    intros m kw _. split; [done|]. intros w. split; [done|].
    apply audio_ydl_opts_proxy.
Qed.

(** X10.  Each entry point keeps to its own cache key:
    [get_stream_info] reads and writes only
    ["<id>:<type>:<quality>"], [stream_audio] only ["audio:<id>"], and it
    does not read the cache at all under [force_refresh].  The two keys
    never coincide when the id that [stream_audio] uses has no colon in
    it. *)
Theorem cache_keys_kept_apart url video_type quality force_refresh
    (s : State E) :
  let vid := str_of (extract_video_id E url) in
  let only key ev :=
    match ev with
    | EvCacheGet k => k = key
    | EvCacheSet k _ => k = key
    | _ => True
    end in
  (∃ new,
      trace (get_stream_info config E url video_type quality s).2
      = trace s ++ new
      ∧ Forall (only (vid +:+ ":" +:+ video_type +:+ ":" +:+ quality)) new)
  ∧ (∃ new,
        trace (stream_audio config E url force_refresh s).2
        = trace s ++ new
        ∧ Forall (only ("audio:" +:+ vid)) new
        ∧ (force_refresh = true → cache_reads new = []))
  ∧ (∀ other_id,
        count_char ":" vid = 0%nat →
        "audio:" +:+ vid
        ≠ other_id +:+ ":" +:+ video_type +:+ ":" +:+ quality).
Proof.
  intros vid only. split_and!.
  - by apply emits_get_stream_info.
  - destruct (emits_stream_audio config E
                (λ ev, only ("audio:" +:+ vid) ev
                       ∧ (force_refresh = true →
                          match ev with
                          | EvCacheGet _ => False
                          | _ => True
                          end))
                url force_refresh) with s as (new & Htr & Hnew).
    + intros Hfr. split; [done|]. by rewrite Hfr.
    + done.
    + done.
    + exists new. split_and!; [done| |].
      * eapply Forall_impl; [exact Hnew|]. by intros ev [? _].
      * intros Hfr. apply Forall_no_cache_reads.
        eapply Forall_impl; [exact Hnew|]. intros ev [_ H]. by apply H.
  - intros other_id Hcolon Heq.
    apply (f_equal (count_char ":")) in Heq.
    rewrite !count_char_app, Hcolon in Heq. simpl in Heq. lia.
Qed.
End Forwarding.

Lemma cache_keys_kept_apart_witness :
  "audio:" +:+ "abc123" ≠ "audio" +:+ ":" +:+ "video" +:+ ":" +:+ "best"
  ∧ ∃ new,
      trace (stream_audio Samples.with_cookies Samples.scenario_A "abc123"
               true (Samples.start Samples.scenario_A 0%nat)).2
      = new
      ∧ cache_reads new = [].
Proof.
  destruct (cache_keys_kept_apart Samples.with_cookies Samples.scenario_A
              "abc123" "video" "best" true
              (Samples.start Samples.scenario_A 0%nat))
    as (_ & (new & Htr & _ & Hreads) & Hne).
  split.
  - apply (Hne "audio"). reflexivity.
  - exists new. split; [exact Htr|by apply Hreads].
Defined.

(** ** [get_stream_info] *)

Lemma cache_lookup_fresh k es e :
  Forall (λ x, ResultCache.key x ≠ k) es →
  ResultCache.key e = k →
  ResultCache.lookup k (es ++ [e]) = Some e.
Proof.
  unfold ResultCache.lookup. intros Hes He.
  induction Hes as [|x es Hx _ IH]; simpl.
  - by rewrite bool_decide_true.
  - by rewrite bool_decide_false.
Qed.

Lemma cache_remove_key k es :
  Forall (λ x, ResultCache.key x ≠ k) (ResultCache.remove k es).
Proof.
  apply Forall_forall. intros x [_ Hx]%elem_of_filter_bool.
  apply negb_true_iff in Hx. by apply bool_decide_eq_false in Hx.
Qed.

(** A value that was stored is found again until its time to live has
    passed. *)
Lemma cache_get_after_set max_entries now ttl_ k v c now' :
  now' - now ≤ ttl_ →
  ∃ c', ResultCache.get now' k
          (ResultCache.set max_entries now ttl_ k v c) = (Some v, c').
Proof.
  intros Hfresh. unfold ResultCache.get, ResultCache.set. simpl.
  rewrite cache_lookup_fresh; [| |done].
  - simpl. destruct (Z.ltb_spec ttl_ (now' - now)); [lia|]. by eexists.
  - pose proof (cache_remove_key k (ResultCache.entries c)) as Hrem.
    destruct (max_entries <=? _)%nat; [|done].
    destruct (ResultCache.remove k (ResultCache.entries c)); [done|].
    simpl. by inversion Hrem.
Qed.

Section StreamInfo.
Context (config : Config) (E : Env).

Lemma get_audio_stream_cache url use_cookies (s : State E) :
  cache (get_audio_stream config E url use_cookies s).2 = cache s.
Proof.
  rewrite get_audio_stream_in_order.
  destruct (use_cookies && _);
    match goal with
    | |- context [try_in_order config E url ?vid ?m ?rest s] =>
        destruct (try_in_order_run config E url vid m rest s)
          as (r & s' & n & s_last & -> & _ & _ & _ & _ & Hc & _)
    end; done.
Qed.

Lemma video_stream_info_cache url vid video_type quality (s : State E) :
  cache (video_stream_info config E url vid video_type quality s).2
  = cache s.
Proof.
  unfold video_stream_info, bind, read_world, call_extract_info, bind,
    emit, ret, raise. simpl.
  destruct (extract_info E url _ (world s)) as [[msg|[info|]] w];
    simpl; [done| |done].
  destruct (formats info) as [| |fs]; simpl; [|done|].
  - done.
  - destruct (video_formats fs) as [|f fs']; simpl; [done|].
    destruct (insert_desc video_key f (sort_desc video_key fs'));
      simpl; [done|].
    unfold getitem_url, raise, ret. by destruct (fmt_url _).
Qed.

(** [get_stream_info] after a cache miss. *)
Lemma get_stream_info_miss url video_type quality (s : State E) c :
  let vid := extract_video_id E url in
  let key := str_of vid +:+ ":" +:+ video_type +:+ ":" +:+ quality in
  truthy_str vid = true →
  ResultCache.get (time E (world s)) key (cache s) = (None, c) →
  let looked_up : State E :=
    {| world := world s; trace := trace s ++ [EvCacheGet key];
       cache := c; windows := windows s |} in
  get_stream_info config E url video_type quality s =
  match (if bool_decide (video_type = "audio")
         then get_audio_stream config E url true
         else video_stream_info config E url vid video_type quality)
          looked_up with
  | (Ok r, s2) =>
      if is_success r
      then (Ok r,
            {| world := world s2; trace := trace s2 ++ [EvCacheSet key r];
               cache := ResultCache.set (MAX_CACHE_SIZE config)
                          (time E (world s2)) (CACHE_TTL config) key r
                          (cache s2);
               windows := windows s2 |})
      else (Ok r, s2)
  | (Raise e, s2) => (Ok (Error (str_exn e) (Some (str_of vid))), s2)
  end.
Proof.
  intros vid key Hvid Hmiss looked_up.
  unfold get_stream_info, try_except, bind, cache_get, bind, emit.
  fold vid. rewrite Hvid. simpl. fold key. rewrite Hmiss. simpl.
  fold looked_up.
  match goal with
  | |- context [match ?branch looked_up with _ => _ end] =>
      destruct (branch looked_up) as [[r|e] s2]; [|done]
  end.
  by destruct (is_success r).
Qed.

(** When no video id can be extracted from the url,
    [get_stream_info] answers with the error ["Invalid YouTube URL"]
    and the video id ["unknown"], and does nothing else: no cache lookup,
    no resolver call, no change of state. *)
Theorem get_stream_info_invalid_url url video_type quality (s : State E) :
  truthy_str (extract_video_id E url) = false →
  get_stream_info config E url video_type quality s
  = (Ok (Error "Invalid YouTube URL" (Some "unknown")), s).
Proof.
  intros Hvid. unfold get_stream_info, try_except, raise, ret.
  by rewrite Hvid.
Qed.

(** X11.  A video request that misses the cache reports the resolver's
    failure as it is: the exception text when the resolver raises,
    ["Could not extract video info"] when it returns nothing, and
    ["No suitable video format found"] when every candidate's video
    codec is ["none"]; the error carries the video id.  After any failed
    resolution, audio or video, the cache is as the lookup left it. *)
Theorem video_failure_reported url video_type quality (s : State E) c :
  let vid := extract_video_id E url in
  let key := str_of vid +:+ ":" +:+ video_type +:+ ":" +:+ quality in
  let probe :=
    (extract_info E url
       (get_ydl_options config E video_type quality (world s))
       (world s)).1 in
  let run := get_stream_info config E url video_type quality s in
  truthy_str vid = true →
  ResultCache.get (time E (world s)) key (cache s) = (None, c) →
  (video_type ≠ "audio" →
   (∀ msg, probe = inl msg → run.1 = Ok (Error msg (Some (str_of vid))))
   ∧ (probe = inr None →
      run.1 = Ok (Error "Could not extract video info"
                    (Some (str_of vid))))
   ∧ (∀ info fs,
         probe = inr (Some info) →
         get_default (formats info) [] = Some fs →
         (∀ x, x ∈ fs → get (vcodec x) = Some "none") →
         run.1 = Ok (Error "No suitable video format found"
                       (Some (str_of vid)))))
  ∧ (∀ r, run.1 = Ok r → is_success r = false → cache run.2 = c).
Proof.
  intros vid key probe run Hvid Hmiss. subst run.
  rewrite (get_stream_info_miss url video_type quality s c Hvid Hmiss).
  fold vid key.
  set (looked_up := {| world := world s;
                       trace := trace s ++ [EvCacheGet key];
                       cache := c; windows := windows s |}).
  split.
  - intros Hty. rewrite bool_decide_false by done.
    pose proof (video_stream_result config E url vid video_type quality
                  looked_up) as Hres.
    simpl in Hres. fold probe in Hres.
    destruct (video_stream_info config E url vid video_type quality
                looked_up) as [o s2]. simpl in Hres. subst o.
    split_and!.
    + by intros msg ->.
    + by intros ->.
    + intros info fs -> -> Hnone.
      destruct (video_selection_none fs) as [_ Hn].
      by rewrite (Hn Hnone).
  - intros r.
    assert (Hc : cache ((if bool_decide (video_type = "audio")
                         then get_audio_stream config E url true
                         else video_stream_info config E url vid
                                video_type quality) looked_up).2 = c).
    { destruct (bool_decide _);
        [apply get_audio_stream_cache|apply video_stream_info_cache]. }
    match goal with
    | |- context [match ?branch looked_up with _ => _ end] =>
        destruct (branch looked_up) as [[r0|e] s2]; simpl in *
    end.
    + destruct (is_success r0) eqn:Hok; simpl.
      * intros [= <-] Hf. congruence.
      * by intros _ _.
    + by intros _ _.
Qed.
End StreamInfo.

Lemma get_stream_info_invalid_url_witness :
  get_stream_info Samples.with_cookies Samples.scenario_invalid
    "not a url" "video" "best" (Samples.start Samples.scenario_invalid 0%nat)
  = (Ok (Error "Invalid YouTube URL" (Some "unknown")),
     Samples.start Samples.scenario_invalid 0%nat).
Proof.
  apply get_stream_info_invalid_url. reflexivity.
Defined.

Lemma video_failure_reported_witness :
  (get_stream_info Samples.with_cookies Samples.scenario_C "abc123" "video"
     "low" (Samples.start Samples.scenario_C 0%nat)).1
  = Ok (Error "Sign in to confirm your age: best[height<=360]"
          (Some "abc123"))
  ∧ cache (get_stream_info Samples.with_cookies Samples.scenario_C "abc123"
             "video" "low" (Samples.start Samples.scenario_C 0%nat)).2
    = {| ResultCache.entries := []; ResultCache.hits := 0;
         ResultCache.misses := 1 |}.
Proof.
  destruct (video_failure_reported Samples.with_cookies Samples.scenario_C
              "abc123" "video" "low" (Samples.start Samples.scenario_C 0%nat)
              _ eq_refl eq_refl) as [Hvideo Hcache].
  destruct Hvideo as (Hraise & _); [discriminate|].
  split.
  - apply Hraise. reflexivity.
  - eapply Hcache; [apply Hraise|]; reflexivity.
Defined.

Section CacheRoundTrip.
Context (config : Config) (E : Env).

(** X12.  A successful resolution that missed the cache is served from
    the cache afterwards: for as long as the entry's time to live has not
    passed, the same request returns the same result with one cache
    lookup and without any call to the external resolver. *)
Theorem repeated_request_served_from_cache url video_type quality
    (s s' t : State E) c r :
  let key := str_of (extract_video_id E url) +:+ ":" +:+ video_type
             +:+ ":" +:+ quality in
  ResultCache.get (time E (world s)) key (cache s) = (None, c) →
  get_stream_info config E url video_type quality s = (Ok r, s') →
  is_success r = true →
  cache t = cache s' →
  time E (world t) - time E (world s') ≤ CACHE_TTL config →
  ∃ t',
    get_stream_info config E url video_type quality t = (Ok r, t')
    ∧ trace t' = trace t ++ [EvCacheGet key]
    ∧ world t' = world t
    ∧ extractions (trace t') = extractions (trace t).
Proof.
  intros key Hmiss Hrun Hok Hcache Hfresh.
  destruct (truthy_str (extract_video_id E url)) eqn:Hvid.
  2:{ rewrite get_stream_info_invalid_url in Hrun by done.
      injection Hrun as <- _. discriminate Hok. }
  rewrite (get_stream_info_miss config E url video_type quality s c Hvid
             Hmiss) in Hrun.
  fold key in Hrun.
  match type of Hrun with
  | match ?run with _ => _ end = _ =>
      destruct run as [[r0|e] s2]
  end.
  2:{ injection Hrun as <- _. discriminate Hok. }
  destruct (is_success r0) eqn:Hok0.
  2:{ injection Hrun as <- _. congruence. }
  injection Hrun as <- <-. simpl in Hcache, Hfresh.
  destruct (cache_get_after_set (MAX_CACHE_SIZE config)
              (time E (world s2)) (CACHE_TTL config) key r0 (cache s2)
              (time E (world t)) Hfresh) as [c' Hget].
  unfold get_stream_info, try_except, bind, cache_get, bind, emit.
  rewrite Hvid. simpl. fold key. rewrite Hcache, Hget. simpl.
  eexists. split_and!; try done.
  cbn [trace]. rewrite extractions_app. simpl.
  by rewrite (right_id_L [] (++)).
Qed.
End CacheRoundTrip.

(** Scenario B of the specification: the same audio request twice. *)
Lemma repeated_request_served_from_cache_witness :
  ∃ r s' t',
    get_stream_info Samples.without_cookies Samples.scenario_always "abc123"
      "audio" "best" (Samples.start Samples.scenario_always 0%nat)
    = (Ok r, s')
    ∧ get_stream_info Samples.without_cookies Samples.scenario_always
        "abc123" "audio" "best" s' = (Ok r, t')
    ∧ extractions (trace t') = extractions (trace s')
    ∧ method_used_of r = "mixed_format_method".
Proof.
  pose (s := Samples.start Samples.scenario_always 0%nat).
  pose (run := get_stream_info Samples.without_cookies
                 Samples.scenario_always "abc123" "audio" "best" s).
  pose (r := match run.1 with Ok r => r | Raise _ => Samples.cached_audio end).
  assert (Hrun : run = (Ok r, run.2)) by (vm_compute; reflexivity).
  eassert (Hmiss : ResultCache.get
                    (time Samples.scenario_always (world s))
                    ("abc123" +:+ ":" +:+ "audio" +:+ ":" +:+ "best")
                    (cache s) = (None, _)) by (vm_compute; reflexivity).
  assert (Hok : is_success r = true) by (vm_compute; reflexivity).
  assert (Hmeth : method_used_of r = "mixed_format_method")
    by (vm_compute; reflexivity).
  assert (Hfresh : time Samples.scenario_always (world run.2)
                   - time Samples.scenario_always (world run.2)
                   ≤ CACHE_TTL Samples.without_cookies)
    by (vm_compute; discriminate).
  destruct (repeated_request_served_from_cache Samples.without_cookies
              Samples.scenario_always "abc123" "audio" "best"
              s run.2 run.2 _ r Hmiss Hrun Hok eq_refl Hfresh)
    as (t' & Hagain & _ & _ & Hext).
  exists r, run.2, t'. split_and!; [exact Hrun|exact Hagain|exact Hext|exact Hmeth].
Defined.

(** ** [stream_audio] *)

Section StreamAudio.
Context (config : Config) (E : Env).

Lemma throws_stream_audio url force_refresh :
  throws (http_error [400; 500]) (stream_audio config E url force_refresh).
Proof.
  unfold stream_audio.
  destruct (negb _).
  { apply throws_raise. eexists _, _. split; [done|by left]. }
  apply (throws_try_except E _
           (λ e, http_error [500] e ∨ python_error e)).
  - apply throws_bind.
    { apply (throws_weaken E never); [intros e He; destruct He|].
      apply never_cached_or_fresh_audio. }
    intros result. apply throws_bind.
    { apply (throws_weaken E (http_error [500])); [by left|].
      apply throws_retry_without_cookies. }
    intros final. apply throws_bind.
    { destruct (audio_response E final) as [msg|response];
        [|apply throws_ret].
      apply throws_raise. right. by exists msg. }
    intros response. apply throws_bind; [|intros; apply throws_ret].
    apply (throws_weaken E never); [intros e He; destruct He|].
    destruct (is_success final);
      [apply never_cache_set|apply throws_ret].
  - intros e [(code & detail & -> & Hcode)|[msg ->]];
      apply throws_raise; eexists _, _; (split; [done|]).
    + apply list_elem_of_singleton in Hcode as ->. right. by left.
    + right. by left.
Qed.

(** X13.  [stream_audio] lets nothing but an [HTTPException] with status
    400 or 500 escape, whatever the resolver, the cache or the response
    construction do; an invalid url is refused with status 400 before
    anything else happens. *)
Theorem stream_audio_http_errors_only url force_refresh (s : State E) :
  (∀ e, (stream_audio config E url force_refresh s).1 = Raise e →
        ∃ code detail,
          e = HTTPException code detail ∧ (code = 400 ∨ code = 500))
  ∧ (is_valid_youtube_url E url = false →
     stream_audio config E url force_refresh s
     = (Raise (HTTPException 400 "Invalid YouTube URL"), s)).
Proof.
  split.
  - intros e He.
    destruct (throws_stream_audio url force_refresh s e He)
      as (code & detail & -> & Hcode).
    exists code, detail. split; [done|].
    apply elem_of_cons in Hcode as [->|Hcode]; [by left|].
    apply list_elem_of_singleton in Hcode as ->. by right.
  - intros Hvalid. unfold stream_audio. by rewrite Hvalid.
Qed.

Lemma retry_returns_success url result (s : State E) final s' :
  retry_without_cookies config E url result s = (Ok final, s') →
  is_success final = true.
Proof.
  unfold retry_without_cookies.
  destruct (is_success result) eqn:Hok; simpl; [by intros [= <- _]|].
  unfold bind.
  match goal with
  | |- context [match ?run s with _ => _ end] =>
      destruct (run s) as [[r|e] s1]; [|done]
  end.
  destruct (is_success r) eqn:Hr; simpl; [by intros [= <- _]|done].
Qed.

(** X14.  [stream_audio] writes to the cache only when it answers: a
    request that ends in an exception has written nothing, and a request
    that is answered has written exactly one value, a success.  In
    particular, when building the response raises (lines 499-514 run
    before the cache write), the client gets status 500 although the
    resolution succeeded, and the result is not cached; if it raises for
    every result, no request is ever answered. *)
Theorem stream_audio_caches_only_with_response url force_refresh
    (s : State E) :
  ∃ new,
    trace (stream_audio config E url force_refresh s).2 = trace s ++ new
    ∧ match (stream_audio config E url force_refresh s).1 with
      | Ok _ => ∃ v, cache_writes new = [v] ∧ status v = "success"
      | Raise _ => cache_writes new = []
      end
    ∧ ((∀ r, ∃ msg, audio_response E r = inl msg) →
       ∃ code detail,
         (stream_audio config E url force_refresh s).1
         = Raise (HTTPException code detail)).
Proof.
  destruct (stream_audio config E url force_refresh s) as [o s'] eqn:Hrun.
  cbn [fst snd]. unfold stream_audio in Hrun.
  destruct (is_valid_youtube_url E url); cbn [negb] in Hrun;
    cbv beta iota in Hrun.
  2:{ injection Hrun as <- <-. exists [].
      rewrite (right_id_L [] (++)). by eauto. }
  unfold try_except, bind, cache_set, bind, emit, raise, ret in Hrun.
  cbv beta iota in Hrun. revert Hrun.
  destruct (emits_cached_or_fresh_audio config E no_cache_write url
              force_refresh) with s as (new1 & Ht1 & H1); [done|done|].
  pose proof (never_cached_or_fresh_audio config E url force_refresh s)
    as Hnever.
  destruct (cached_or_fresh_audio config E url force_refresh s)
    as [[result|e] s1]; [|by destruct (Hnever e)].
  simpl in Ht1. clear Hnever.
  destruct (emits_retry_without_cookies config E no_cache_write url result)
    with s1 as (new2 & Ht2 & H2); [done|].
  pose proof (throws_retry_without_cookies config E url result s1)
    as Hthrows.
  pose proof (retry_returns_success url result s1) as Hfinal.
  destruct (retry_without_cookies config E url result s1)
    as [[final|e] s2]; simpl in Ht2.
  - specialize (Hfinal final s2 eq_refl).
    destruct (audio_response E final) as [msg|response] eqn:Hresp.
    + cbv beta iota. intros [= <- <-].
      exists (new1 ++ new2). rewrite Ht2, Ht1, (assoc_L (++)).
      split_and!; [done| |by eauto].
      apply Forall_no_cache_writes, Forall_app. by split.
    + cbv beta iota. rewrite Hfinal. cbv beta iota. intros [= <- <-].
      exists (new1 ++ new2
              ++ [EvCacheSet ("audio:" +:+ str_of (extract_video_id E url))
                    final]).
      cbn [trace]. rewrite Ht2, Ht1, <- !(assoc_L (++)).
      split_and!; [done| |].
      * exists final. rewrite !cache_writes_app.
        rewrite (Forall_no_cache_writes new1 H1),
          (Forall_no_cache_writes new2 H2). simpl.
        split; [done|]. unfold is_success in Hfinal.
        by apply bool_decide_eq_true in Hfinal.
      * intros Hall. destruct (Hall final) as [msg Hmsg]. congruence.
  - destruct (Hthrows e eq_refl) as (code & detail & -> & _).
    cbv beta iota. intros [= <- <-].
    exists (new1 ++ new2). rewrite Ht2, Ht1, (assoc_L (++)).
    split_and!; [done| |by eauto].
    apply Forall_no_cache_writes, Forall_app. by split.
Qed.
End StreamAudio.

Lemma stream_audio_http_errors_only_witness :
  stream_audio Samples.with_cookies Samples.scenario_invalid "not a url"
    false (Samples.start Samples.scenario_invalid 0%nat)
  = (Raise (HTTPException 400 "Invalid YouTube URL"),
     Samples.start Samples.scenario_invalid 0%nat)
  ∧ ∃ code detail,
      (stream_audio Samples.with_cookies Samples.scenario_C "abc123" true
         (Samples.start Samples.scenario_C 0%nat)).1
      = Raise (HTTPException code detail)
      ∧ (code = 400 ∨ code = 500).
Proof.
  split.
  - by apply stream_audio_http_errors_only.
  - destruct (stream_audio_http_errors_only Samples.with_cookies
                Samples.scenario_C "abc123" true
                (Samples.start Samples.scenario_C 0%nat)) as [H _].
    eassert (Hrun : (stream_audio Samples.with_cookies Samples.scenario_C
                       "abc123" true
                       (Samples.start Samples.scenario_C 0%nat)).1
                    = Raise _) by (vm_compute; reflexivity).
    destruct (H _ Hrun) as (code & detail & Heq & Hcode).
    exists code, detail. split; [by rewrite Hrun, Heq|exact Hcode].
Defined.

(** In [main.py] as it stands the header dict of [stream_audio] refers to
    [hashlib], which the module never imports: a resolution that
    succeeds still ends in status 500 and is not cached. *)
Lemma stream_audio_caches_only_with_response_witness :
  ∃ new,
    trace (stream_audio Samples.with_cookies Samples.scenario_A "abc123"
             true (Samples.start Samples.scenario_A 0%nat)).2
    = new
    ∧ cache_writes new = []
    ∧ (stream_audio Samples.with_cookies Samples.scenario_A "abc123" true
         (Samples.start Samples.scenario_A 0%nat)).1
      = Raise (HTTPException 500
                 "Audio streaming error: name 'hashlib' is not defined").
Proof.
  destruct (stream_audio_caches_only_with_response Samples.with_cookies
              Samples.scenario_A "abc123" true
              (Samples.start Samples.scenario_A 0%nat))
    as (new & Htr & Hwrites & Hnever).
  exists new. split_and!; [exact Htr|exact Hwrites|].
  destruct Hnever as (code & detail & Hraise).
  - intros r. by eexists.
  - reflexivity.
Defined.

(** ** How often the resolver is called *)

Section CallBudget.
Context (config : Config) (E : Env).

Lemma calls_ret {A} (a : A) : calls_at_most 0 (ret (E:=E) a).
Proof.
  intros s. exists []. simpl. by rewrite (right_id_L [] (++)).
Qed.

Lemma calls_raise {A} (e : Exn) : calls_at_most 0 (raise (E:=E) (A:=A) e).
Proof.
  intros s. exists []. simpl. by rewrite (right_id_L [] (++)).
Qed.

Lemma calls_weaken {A} (n n' : nat) (m : M E A) :
  (n ≤ n')%nat → calls_at_most n m → calls_at_most n' m.
Proof.
  intros Hn Hm s. destruct (Hm s) as (new & Htr & Hlen).
  exists new. split; [done|lia].
Qed.

Lemma calls_bind {A B} (n1 n2 : nat) (m : M E A) (k : A → M E B) :
  calls_at_most n1 m → (∀ a, calls_at_most n2 (k a)) →
  calls_at_most (n1 + n2) (bind m k).
Proof.
  intros Hm Hk s. unfold bind.
  destruct (Hm s) as (new1 & Ht1 & H1).
  destruct (m s) as [[a|e] s1]; simpl in *.
  - destruct (Hk a s1) as (new2 & Ht2 & H2).
    exists (new1 ++ new2). rewrite Ht2, Ht1, (assoc_L (++)).
    split; [done|]. rewrite extractions_app, length_app. lia.
  - exists new1. split; [done|lia].
Qed.

Lemma calls_try_except {A} (n1 n2 : nat) (m : M E A) (h : Exn → M E A) :
  calls_at_most n1 m → (∀ e, calls_at_most n2 (h e)) →
  calls_at_most (n1 + n2) (try_except m h).
Proof.
  intros Hm Hh s. unfold try_except.
  destruct (Hm s) as (new1 & Ht1 & H1).
  destruct (m s) as [[a|e] s1]; simpl in *.
  - exists new1. split; [done|lia].
  - destruct (Hh e s1) as (new2 & Ht2 & H2).
    exists (new1 ++ new2). rewrite Ht2, Ht1, (assoc_L (++)).
    split; [done|]. rewrite extractions_app, length_app. lia.
Qed.

Lemma calls_of_emits {A} (m : M E A) :
  emits (λ ev, match ev with EvExtract _ _ => False | _ => True end) m →
  calls_at_most 0 m.
Proof.
  intros Hm s. destruct (Hm s) as (new & Htr & Hnew).
  exists new. split; [done|].
  assert (extractions new = []) as ->; [|done].
  clear Htr. induction Hnew as [|ev tr Hev _ IH]; [done|].
  by destruct ev.
Qed.

Lemma calls_try_audio_method url vid m kw :
  calls_at_most 1 (_try_audio_method config E url vid m kw).
Proof.
  intros s.
  destruct (try_audio_run config E url vid m kw s)
    as (r & s' & -> & Htr & _).
  eexists. split; [exact Htr|]. simpl. lia.
Qed.

Lemma calls_audio_fallbacks url vid :
  calls_at_most 3 (audio_fallbacks config E url vid).
Proof.
  unfold audio_fallbacks.
  apply (calls_bind 1 2); [apply calls_try_audio_method|]. intros r2.
  destruct (is_success r2);
    [apply (calls_weaken 0); [lia|apply calls_ret]|].
  apply (calls_bind 1 1); [apply calls_try_audio_method|]. intros r3.
  destruct (is_success r3);
    [apply (calls_weaken 0); [lia|apply calls_ret]|].
  apply calls_try_audio_method.
Qed.

Lemma calls_get_audio_stream url (use_cookies : bool) :
  calls_at_most (if use_cookies then 4 else 3)
    (get_audio_stream config E url use_cookies).
Proof.
  unfold get_audio_stream.
  apply (calls_bind 0 (if use_cookies then 4 else 3)).
  { apply calls_of_emits, emits_read_world. }
  intros found. destruct use_cookies; simpl; [|apply calls_audio_fallbacks].
  destruct (bool_decide _);
    [|apply (calls_weaken 3); [lia|apply calls_audio_fallbacks]].
  apply (calls_bind 1 3); [apply calls_try_audio_method|]. intros r1.
  destruct (is_success r1);
    [apply (calls_weaken 0); [lia|apply calls_ret]
    |apply calls_audio_fallbacks].
Qed.

Lemma calls_video_stream_info url vid video_type quality :
  calls_at_most 1 (video_stream_info config E url vid video_type quality).
Proof.
  unfold video_stream_info.
  apply (calls_bind 0 1).
  { apply calls_of_emits, emits_read_world. }
  intros opts. apply (calls_bind 1 0).
  { intros s. exists [EvExtract url opts].
    unfold call_extract_info, bind, emit. simpl.
    destruct (extract_info E url opts (world s)) as [[msg|info] w];
      simpl; split; done. }
  intros info. apply calls_of_emits.
  destruct info as [info|]; [|apply emits_raise].
  apply emits_bind.
  { unfold iterate. destruct (get_default _ _);
      [apply emits_ret|apply emits_raise]. }
  intros fs. destruct (video_formats fs) as [|f fs']; [apply emits_raise|].
  apply emits_bind.
  { unfold first_item. destruct (sort_desc _ _);
      [apply emits_raise|apply emits_ret]. }
  intros best. apply emits_bind; [|intros; apply emits_ret].
  unfold getitem_url. destruct (fmt_url best);
    [apply emits_raise|apply emits_ret|apply emits_ret].
Qed.

Lemma calls_store_if_success k r :
  calls_at_most 0
    (if is_success r then cache_set config E k r else ret ()).
Proof.
  apply calls_of_emits. destruct (is_success r);
    [by apply emits_cache_set|apply emits_ret].
Qed.

Lemma calls_get_stream_info url video_type quality :
  calls_at_most (if bool_decide (video_type = "audio") then 4 else 1)
    (get_stream_info config E url video_type quality).
Proof.
  set (n := if bool_decide (video_type = "audio") then 4%nat else 1%nat).
  unfold get_stream_info.
  apply (calls_weaken (n + 0)); [lia|].
  apply calls_try_except; [|intros; apply calls_ret].
  destruct (negb _); [apply (calls_weaken 0); [lia|apply calls_raise]|].
  apply (calls_bind 0 n).
  { by apply calls_of_emits, emits_cache_get. }
  intros [cached|]; [apply (calls_weaken 0); [lia|apply calls_ret]|].
  apply (calls_weaken (n + 0)); [lia|].
  apply calls_bind.
  - subst n. destruct (bool_decide _);
      [apply (calls_get_audio_stream url true)
      |apply calls_video_stream_info].
  - intros result. apply (calls_bind 0 0);
      [apply calls_store_if_success|intros; apply calls_ret].
Qed.

Lemma calls_stream_audio url force_refresh :
  calls_at_most 7 (stream_audio config E url force_refresh).
Proof.
  unfold stream_audio.
  destruct (negb _); [apply (calls_weaken 0); [lia|apply calls_raise]|].
  apply (calls_try_except 7 0);
    [|intros []; apply calls_raise].
  apply (calls_bind 4 3).
  { unfold cached_or_fresh_audio.
    destruct (negb force_refresh);
      [|apply (calls_get_audio_stream url true)].
    apply (calls_bind 0 4).
    { by apply calls_of_emits, emits_cache_get. }
    intros [cached|]; [|apply (calls_get_audio_stream url true)].
    destruct (is_success cached);
      [apply (calls_weaken 0); [lia|apply calls_ret]
      |apply (calls_get_audio_stream url true)]. }
  intros result. apply (calls_bind 3 0).
  { unfold retry_without_cookies.
    destruct (negb (is_success result));
      [|apply (calls_weaken 0); [lia|apply calls_ret]].
    apply (calls_bind 3 0).
    - destruct (contains _ _);
        [apply (calls_get_audio_stream url false)
        |apply (calls_weaken 0); [lia|apply calls_ret]].
    - intros retried. destruct (negb (is_success retried));
        [apply calls_raise|apply calls_ret]. }
  intros final. apply (calls_bind 0 0).
  { destruct (audio_response E final);
      [apply calls_raise|apply calls_ret]. }
  intros response. apply (calls_bind 0 0);
    [apply calls_store_if_success|intros; apply calls_ret].
Qed.

(** X15.  The number of calls to the external resolver per request is
    bounded: [get_stream_info] makes at most four for an audio request
    and at most one for any other; [stream_audio] makes at most seven
    (four for the resolution, three for the retry without cookies). *)
Theorem resolver_call_budget url video_type quality force_refresh
    (s : State E) :
  (∃ new,
      trace (get_stream_info config E url video_type quality s).2
      = trace s ++ new
      ∧ (length (extractions new)
         ≤ if bool_decide (video_type = "audio") then 4 else 1)%nat)
  ∧ (∃ new,
        trace (stream_audio config E url force_refresh s).2
        = trace s ++ new
        ∧ (length (extractions new) ≤ 7)%nat).
Proof.
  split; [apply calls_get_stream_info|apply calls_stream_audio].
Qed.
End CallBudget.

(** The bound of seven calls is reached: every method fails with a
    message that mentions cookies, so the resolution is retried. *)
Lemma resolver_call_budget_reached :
  length (extractions
            (trace (stream_audio Samples.with_cookies
                      Samples.scenario_needs_cookies "abc123" true
                      (Samples.start Samples.scenario_needs_cookies
                         0%nat)).2))
  = 7%nat.
Proof. reflexivity. Qed.

(** ** [stream_video] *)

Section StreamVideo.
Context (config : Config) (E : Env).
Context (clean_title : option string → string + string).
Context (headers_update :
           Response → list (string * option string) → string + Response).

Local Abbreviation serve_video :=
  (stream_video config E clean_title headers_update).

Lemma throws_stream_video url quality :
  throws (http_error [400; 500]) (serve_video url quality).
Proof.
  unfold stream_video.
  destruct (negb _).
  { apply throws_raise. eexists _, _. split; [done|by left]. }
  destruct (negb _).
  { apply throws_raise. eexists _, _. split; [done|by left]. }
  apply (throws_try_except E _
           (λ e, http_error [500] e ∨ python_error e)).
  - apply throws_bind.
    { apply (throws_weaken E never); [intros e He; destruct He|].
      apply never_get_stream_info. }
    intros result. destruct (negb (is_success result)).
    { apply throws_raise. left. eexists _, _. split; [done|by left]. }
    apply throws_bind.
    { apply (throws_weaken E python_error); [by right|].
      apply throws_call. }
    intros video_title. apply throws_bind.
    { unfold stream_url_header. destruct (stream_url_of result);
        [apply throws_ret|].
      apply throws_raise. right. by eexists. }
    intros url_header.
    apply (throws_weaken E python_error); [by right|]. apply throws_call.
  - intros e [(code & detail & -> & Hcode)|[msg ->]];
      apply throws_raise; eexists _, _; (split; [done|]).
    + apply list_elem_of_singleton in Hcode as ->. right. by left.
    + right. by left.
Qed.

(** X16.  [stream_video] lets nothing but an [HTTPException] with status
    400 or 500 escape.  An invalid url, and then a quality other than
    low, medium, high or best, is refused with status 400 before any
    cache lookup or resolver call; a failed resolution is reported with
    status 500 and the failure message of the result. *)
Theorem stream_video_errors url quality (s : State E) :
  (∀ e, (serve_video url quality s).1 = Raise e →
        ∃ code detail,
          e = HTTPException code detail ∧ (code = 400 ∨ code = 500))
  ∧ (is_valid_youtube_url E url = false →
     serve_video url quality s
     = (Raise (HTTPException 400 "Invalid YouTube URL"), s))
  ∧ (is_valid_youtube_url E url = true →
     quality ∉ ["low"; "medium"; "high"; "best"] →
     serve_video url quality s
     = (Raise (HTTPException 400 "Invalid quality parameter"), s))
  ∧ (∀ msg vid s',
        is_valid_youtube_url E url = true →
        quality ∈ ["low"; "medium"; "high"; "best"] →
        get_stream_info config E url "video" quality s
        = (Ok (Error msg vid), s') →
        serve_video url quality s = (Raise (HTTPException 500 msg), s')).
Proof.
  split_and!.
  - intros e He.
    destruct (throws_stream_video url quality s e He)
      as (code & detail & -> & Hcode).
    exists code, detail. split; [done|].
    apply elem_of_cons in Hcode as [->|Hcode]; [by left|].
    apply list_elem_of_singleton in Hcode as ->. by right.
  - intros Hvalid. unfold stream_video. by rewrite Hvalid.
  - intros Hvalid Hq. unfold stream_video. rewrite Hvalid.
    by rewrite bool_decide_false.
  - intros msg vid s' Hvalid Hq Hrun. unfold stream_video.
    rewrite Hvalid, bool_decide_true by done. cbn [negb]. cbv beta iota.
    unfold try_except. unfold bind at 1. by rewrite Hrun.
Qed.
End StreamVideo.

Lemma stream_video_errors_witness :
  stream_video Samples.with_cookies Samples.scenario_C (λ t, inr "title")
    (λ r _, inr r) "abc123" "ultra" (Samples.start Samples.scenario_C 0%nat)
  = (Raise (HTTPException 400 "Invalid quality parameter"),
     Samples.start Samples.scenario_C 0%nat)
  ∧ (stream_video Samples.with_cookies Samples.scenario_C
       (λ t, inr "title") (λ r _, inr r) "abc123" "low"
       (Samples.start Samples.scenario_C 0%nat)).1
    = Raise (HTTPException 500
               "Sign in to confirm your age: best[height<=360]")
  ∧ stream_video Samples.with_cookies Samples.scenario_invalid
      (λ t, inr "title") (λ r _, inr r) "not a url" "low"
      (Samples.start Samples.scenario_invalid 0%nat)
    = (Raise (HTTPException 400 "Invalid YouTube URL"),
       Samples.start Samples.scenario_invalid 0%nat).
Proof.
  split_and!.
  - apply stream_video_errors; [reflexivity|].
    intros Hin. repeat (apply elem_of_cons in Hin as [Hin|Hin]);
      try discriminate. by apply elem_of_nil in Hin.
  - destruct (stream_video_errors Samples.with_cookies Samples.scenario_C
                (λ t, inr "title") (λ r _, inr r) "abc123" "low"
                (Samples.start Samples.scenario_C 0%nat))
      as (_ & _ & _ & H).
    erewrite H; [reflexivity|reflexivity| |reflexivity].
    by left.
  - by apply stream_video_errors.
Defined.

(** ** Headers *)

Lemma string_length_substring (n : nat) (u : string) :
  String.length (String.substring 0 n u) = (n `min` String.length u)%nat.
Proof.
  revert u. induction n as [|n IH]; intros [|c u]; simpl; try done.
  by rewrite IH.
Qed.

(** X17.  The [X-Stream-Url] header of [stream_video] never exceeds 103
    characters: a stream url of at most 100 characters is passed
    unchanged, a longer one is cut to its first 100 characters followed
    by three dots. *)
Theorem shorten_url_bound (u : string) :
  (String.length (shorten_url u) ≤ 103)%nat
  ∧ ((String.length u ≤ 100)%nat → shorten_url u = u)
  ∧ ((100 < String.length u)%nat →
     shorten_url u = String.substring 0 100 u +:+ "..."
     ∧ String.length (shorten_url u) = 103%nat).
Proof.
  unfold shorten_url.
  destruct (Nat.ltb_spec 100 (String.length u)) as [Hlong|Hshort].
  - rewrite string_length_app, string_length_substring, Nat.min_l by lia.
    change (String.length "...") with 3%nat.
    split_and!; [lia|lia|]. intros _. split; [done|lia].
  - split_and!; [lia|done|lia].
Qed.

Lemma shorten_url_bound_witness :
  shorten_url "https://cdn/v1080" = "https://cdn/v1080".
Proof.
  destruct (shorten_url_bound "https://cdn/v1080") as (_ & H & _).
  apply H. simpl. lia.
Defined.

Lemma lower_ascii_idemp (c : ascii) :
  lower_ascii (lower_ascii c) = lower_ascii c.
Proof. by destruct c as [[] [] [] [] [] [] [] []]. Qed.

Lemma lower_idemp (s : string) : lower (lower s) = lower s.
Proof.
  induction s as [|c s IH]; simpl; [done|].
  by rewrite lower_ascii_idemp, IH.
Qed.

(** X18.  [get_content_type] always answers with an audio media type,
    ["audio/mpeg"] for an extension it does not know, and it ignores the
    case of the extension's letters. *)
Theorem get_content_type_audio (ext : string) :
  String.prefix "audio/" (get_content_type ext) = true
  ∧ get_content_type (lower ext) = get_content_type ext
  ∧ (get_content_type ext ≠ "audio/mpeg" →
     lower ext ∈ ["m4a"; "webm"; "ogg"; "opus"; "flac"; "wav"; "aac"]).
Proof.
  unfold get_content_type. rewrite lower_idemp.
  split_and!; [|done|];
    destruct (content_types !! lower ext) as [v|] eqn:Hv; simpl;
    try done.
  - apply elem_of_list_to_map_2 in Hv.
    repeat (apply elem_of_cons in Hv as [[= _ ->]|Hv]); try reflexivity.
    by apply elem_of_nil in Hv.
  - apply elem_of_list_to_map_2 in Hv. intros Hne.
    repeat (apply elem_of_cons in Hv as [[= Hext ->]|Hv]);
      try done; try (rewrite Hext; set_solver).
    by apply elem_of_nil in Hv.
Qed.

Lemma get_content_type_audio_witness :
  lower "WebM" ∈ ["m4a"; "webm"; "ogg"; "opus"; "flac"; "wav"; "aac"]
  ∧ get_content_type "WebM" = "audio/webm".
Proof.
  destruct (get_content_type_audio "WebM") as (_ & _ & H).
  split; [|reflexivity]. apply H. discriminate.
Defined.

(** ** Rejected requests *)

Section Rejection.
Context (config : Config) (E : Env).

(** When the rate limiter rejects a client, the middleware answers
    with status 429 and the fixed error body, and the request handler is
    not run: the world, the trace and the cache are untouched, only the
    client's window is pruned.  A request without a client address is
    counted under the key ["unknown"]. *)
Theorem rate_limited_request_not_handled client call_next (s : State E) m :
  RateLimiter.check_limit (RATE_LIMIT_WINDOW config)
    (MAX_REQUESTS_PER_MINUTE config) (time E (world s))
    (default "unknown" client) (windows s) = (false, m) →
  rate_limit_middleware config E client call_next s
  = (Ok (JSONResponse 429
           [("error", "Rate limit exceeded");
            ("message", "Please wait before making another request")]),
     {| world := world s; trace := trace s; cache := cache s;
        windows := m |}).
Proof.
  intros Hreject.
  unfold rate_limit_middleware, bind, check_limit. by rewrite Hreject.
Qed.
End Rejection.

Lemma rate_limited_request_not_handled_witness :
  ∃ s',
    rate_limit_middleware
      {| RATE_LIMIT_WINDOW := 5; MAX_REQUESTS_PER_MINUTE := 2;
         COOKIES_FILE := None; CACHE_TTL := 7200; MAX_CACHE_SIZE := 1000;
         PROXY := None |}
      Samples.scenario_A (Some "10.0.0.7")
      (get_stream_info Samples.with_cookies Samples.scenario_A "abc123"
         "audio" "best" ;;; ret (JSONResponse 200 []))
      {| world := 6%nat : World Samples.scenario_A; trace := [];
         cache := ResultCache.empty;
         windows := {["10.0.0.7" := [0; 3; 4]]} |}
    = (Ok (JSONResponse 429
             [("error", "Rate limit exceeded");
              ("message", "Please wait before making another request")]),
       s')
    ∧ trace s' = []
    ∧ windows s' !! "10.0.0.7" = Some [3; 4].
Proof.
  eexists. split.
  - by apply rate_limited_request_not_handled.
  - split; reflexivity.
Defined.

(** ** What is written to the cache, and what a failure says *)

Section Composition.
Context (config : Config) (E : Env).

(** X19.  On a cache miss [get_stream_info] writes to the cache exactly
    when the result is a success, and then what it writes is the result
    it returns, once; on a hit it writes nothing and returns what the
    cache holds. *)
Theorem cache_write_is_returned_result url video_type quality
    (s : State E) o c :
  let vid := extract_video_id E url in
  let key := str_of vid +:+ ":" +:+ video_type +:+ ":" +:+ quality in
  truthy_str vid = true →
  ResultCache.get (time E (world s)) key (cache s) = (o, c) →
  ∃ r s' new,
    get_stream_info config E url video_type quality s = (Ok r, s')
    ∧ trace s' = trace s ++ new
    ∧ match o with
      | Some hit => r = hit ∧ cache_writes new = [] ∧ cache s' = c
      | None => cache_writes new = (if is_success r then [r] else [])
      end.
Proof.
  intros vid key Hvid Hget. destruct o as [hit|].
  - unfold get_stream_info, try_except, bind, cache_get, bind, emit.
    fold vid. rewrite Hvid. simpl. fold key. rewrite Hget. simpl.
    by eexists _, _, [_].
  - rewrite (get_stream_info_miss config E url video_type quality s c
               Hvid Hget). fold vid key.
    set (looked_up := {| world := world s;
                         trace := trace s ++ [EvCacheGet key];
                         cache := c; windows := windows s |}).
    assert (Hbranch : emits no_cache_write
                        (if bool_decide (video_type = "audio")
                         then get_audio_stream config E url true
                         else video_stream_info config E url vid
                                video_type quality)).
    { destruct (bool_decide _);
        [by apply emits_get_audio_stream
        |by apply emits_video_stream_info]. }
    destruct (Hbranch looked_up) as (new & Htr & Hnew).
    apply Forall_no_cache_writes in Hnew.
    match goal with
    | |- context [match ?branch looked_up with _ => _ end] =>
        destruct (branch looked_up) as [[r|e] s2]; simpl in Htr
    end.
    + destruct (is_success r) eqn:Hok.
      * eexists _, _, (EvCacheGet key :: new ++ [EvCacheSet key r]).
        split; [done|]. cbn [trace]. rewrite Htr, <- !(assoc_L (++)).
        split; [done|]. simpl. by rewrite cache_writes_app, Hnew, Hok.
      * eexists _, _, (EvCacheGet key :: new).
        rewrite Htr, <- (assoc_L (++)). split_and!; try done.
        simpl. by rewrite Hnew, Hok.
    + eexists _, _, (EvCacheGet key :: new).
      rewrite Htr, <- (assoc_L (++)). split_and!; try done.
Qed.

(** X20.  What a failed audio request tells the client, for a failure
    message in ASCII (on which [lower] is Python's [str.lower]).  When
    the resolution fails with a message that does not mention cookies,
    [stream_audio] raises status 500 at once with the detail
    ["Audio extraction failed: <message>. Video may be age-restricted or
    region-locked. Try adding cookies.txt file."]; when the message
    mentions cookies, in capitals or small letters, the resolution is
    run once more without cookies and, if that fails too, the detail
    carries the message of the second failure. *)
Theorem stream_audio_failure_detail url (s s1 : State E) msg vid :
  let detail text :=
    "Audio extraction failed: " +:+ text
    +:+ ". Video may be age-restricted or "
    +:+ "region-locked. Try adding cookies.txt " +:+ "file." in
  is_valid_youtube_url E url = true →
  get_audio_stream config E url true s = (Ok (Error msg vid), s1) →
  is_ascii msg = true →
  (contains "cookies" (lower msg) = false →
   stream_audio config E url true s
   = (Raise (HTTPException 500 (detail msg)), s1))
  ∧ (contains "cookies" (lower msg) = true →
     ∀ msg2 vid2 s2,
       get_audio_stream config E url false s1
       = (Ok (Error msg2 vid2), s2) →
       stream_audio config E url true s
       = (Raise (HTTPException 500 (detail msg2)), s2)).
Proof.
  intros detail Hvalid Hrun _.
  assert (Hstart : cached_or_fresh_audio config E url true s
                   = (Ok (Error msg vid), s1)).
  { unfold cached_or_fresh_audio. simpl. exact Hrun. }
  split.
  - intros Hno. unfold stream_audio. rewrite Hvalid. cbn [negb].
    cbv beta iota zeta. unfold try_except. run_bind Hstart.
    unfold bind at 1, retry_without_cookies. simpl is_success.
    cbn [negb message_of]. rewrite Hno. unfold bind at 1. simpl.
    reflexivity.
  - intros Hyes msg2 vid2 s2 Hretry. unfold stream_audio.
    rewrite Hvalid. cbn [negb]. cbv beta iota zeta. unfold try_except.
    run_bind Hstart.
    unfold bind at 1, retry_without_cookies. simpl is_success.
    change (is_success (Error msg vid)) with false.
    cbn [negb message_of]. rewrite Hyes. run_bind Hretry. simpl.
    reflexivity.
Qed.
End Composition.

Lemma cache_write_is_returned_result_witness :
  ∃ r s' new,
    get_stream_info Samples.without_cookies Samples.scenario_always "abc123"
      "audio" "best" (Samples.start Samples.scenario_always 0%nat)
    = (Ok r, s')
    ∧ trace s' = new
    ∧ cache_writes new = [r]
    ∧ is_success r = true.
Proof.
  eassert (Hget : ResultCache.get
                    (time Samples.scenario_always
                       (world (Samples.start Samples.scenario_always 0%nat)))
                    ("abc123" +:+ ":" +:+ "audio" +:+ ":" +:+ "best")
                    (cache (Samples.start Samples.scenario_always 0%nat))
                  = (None, _)) by (vm_compute; reflexivity).
  assert (Hok : is_success
                  match (get_stream_info Samples.without_cookies
                           Samples.scenario_always "abc123" "audio" "best"
                           (Samples.start Samples.scenario_always 0%nat)).1
                  with
                  | Ok r => r
                  | Raise _ => Samples.cached_audio
                  end = true) by (vm_compute; reflexivity).
  destruct (cache_write_is_returned_result Samples.without_cookies
              Samples.scenario_always "abc123" "audio" "best"
              (Samples.start Samples.scenario_always 0%nat) None _
              eq_refl Hget) as (r & s' & new & Hrun & Htr & Hwrites).
  rewrite Hrun in Hok. cbn [fst] in Hok. rewrite Hok in Hwrites.
  exists r, s', new.
  split_and!; [exact Hrun|exact Htr|exact Hwrites|exact Hok].
Defined.

Lemma stream_audio_failure_detail_witness :
  (stream_audio Samples.with_cookies Samples.scenario_C "abc123" true
     (Samples.start Samples.scenario_C 0%nat)).1
  = Raise (HTTPException 500
             ("Audio extraction failed: "
              +:+ "generic_method: Sign in to confirm your age: best"
              +:+ ". Video may be age-restricted or "
              +:+ "region-locked. Try adding cookies.txt " +:+ "file."))
  ∧ (stream_audio Samples.with_cookies Samples.scenario_needs_cookies_caps
       "abc123" true
       (Samples.start Samples.scenario_needs_cookies_caps 0%nat)).1
    = Raise (HTTPException 500
               ("Audio extraction failed: "
                +:+ "generic_method: Sign in to confirm your age. "
                +:+ "Use --COOKIES"
                +:+ ". Video may be age-restricted or "
                +:+ "region-locked. Try adding cookies.txt " +:+ "file."))
  ∧ length (extractions
              (trace (stream_audio Samples.with_cookies
                        Samples.scenario_needs_cookies_caps "abc123" true
                        (Samples.start Samples.scenario_needs_cookies_caps
                           0%nat)).2))
    = 7%nat.
Proof.
  split.
  - eassert (Hrun : get_audio_stream Samples.with_cookies Samples.scenario_C
                      "abc123" true (Samples.start Samples.scenario_C 0%nat)
                    = (Ok (Error _ _), _)) by (vm_compute; reflexivity).
    destruct (stream_audio_failure_detail Samples.with_cookies
                Samples.scenario_C "abc123"
                (Samples.start Samples.scenario_C 0%nat) _ _ _
                eq_refl Hrun) as [Hplain _]; [vm_compute; reflexivity|].
    rewrite Hplain by (vm_compute; reflexivity).
    vm_compute. reflexivity.
  - eassert (Hrun : get_audio_stream Samples.with_cookies
                      Samples.scenario_needs_cookies_caps "abc123" true
                      (Samples.start Samples.scenario_needs_cookies_caps
                         0%nat)
                    = (Ok (Error _ _), _)) by (vm_compute; reflexivity).
    destruct (stream_audio_failure_detail Samples.with_cookies
                Samples.scenario_needs_cookies_caps "abc123"
                (Samples.start Samples.scenario_needs_cookies_caps 0%nat)
                _ _ _ eq_refl Hrun) as [_ Hretry];
      [vm_compute; reflexivity|].
    match type of Hrun with
    | _ = (_, ?s1) =>
        eassert (Hagain : get_audio_stream Samples.with_cookies
                            Samples.scenario_needs_cookies_caps "abc123"
                            false s1
                          = (Ok (Error _ _), _)) by (vm_compute; reflexivity)
    end.
    rewrite (Hretry ltac:(vm_compute; reflexivity) _ _ _ Hagain).
    split; vm_compute; reflexivity.
Defined.
